(** * VinAuto: the docking-box calculator and the docking job supervisor

    A shallow embedding of
      - [virtual_screening/dock_box.py]   ([calculate_docking_box]),
      - [virtual_screening/docking.py]    ([run_docking]),
      - [virtual_screening/pipeline.py]   (the ligand-preparation loop of
        [run_pipeline]),
      - [virtual_screening/converters/smiles_to_mol2.py] and
      - the other converters ([clean_pdbqt.py], [normalize_format.py],
        [mol2_to_pdbqt.py], [pdb_to_pdbqt.py])
    together with the properties the specification states about them and
    further properties of the code.

    Conventions.
      - A Python [str] is a [string]; a character stands for the code point
        of the same number (code points below 256).
      - A Python [float] is an IEEE 754 binary64 number: Rocq's primitive
        [float], whose operations are specified by [SpecFloat].
      - A text file is the list of lines its iterator yields.
      - External programs (the docking engine, Open Babel) are oracles from
        the command that is run to what the process does.
      - Calls to [logging] and [print] are left out; creating directories
        and writing files are taken to succeed. *)

From Stdlib Require Import ZArith List String Ascii Bool Lia Floats Permutation.
From Stdlib Require Import DecimalString.
From stdpp Require Import gmap strings.
Import ListNotations.

Local Open Scope string_scope.
Local Open Scope Z_scope.

(* ===================================================================== *)
(** * Python text primitives *)
(* ===================================================================== *)

Module Text.

(** [str.isspace] on one character, for code points below 256:
    TAB..CR, FS..US, SPACE, NEL and NO-BREAK SPACE. *)
Definition is_space (c : ascii) : bool :=
  let n := N_of_ascii c in
  ((9 <=? n) && (n <=? 13) || (28 <=? n) && (n <=? 32)
   || (n =? 133) || (n =? 160))%N.

(** [s.split()]: the maximal runs of non-space characters, in order.
    [tok] is the token being read. *)
Fixpoint split_from (tok s : string) : list string :=
  match s with
  | EmptyString =>
      match tok with EmptyString => [] | _ => [tok] end
  | String c s' =>
      if is_space c then
        match tok with
        | EmptyString => split_from EmptyString s'
        | _ => tok :: split_from EmptyString s'
        end
      else split_from (tok +:+ String c EmptyString) s'
  end.

Definition split (s : string) : list string := split_from EmptyString s.

(** [s.startswith(p)] *)
Definition startswith (s p : string) : bool := String.prefix p s.

(** [s.endswith(p)] *)
Definition endswith (s p : string) : bool :=
  let n := String.length s in
  let k := String.length p in
  (k <=? n)%nat && String.eqb (substring (n - k) k s) p.

(** [str.lower] on one character: A..Z and the capital letters of the
    Latin-1 block move 32 places up. *)
Definition lower_char (c : ascii) : ascii :=
  let n := N_of_ascii c in
  if ((65 <=? n) && (n <=? 90)
      || (192 <=? n) && (n <=? 222) && negb (n =? 215))%N
  then ascii_of_N (n + 32) else c.

Fixpoint lower (s : string) : string :=
  match s with
  | EmptyString => EmptyString
  | String c s' => String (lower_char c) (lower s')
  end.

(** [s.replace(a, b)] for one-character [a] and [b]. *)
Fixpoint replace_char (a b : ascii) (s : string) : string :=
  match s with
  | EmptyString => EmptyString
  | String c s' =>
      String (if Ascii.eqb c a then b else c) (replace_char a b s')
  end.

(** [s.lstrip()], [s.rstrip()] and [s.strip()] *)
Fixpoint lstrip (s : string) : string :=
  match s with
  | String c s' => if is_space c then lstrip s' else s
  | EmptyString => EmptyString
  end.

Fixpoint rstrip (s : string) : string :=
  match s with
  | EmptyString => EmptyString
  | String c s' =>
      match rstrip s' with
      | EmptyString => if is_space c then EmptyString else String c EmptyString
      | t => String c t
      end
  end.

Definition strip (s : string) : string := rstrip (lstrip s).

(** The characters LF, CR and TAB, and the one-character strings Python
    writes as "\n" and "\t". *)
Definition LF : ascii := "010"%char.
Definition CR : ascii := "013"%char.
Definition TAB : ascii := "009"%char.
Definition newline : string := String LF EmptyString.
Definition tab : string := String TAB EmptyString.

(** The lines a text-mode file iterator yields for the text [s]
    (universal newlines: LF, CR and CR LF all end a line and are read as
    LF; the terminator stays on the line).  [cur] is the line being read. *)
Fixpoint lines_from (cur s : string) : list string :=
  match s with
  | EmptyString =>
      match cur with EmptyString => [] | _ => [cur] end
  | String c s' =>
      if Ascii.eqb c LF then (cur +:+ newline) :: lines_from EmptyString s'
      else if Ascii.eqb c CR then
        match s' with
        | String c' s'' =>
            if Ascii.eqb c' LF
            then (cur +:+ newline) :: lines_from EmptyString s''
            else (cur +:+ newline) :: lines_from EmptyString s'
        | EmptyString => [cur +:+ newline]
        end
      else lines_from (cur +:+ String c EmptyString) s'
  end.

Definition file_lines (s : string) : list string := lines_from EmptyString s.

(** [str(n)] for an [int]: its decimal numeral. *)
Definition str_int (n : Z) : string := NilZero.string_of_int (Z.to_int n).

(** [os.path.join(a, b)] on a POSIX system. *)
Definition posix_join (a b : string) : string :=
  if startswith b "/" then b
  else if String.eqb a EmptyString || endswith a "/" then a +:+ b
  else a +:+ "/" +:+ b.

End Text.

(* ===================================================================== *)
(** * Python's [float]: binary64 numbers and [float(token)] *)
(* ===================================================================== *)

Module PyFloat.
Import Text.

Definition digit_of (c : ascii) : option Z :=
  let n := N_of_ascii c in
  if ((48 <=? n) && (n <=? 57))%N then Some (Z.of_N n - 48) else None.

(** [digitpart ::= digit (["_"] digit)*].  The value read so far is [v],
    from [k] digits; the result carries what is left of the text. *)
Fixpoint digitpart_from (v k : Z) (s : string) : Z * Z * string :=
  match s with
  | EmptyString => (v, k, s)
  | String c s' =>
      match digit_of c with
      | Some d => digitpart_from (10 * v + d) (k + 1) s'
      | None =>
          if Ascii.eqb c "_" then
            match s' with
            | String c' s'' =>
                match digit_of c' with
                | Some d => digitpart_from (10 * v + d) (k + 1) s''
                | None => (v, k, s)
                end
            | EmptyString => (v, k, s)
            end
          else (v, k, s)
      end
  end.

Definition digitpart (s : string) : option (Z * Z * string) :=
  match s with
  | String c s' =>
      match digit_of c with
      | Some d => Some (digitpart_from d 1 s')
      | None => None
      end
  | EmptyString => None
  end.

(** An optional sign: [true] for "-". *)
Definition sign_of (s : string) : bool * string :=
  match s with
  | String c s' =>
      if Ascii.eqb c "-" then (true, s')
      else if Ascii.eqb c "+" then (false, s')
      else (false, s)
  | EmptyString => (false, s)
  end.

(** [exponent ::= ("e" | "E") [sign] digitpart], or nothing; in both cases
    up to the end of the text. *)
Definition exponent (s : string) : option Z :=
  match s with
  | EmptyString => Some 0
  | String c s' =>
      if Ascii.eqb c "e" || Ascii.eqb c "E" then
        let (neg, t) := sign_of s' in
        match digitpart t with
        | Some (v, _, EmptyString) => Some (if neg then - v else v)
        | _ => None
        end
      else None
  end.

(** [floatnumber]: the decimal [m * 10^e] the text denotes, where
    [number ::= digitpart ["." [digitpart]] | "." digitpart]. *)
Definition floatnumber (s : string) : option (Z * Z) :=
  match digitpart s with
  | Some (vi, _, rest) =>
      match rest with
      | String c rest' =>
          if Ascii.eqb c "." then
            match digitpart rest' with
            | Some (vf, kf, rest'') =>
                match exponent rest'' with
                | Some e => Some (vi * 10 ^ kf + vf, e - kf)
                | None => None
                end
            | None =>
                match exponent rest' with
                | Some e => Some (vi, e)
                | None => None
                end
            end
          else
            match exponent rest with
            | Some e => Some (vi, e)
            | None => None
            end
      | EmptyString => Some (vi, 0)
      end
  | None =>
      match s with
      | String c rest' =>
          if Ascii.eqb c "." then
            match digitpart rest' with
            | Some (vf, kf, rest'') =>
                match exponent rest'' with
                | Some e => Some (vf, e - kf)
                | None => None
                end
            | None => None
            end
          else None
      | EmptyString => None
      end
  end.

(** The binary64 number nearest to [(-1)^neg * m * 10^e] (ties to even,
    overflow to an infinity), for [0 <= m]. *)
Definition of_decimal (neg : bool) (m e : Z) : float :=
  match m with
  | Zpos p =>
      SF2Prim
        (if 0 <=? e
         then binary_normalize prec emax
                ((if neg then Zneg p else Zpos p) * 10 ^ e) 0 false
         else SF64div (S754_finite neg p 0)
                      (S754_finite false (Z.to_pos (10 ^ (- e))) 0))
  | _ => if neg then (-0)%float else 0%float
  end.

(** [float(s)] for a text [s]; [None] stands for [ValueError]. *)
Definition float_of_string (s : string) : option float :=
  let (neg, t) := sign_of (strip s) in
  let w := lower t in
  if String.eqb w "inf" || String.eqb w "infinity"
  then Some (if neg then neg_infinity else infinity)
  else if String.eqb w "nan" then Some nan
  else
    match floatnumber t with
    | Some (m, e) => Some (of_decimal neg m e)
    | None => None
    end.

(** Python's [x == y] on floats, extended to relate NaN with NaN: the two
    floats are the same number. *)
Definition same_number (x y : float) : Prop :=
  (x =? y)%float = true \/ (is_nan x = true /\ is_nan y = true).

End PyFloat.

(* ===================================================================== *)
(** * Exceptions *)
(* ===================================================================== *)

(** The exceptions the modelled code raises, and the outcome of a call that
    may raise. *)
Inductive exn : Type :=
| ValueError (msg : string)
| CalledProcessError (cmd : string) (returncode : Z).

Inductive outcome (A : Type) : Type :=
| Return (a : A)
| Raise (e : exn).
Arguments Return {A} a.
Arguments Raise {A} e.

(* ===================================================================== *)
(** * dock_box.py *)
(* ===================================================================== *)

Module DockBox.
Import Text PyFloat.

(** The six running extrema of [calculate_docking_box]. *)
Record bounds : Type := Bounds {
  min_x : float; min_y : float; min_z : float;
  max_x : float; max_y : float; max_z : float
}.

(** The dictionary [calculate_docking_box] returns. *)
Record box : Type := Box {
  center_x : float; center_y : float; center_z : float;
  size_x : float; size_y : float; size_z : float
}.

(** [min_x = min_y = min_z = float('inf')],
    [max_x = max_y = max_z = float('-inf')] *)
Definition initial_bounds : bounds :=
  Bounds infinity infinity infinity neg_infinity neg_infinity neg_infinity.

(** [line.startswith("ATOM") or line.startswith("HETATM")] *)
Definition is_atom_line (line : string) : bool :=
  startswith line "ATOM" || startswith line "HETATM".

(** [float(fields[i])]: [None] when the index is out of range
    ([IndexError]) or the token is not a number ([ValueError]). *)
Definition float_field (fields : list string) (i : nat) : option float :=
  match nth_error fields i with
  | Some t => float_of_string t
  | None => None
  end.

(** The [try] block: [x], [y], [z] from fields 6, 7 and 8 of the split
    line; [None] when the [except] branch is taken. *)
Definition parse_coordinates (line : string) : option (float * float * float) :=
  let fields := split line in
  match float_field fields 6 with
  | Some x =>
      match float_field fields 7 with
      | Some y =>
          match float_field fields 8 with
          | Some z => Some (x, y, z)
          | None => None
          end
      | None => None
      end
  | None => None
  end.

(** The six comparisons that follow the [try] block. *)
Definition update (b : bounds) (p : float * float * float) : bounds :=
  let '(x, y, z) := p in
  {| min_x := if (x <? min_x b)%float then x else min_x b;
     max_x := if (max_x b <? x)%float then x else max_x b;
     min_y := if (y <? min_y b)%float then y else min_y b;
     max_y := if (max_y b <? y)%float then y else max_y b;
     min_z := if (z <? min_z b)%float then z else min_z b;
     max_z := if (max_z b <? z)%float then z else max_z b |}.

(** One iteration of [for line in f]. *)
Definition scan_line (b : bounds) (line : string) : bounds :=
  if is_atom_line line then
    match parse_coordinates line with
    | Some p => update b p
    | None => b
    end
  else b.

(** The whole loop over the lines of the file. *)
Definition scan (lines : list string) : bounds :=
  fold_left scan_line lines initial_bounds.

Definition no_valid_lines : exn :=
  ValueError "No valid ATOM or HETATM lines found in the file.".

(** What follows the loop: the sentinel test, the centre and the sizes. *)
Definition box_of_bounds (b : bounds) (padding : float) : outcome box :=
  if (min_x b =? infinity)%float then Raise no_valid_lines
  else
    Return
      {| center_x := ((min_x b + max_x b) / 2)%float;
         center_y := ((min_y b + max_y b) / 2)%float;
         center_z := ((min_z b + max_z b) / 2)%float;
         size_x := ((max_x b - min_x b) + padding)%float;
         size_y := ((max_y b - min_y b) + padding)%float;
         size_z := ((max_z b - min_z b) + padding)%float |}.

(** [calculate_docking_box(pdbqt_file, padding)], on the lines of the file
    that [pdbqt_file] names. *)
Definition calculate_docking_box (lines : list string) (padding : float)
  : outcome box :=
  box_of_bounds (scan lines) padding.

(** The coordinate triples the loop accepts, in file order. *)
Definition valid_triples (lines : list string) : list (float * float * float) :=
  flat_map
    (fun line =>
       if is_atom_line line then
         match parse_coordinates line with
         | Some p => [p]
         | None => []
         end
       else [])
    lines.

(** The coordinates of the accepted triples, axis by axis. *)
Definition xs (ts : list (float * float * float)) : list float :=
  map (fun t => fst (fst t)) ts.
Definition ys (ts : list (float * float * float)) : list float :=
  map (fun t => snd (fst t)) ts.
Definition zs (ts : list (float * float * float)) : list float :=
  map (fun t => snd t) ts.

(** [m] is the least, or the greatest, of the numbers [vs]. *)
Definition least (m : float) (vs : list float) : Prop :=
  In m vs /\ forall v, In v vs -> (m <=? v)%float = true.
Definition greatest (m : float) (vs : list float) : Prop :=
  In m vs /\ forall v, In v vs -> (v <=? m)%float = true.

(** All three coordinates are finite numbers (no infinity, no NaN). *)
Definition finite_triple (t : float * float * float) : Prop :=
  is_finite (fst (fst t)) = true /\ is_finite (snd (fst t)) = true
  /\ is_finite (snd t) = true.

(** Two states of the extrema agree as numbers. *)
Definition same_bounds (b b' : bounds) : Prop :=
  same_number (min_x b) (min_x b') /\ same_number (min_y b) (min_y b') /\
  same_number (min_z b) (min_z b') /\ same_number (max_x b) (max_x b') /\
  same_number (max_y b) (max_y b') /\ same_number (max_z b) (max_z b').

(** Two outcomes of [calculate_docking_box] agree as numbers: the same
    error, or boxes whose six fields are pairwise the same number. *)
Definition same_box (o o' : outcome box) : Prop :=
  match o, o' with
  | Return b, Return b' =>
      same_number (center_x b) (center_x b') /\
      same_number (center_y b) (center_y b') /\
      same_number (center_z b) (center_z b') /\
      same_number (size_x b) (size_x b') /\
      same_number (size_y b) (size_y b') /\
      same_number (size_z b) (size_z b')
  | Raise e, Raise e' => e = e'
  | _, _ => False
  end.

End DockBox.

(* ===================================================================== *)
(** * docking.py *)
(* ===================================================================== *)

Module Docking.
Import Text.

(** What [subprocess.run(vina_command, ..., check=False)] does: it returns
    a completed process, or raises (the executable cannot be started). *)
Inductive process : Type :=
| Completed (returncode : Z) (stdout stderr : string)
| RunError.

(** The parameters of [run_docking], by their Python names. *)
Record arguments : Type := MkArguments {
  receptor : string;
  center_x : float; center_y : float; center_z : float;
  size_x : float; size_y : float; size_z : float;
  num_modes : Z;
  exhaustiveness : Z;
  spacing : float;
  ligand_folder : string;
  out_folder : string;
  log_file : string;
  vina_exe : string
}.

(** One entry of the returned list:
    [{"ligand": ligand_file, "binding_energy": binding_energy}]. *)
Record docking_result : Type := DockingResult {
  ligand : string;
  binding_energy : string
}.

(** What a run has done so far: the capture files written under
    [out_folder], the text written to [summary_log], the commands passed
    to [subprocess.run] and the list [docking_results].  The summary file
    is kept apart from the capture files: [log_file] is assumed not to
    name one of them. *)
Record world : Type := World {
  files : gmap string string;
  summary_log : string;
  commands : list (list string);
  docking_results : list docking_result
}.

(** [os.path.splitext(name)[0]] for a file name without directory part:
    the name up to its last dot, unless only dots come before that dot. *)
Fixpoint last_dot (s : string) : option nat :=
  match s with
  | EmptyString => None
  | String c s' =>
      match last_dot s' with
      | Some i => Some (S i)
      | None => if Ascii.eqb c "." then Some 0%nat else None
      end
  end.

Fixpoint only_dots (s : string) : bool :=
  match s with
  | EmptyString => true
  | String c s' => Ascii.eqb c "." && only_dots s'
  end.

Definition splitext_root (name : string) : string :=
  match last_dot name with
  | Some d =>
      if only_dots (substring 0 d name) then name else substring 0 d name
  | None => name
  end.

Definition result_marker : string := "REMARK VINA RESULT:".

(** The loop over the lines of the capture file: the fourth field of the
    first line that starts with the marker; the loop stops at that line
    whether it has four fields or not. *)
Fixpoint extract_binding_energy (lines : list string) : option string :=
  match lines with
  | [] => None
  | line :: rest =>
      if startswith line result_marker then
        let parts := split line in
        if (4 <=? List.length parts)%nat then nth_error parts 3 else None
      else extract_binding_energy rest
  end.

Definition summary_header : string :=
  "Ligand" +:+ tab +:+ "Binding Energy (kcal/mol)" +:+ newline.

(** [f"{ligand_file}\t{binding_energy}\n"] *)
Definition summary_row (r : docking_result) : string :=
  ligand r +:+ tab +:+ binding_energy r +:+ newline.

(** The rows of a list of results, one after the other. *)
Definition summary_rows (rs : list docking_result) : string :=
  fold_right (fun r s => summary_row r +:+ s) EmptyString rs.

(** [ligand_file.lower().endswith(".pdbqt")] *)
Definition is_ligand_file (ligand_file : string) : bool :=
  endswith (lower ligand_file) ".pdbqt".

Section Environment.

(** Python's [str] on the [float] arguments, [os.path.join], and the
    docking engine as [subprocess.run] sees it. *)
Variable str_float : float -> string.
Variable path_join : string -> string -> string.
Variable vina : list string -> process.

Definition ligand_path (a : arguments) (ligand_file : string) : string :=
  path_join (ligand_folder a) ligand_file.

Definition output_file (a : arguments) (ligand_file : string) : string :=
  path_join (out_folder a)
            ("docking_" +:+ splitext_root ligand_file +:+ ".pdbqt").

Definition vina_log_file (a : arguments) (ligand_file : string) : string :=
  path_join (out_folder a)
            ("docking_" +:+ splitext_root ligand_file +:+ ".log").

Definition vina_command (a : arguments) (ligand_file : string) : list string :=
  [ vina_exe a;
    "--receptor"; receptor a;
    "--ligand"; ligand_path a ligand_file;
    "--out"; output_file a ligand_file;
    "--center_x"; str_float (center_x a);
    "--center_y"; str_float (center_y a);
    "--center_z"; str_float (center_z a);
    "--size_x"; str_float (size_x a);
    "--size_y"; str_float (size_y a);
    "--size_z"; str_float (size_z a);
    "--num_modes"; str_int (num_modes a);
    "--exhaustiveness"; str_int (exhaustiveness a);
    "--spacing"; str_float (spacing a) ].

(** Lines 96-110: the score read back from the capture file, if the file
    exists and is not empty. *)
Definition read_binding_energy (fs : gmap string string) (path : string)
  : option string :=
  match fs !! path with
  | Some content =>
      if (0 <? String.length content)%nat
      then extract_binding_energy (file_lines content)
      else None
  | None => None
  end.

(** The body of [for ligand_file in os.listdir(ligand_folder)]: the command
    is run; on an exception or a non-zero return code the loop goes on to
    the next entry; otherwise the output is written to the capture file,
    read back, and the score, if one is found, is written to the summary
    and appended to the results. *)
Definition dock_ligand (a : arguments) (w : world) (ligand_file : string)
  : world :=
  if is_ligand_file ligand_file then
    let w1 := World (files w) (summary_log w)
                    (commands w ++ [vina_command a ligand_file])
                    (docking_results w) in
    match vina (vina_command a ligand_file) with
    | RunError => w1
    | Completed returncode stdout _ =>
        if negb (returncode =? 0) then w1
        else
          let fs := <[vina_log_file a ligand_file := stdout]> (files w1) in
          match read_binding_energy fs (vina_log_file a ligand_file) with
          | Some energy =>
              let r := DockingResult ligand_file energy in
              World fs (summary_log w1 +:+ summary_row r) (commands w1)
                    (docking_results w1 ++ [r])
          | None =>
              World fs (summary_log w1) (commands w1) (docking_results w1)
          end
    end
  else w.

(** [run_docking]: [listing] is what [os.listdir(ligand_folder)] returns
    and [fs] the files found under [out_folder].  The value Python
    returns is the [docking_results] of the final state. *)
Definition run_docking (a : arguments) (listing : list string)
           (fs : gmap string string) : world :=
  fold_left (dock_ligand a) listing (World fs summary_header [] []).

(** What the engine run for one ligand file yields: the score that is
    recorded for it, if any. *)
Definition ligand_score (a : arguments) (ligand_file : string)
  : option string :=
  match vina (vina_command a ligand_file) with
  | Completed returncode stdout _ =>
      if returncode =? 0 then extract_binding_energy (file_lines stdout)
      else None
  | RunError => None
  end.

End Environment.

End Docking.

(* ===================================================================== *)
(** * smiles_to_mol2.py and the ligand preparation of pipeline.py *)
(* ===================================================================== *)

Module Pipeline.
Import Text.

(** [re.sub(r'\..*$', '', smiles)].  A dot starts a match when the rest of
    its line is the end of the text ([last_line]): nothing but characters
    other than LF, and then the end or one final LF.  What is kept after
    the match is that final LF, if there is one ([line_end]). *)
Fixpoint last_line (s : string) : bool :=
  match s with
  | EmptyString => true
  | String c s' =>
      if Ascii.eqb c LF then
        match s' with EmptyString => true | _ => false end
      else last_line s'
  end.

Fixpoint line_end (s : string) : string :=
  match s with
  | EmptyString => EmptyString
  | String c s' => if Ascii.eqb c LF then s else line_end s'
  end.

Fixpoint clean_smiles (smiles : string) : string :=
  match smiles with
  | EmptyString => EmptyString
  | String c s' =>
      if Ascii.eqb c "." && last_line s' then line_end s'
      else String c (clean_smiles s')
  end.

(** The double quote of the shell command. *)
Definition dquote : string := String "034"%char EmptyString.

(** [str(name).strip().replace('/', '_').replace('\\', '_').replace(':', '_')] *)
Definition sanitized_name (name : string) : string :=
  replace_char ":" "_" (replace_char "\" "_" (replace_char "/" "_" (strip name))).

Section Environment.

(** [os.path.join], and the exit status of a command run by the shell
    ([subprocess.run(command, shell=True, check=True, ...)]). *)
Variable path_join : string -> string -> string.
Variable shell : string -> Z.

Definition output_filename (name output_dir : string) : string :=
  path_join output_dir (sanitized_name name +:+ ".mol2").

(** [f'{obabel_cmd} -:"{cleaned_smiles}" --gen3D -O "{output_filename}"'] *)
Definition obabel_command (smiles name output_dir obabel_cmd : string) : string :=
  obabel_cmd +:+ " -:" +:+ dquote +:+ clean_smiles smiles +:+ dquote
    +:+ " --gen3D -O " +:+ dquote +:+ output_filename name output_dir +:+ dquote.

(** [convert_smiles_to_mol2]: the path of the file written, or the
    [CalledProcessError] that [check=True] raises on a non-zero exit
    status and the [except] branch raises again. *)
Definition convert_smiles_to_mol2
           (smiles name output_dir obabel_cmd : string) : outcome string :=
  let command := obabel_command smiles name output_dir obabel_cmd in
  if shell command =? 0 then Return (output_filename name output_dir)
  else Raise (CalledProcessError command (shell command)).

(** Step 2 of [run_pipeline], lines 27-32: the loop over the rows
    [(name, smiles)] of the table.  Nothing catches what
    [convert_smiles_to_mol2] raises, so the first failure ends the loop.
    The result carries the shell commands run, oldest first. *)
Fixpoint prepare_ligands (rows : list (string * string)) (mol2_dir : string)
  : list string * outcome unit :=
  match rows with
  | [] => ([], Return tt)
  | (name, smile) :: rest =>
      let cleaned_smile := clean_smiles smile in
      let command := obabel_command cleaned_smile name mol2_dir "obabel" in
      match convert_smiles_to_mol2 cleaned_smile name mol2_dir "obabel" with
      | Return _ =>
          let (ran, res) := prepare_ligands rest mol2_dir in
          (command :: ran, res)
      | Raise e => ([command], Raise e)
      end
  end.

(** [run_pipeline] from the loaded table on: step 2, then steps 3 to 6
    ([later_stages], run only when step 2 has returned). *)
Definition run_pipeline (rows : list (string * string)) (output_dir : string)
           (later_stages : outcome unit) : list string * outcome unit :=
  let mol2_dir := path_join output_dir "mol2_files" in
  match prepare_ligands rows mol2_dir with
  | (ran, Return _) => (ran, later_stages)
  | (ran, Raise e) => (ran, Raise e)
  end.

(** ** convert_from_excel *)

Section Sheet.

(** The sheet as pandas hands it over: [row] is what [df.iterrows()]
    yields and [cell] what a row holds.  [getitem r k] is [r[k]], with
    [None] when the access raises (a [KeyError] or an [IndexError]:
    whether an integer key is read as a position or looked up among the
    column labels is up to the pandas installed); [str_cell] is Python's
    [str], [isna] is [pd.isna] and [truth] the truth value of a cell, as
    [not name] reads it. *)
Variables row cell : Type.
Variable getitem : row -> Z -> option cell.
Variable str_cell : cell -> string.
Variable isna : cell -> bool.
Variable truth : cell -> bool.

(** The test of line 77 on the stripped text [smiles] and the cell [name].
    [pd.isna(smiles)] is false of every text and is left out: a cell that
    is missing has the text "nan" by then. *)
Definition skipped_row (smiles : string) (name : cell) : bool :=
  isna name || String.eqb smiles EmptyString || negb (truth name).

(** The loop of lines 71-87, from the state [(ran, mol2_files)]: the
    commands run so far and the paths collected.  The two accesses to the
    row are outside the [try] block, so what they raise leaves the
    function ([None]); a conversion that raises is logged and passed
    over. *)
Fixpoint convert_rows (rows : list row)
         (smiles_column_index name_column_index : Z)
         (output_dir obabel_cmd : string)
         (ran mol2_files : list string) : list string * option (list string) :=
  match rows with
  | [] => (ran, Some mol2_files)
  | r :: rest =>
      match getitem r smiles_column_index with
      | None => (ran, None)
      | Some smiles_cell =>
          let smiles := strip (str_cell smiles_cell) in
          match getitem r name_column_index with
          | None => (ran, None)
          | Some name =>
              if skipped_row smiles name then
                convert_rows rest smiles_column_index name_column_index
                             output_dir obabel_cmd ran mol2_files
              else
                let command :=
                  obabel_command smiles (str_cell name) output_dir obabel_cmd in
                match convert_smiles_to_mol2 smiles (str_cell name)
                                             output_dir obabel_cmd with
                | Return output_file =>
                    convert_rows rest smiles_column_index name_column_index
                                 output_dir obabel_cmd
                                 (ran ++ [command])%list
                                 (mol2_files ++ [output_file])%list
                | Raise _ =>
                    convert_rows rest smiles_column_index name_column_index
                                 output_dir obabel_cmd
                                 (ran ++ [command])%list mol2_files
                end
          end
      end
  end.

(** [convert_from_excel] on the rows of the sheet read: the commands run,
    oldest first, and the list [mol2_files] returned, if the function
    returns. *)
Definition convert_from_excel (rows : list row)
           (smiles_column_index name_column_index : Z)
           (output_dir obabel_cmd : string)
  : list string * option (list string) :=
  convert_rows rows smiles_column_index name_column_index
               output_dir obabel_cmd [] [].

End Sheet.

End Environment.

End Pipeline.


(* ===================================================================== *)
(** * converters/clean_pdbqt.py *)
(* ===================================================================== *)

Module CleanPdbqt.
Import Text.

(** The slices [s[:n]] and [s[n:]] of a text, for [n >= 0]. *)
Definition slice_to (n : nat) (s : string) : string := substring 0 n s.

Fixpoint slice_from (n : nat) (s : string) : string :=
  match n, s with
  | O, _ => s
  | S n', String _ s' => slice_from n' s'
  | S _, EmptyString => EmptyString
  end.

(** [s[a:b]] for [0 <= a <= b] *)
Definition slice (a b : nat) (s : string) : string := substring a (b - a) s.

(** [n] spaces. *)
Fixpoint spaces (n : nat) : string :=
  match n with
  | O => EmptyString
  | S n' => String " " (spaces n')
  end.

(** [f"{s:>3}"] for a general width: [s] moved to the right of a field of
    [width] characters; a longer text is left as it is. *)
Definition rjust (width : nat) (s : string) : string :=
  spaces (width - String.length s) +:+ s.

(** The body of [for line in infile]: the line that is appended to
    [new_lines]. *)
Definition rename_line (old_res new_res line : string) : string :=
  if startswith line "ATOM" || startswith line "HETATM" then
    let residue := slice 17 20 line in
    if String.eqb (strip residue) old_res
    then slice_to 17 line +:+ rjust 3 new_res +:+ slice_from 20 line
    else line
  else line.

(** [rename_ligand_residue], on the lines of the input file: the lines
    [writelines] writes to the output file. *)
Definition rename_ligand_residue (lines : list string) (old_res new_res : string)
  : list string :=
  map (rename_line old_res new_res) lines.

End CleanPdbqt.

(* ===================================================================== *)
(** * converters/normalize_format.py *)
(* ===================================================================== *)

Module NormalizeFormat.
Import Text.

(** The characters the regular expression [[^\x20-\x7E\r\n]] keeps: space
    to tilde, CR and LF. *)
Definition kept (c : ascii) : bool :=
  let n := N_of_ascii c in
  ((32 <=? n) && (n <=? 126) || (n =? 13) || (n =? 10))%N.

(** [re.sub(r'[^\x20-\x7E\r\n]', '', text)].  A code point of the decoded
    text that is above 255 is removed by the substitution like the ones
    below 32 or above 126 that are modelled here. *)
Fixpoint remove_unprintable (text : string) : string :=
  match text with
  | EmptyString => EmptyString
  | String c s => if kept c then String c (remove_unprintable s)
                  else remove_unprintable s
  end.

(** The line boundaries of [str.splitlines] among the code points below
    256: LF, VT, FF, CR, FS, GS, RS and NEL (CR LF counts once). *)
Definition line_boundary (c : ascii) : bool :=
  let n := N_of_ascii c in
  ((10 <=? n) && (n <=? 13) || (28 <=? n) && (n <=? 30) || (n =? 133))%N.

(** [text.splitlines()]: the lines without their terminators; a
    terminator at the very end opens no further line. *)
Fixpoint splitlines (text : string) : list string :=
  match text with
  | EmptyString => []
  | String c s =>
      if line_boundary c then
        EmptyString ::
        match s with
        | String c' s' =>
            if Ascii.eqb c CR && Ascii.eqb c' LF then splitlines s'
            else splitlines s
        | EmptyString => []
        end
      else
        match splitlines s with
        | [] => [String c EmptyString]
        | line :: rest => String c line :: rest
        end
  end.

(** The body of [for line in text.splitlines()]: the line that is appended
    to [cleaned_lines]. *)
Definition clean_line (line : string) : string :=
  rstrip
    (if startswith (lstrip line) "MODEL" || startswith (lstrip line) "ENDMDL"
     then lstrip line else line).

Definition crlf : string := String CR (String LF EmptyString).

(** Lines 31-43 of [normalize_pdbqt_format], from the decoded [text] to
    [new_text], the text that is written back. *)
Definition normalize_text (text : string) : string :=
  String.concat crlf (map clean_line (splitlines (remove_unprintable text)))
  +:+ crlf.

End NormalizeFormat.

(* ===================================================================== *)
(** * converters/mol2_to_pdbqt.py *)
(* ===================================================================== *)

Module Mol2ToPdbqt.
Import Text.

(** What [subprocess.run(command, check=True, capture_output=True)] does:
    the process exits with a status (a non-zero one raises
    [CalledProcessError]), or the call raises another exception (the
    program cannot be started). *)
Inductive run_result : Type :=
| Exited (status : Z)
| LaunchError.

(** [mol2_file.lower().endswith(".mol2")] *)
Definition is_mol2_file (mol2_file : string) : bool :=
  endswith (lower mol2_file) ".mol2".

Section Environment.

(** [os.path.join] and the external program as [subprocess.run] sees it. *)
Variable path_join : string -> string -> string.
Variable run : list string -> run_result.

Definition mol2_path (input_folder mol2_file : string) : string :=
  path_join input_folder mol2_file.

Definition pdbqt_path (output_folder mol2_file : string) : string :=
  path_join output_folder (Docking.splitext_root mol2_file +:+ ".pdbqt").

Definition command (prepare_ligand_cmd : list string)
           (input_folder output_folder mol2_file : string) : list string :=
  (prepare_ligand_cmd ++
   [ mol2_path input_folder mol2_file;
     "-opdbqt";
     "-O"; pdbqt_path output_folder mol2_file;
     "--partialcharge gasteiger";
     "--addHs" ])%list.

(** The loop over [os.listdir(input_folder)], from the state
    [(ran, pdbqt_files)]: the commands run so far and the paths collected.
    [CalledProcessError] is caught and the loop goes on; any other
    exception of [subprocess.run] leaves the function ([None]). *)
Fixpoint convert_from (listing : list string)
         (input_folder output_folder : string) (prepare_ligand_cmd : list string)
         (ran : list (list string)) (pdbqt_files : list string)
  : list (list string) * option (list string) :=
  match listing with
  | [] => (ran, Some pdbqt_files)
  | mol2_file :: rest =>
      if is_mol2_file mol2_file then
        let cmd := command prepare_ligand_cmd input_folder output_folder mol2_file in
        match run cmd with
        | Exited status =>
            if status =? 0
            then convert_from rest input_folder output_folder prepare_ligand_cmd
                              (ran ++ [cmd])%list
                              (pdbqt_files ++ [pdbqt_path output_folder mol2_file])%list
            else convert_from rest input_folder output_folder prepare_ligand_cmd
                              (ran ++ [cmd])%list pdbqt_files
        | LaunchError => ((ran ++ [cmd])%list, None)
        end
      else convert_from rest input_folder output_folder prepare_ligand_cmd
                        ran pdbqt_files
  end.

(** [convert_mol2_to_pdbqt]: [listing] is what [os.listdir(input_folder)]
    returns.  The result carries the commands run, oldest first. *)
Definition convert_mol2_to_pdbqt (listing : list string)
           (input_folder output_folder : string) (prepare_ligand_cmd : list string)
  : list (list string) * option (list string) :=
  convert_from listing input_folder output_folder prepare_ligand_cmd [] [].

End Environment.

End Mol2ToPdbqt.

(* ===================================================================== *)
(** * converters/pdb_to_pdbqt.py *)
(* ===================================================================== *)

Module PdbToPdbqt.
Import Text.

(** The [CalledProcessError] of a command given as a list. *)
Inductive called_process_error : Type :=
| CalledProcessErrorOf (cmd : list string) (returncode : Z).

Section Environment.

(** [os.path.join], [os.path.basename], and the exit status of a command
    run by [subprocess.run(..., check=True, ...)]. *)
Variable path_join : string -> string -> string.
Variable basename : string -> string.
Variable run : list string -> Z.

Definition base_name (pdb_file : string) : string :=
  Docking.splitext_root (basename pdb_file).

Definition charged_pdb (pdb_file output_folder : string) : string :=
  path_join output_folder (base_name pdb_file +:+ "_charged.pdb").

Definition pdbqt_file (pdb_file output_folder : string) : string :=
  path_join output_folder (base_name pdb_file +:+ ".pdbqt").

(** [comm]: the first command; [str(pH)] is "7.4". *)
Definition comm (pdb_file output_folder obabel_exe : string) : list string :=
  [ obabel_exe; pdb_file; "-O"; charged_pdb pdb_file output_folder;
    "-xr"; "-p"; "7.4" ].

(** [command]: the second command.  [extra_args] is the list passed, or the
    empty list for [None]; lines 52-56 extend the command by it twice. *)
Definition command (pdb_file output_folder obabel_exe : string)
           (extra_args : list string) : list string :=
  let command0 :=
    [ obabel_exe; charged_pdb pdb_file output_folder; "-O";
      pdbqt_file pdb_file output_folder; "-xr"; "--partialcharge"; "gasteiger" ] in
  match extra_args with
  | [] => command0
  | _ => ((command0 ++ extra_args) ++ extra_args)%list
  end.

(** [convert_pdb_to_pdbqt]: the commands run, and the path returned or the
    error raised. *)
Definition convert_pdb_to_pdbqt (pdb_file output_folder obabel_exe : string)
           (extra_args : list string)
  : list (list string) * (called_process_error + string) :=
  let c1 := comm pdb_file output_folder obabel_exe in
  if negb (run c1 =? 0) then ([c1], inl (CalledProcessErrorOf c1 (run c1)))
  else
    let c2 := command pdb_file output_folder obabel_exe extra_args in
    if negb (run c2 =? 0)
    then ([c1; c2], inl (CalledProcessErrorOf c2 (run c2)))
    else ([c1; c2], inr (pdbqt_file pdb_file output_folder)).

End Environment.

End PdbToPdbqt.

(* ===================================================================== *)
(** * The text primitives on examples *)
(* ===================================================================== *)

Module TextExamples.
Import Text PyFloat.
Local Open Scope list_scope.

Example split_atom_line :
  split ("ATOM      1  C   LIG A   1      14.982   8.851  32.647  0.00  0.00    +0.034 C" +:+ newline)
  = ["ATOM"; "1"; "C"; "LIG"; "A"; "1"; "14.982"; "8.851"; "32.647";
     "0.00"; "0.00"; "+0.034"; "C"].
Proof. reflexivity. Qed.

Example file_lines_universal_newlines :
  file_lines ("a" +:+ String CR (String LF "b") +:+ String CR "c" +:+ newline +:+ "d")
  = ["a" +:+ newline; "b" +:+ newline; "c" +:+ newline; "d"].
Proof. reflexivity. Qed.

(** [float] on tokens, bit for bit: 0.1 is 0x1.999999999999ap-4, the
    smallest subnormal is 2^-1074, halfway cases go to the even mantissa,
    and 1e999 overflows to infinity. *)
Example float_of_string_numbers :
  map (fun t => option_map Prim2SF (float_of_string t))
      ["0.1"; "14.982"; "-7.2"; "5e-324"; "9007199254740993"; "1_0.5e1";
       "1e999"; "-1e-400"; "-Infinity"; "NaN"]
  = [ Some (S754_finite false 7205759403792794 (-56));
      Some (S754_finite false 8434116202158096 (-49));
      Some (S754_finite true 8106479329266893 (-50));
      Some (S754_finite false 1 (-1074));
      Some (S754_finite false 4503599627370496 1);
      Some (S754_finite false 7388718138654720 (-46));
      Some (S754_infinity false);
      Some (S754_zero true);
      Some (S754_infinity true);
      Some S754_nan ].
Proof. vm_compute. reflexivity. Qed.

Example float_of_string_rejects :
  map float_of_string
      [EmptyString; "."; "1__0"; "_1"; "1_"; "e5"; "1e"; "0x10"; "1.5.2";
       "3.5x0"; "--1"; "infinit"; "1 2"]
  = repeat None 13.
Proof. vm_compute. reflexivity. Qed.

End TextExamples.

(* ===================================================================== *)
(** * Facts about binary64 numbers *)
(* ===================================================================== *)

(** The order of floats and the arithmetic the box needs, read off the
    specification of the primitive operations ([SpecFloat]). *)
Module FloatOrder.

Import PyFloat.

Definition sf_is_zero (a : spec_float) : bool :=
  match a with S754_zero _ => true | _ => false end.

Definition sf_same (a b : spec_float) : Prop :=
  a = b \/ (sf_is_zero a = true /\ sf_is_zero b = true).

Ltac sf_cases :=
  repeat match goal with
  | s : bool |- _ => destruct s
  | |- context [Z.compare ?a ?b] => destruct (Z.compare_spec a b)
  | H : context [Z.compare ?a ?b] |- _ => destruct (Z.compare_spec a b)
  | |- context [Pos.compare_cont Eq ?a ?b] =>
      change (Pos.compare_cont Eq a b) with (Pos.compare a b);
      destruct (Pos.compare_spec a b)
  | H : context [Pos.compare_cont Eq ?a ?b] |- _ =>
      change (Pos.compare_cont Eq a b) with (Pos.compare a b) in H;
      destruct (Pos.compare_spec a b)
  end; simpl in *; subst; try discriminate; try congruence; try lia.

Lemma SFltb_trans a b c :
  SFltb a b = true -> SFltb b c = true -> SFltb a c = true.
Proof.
  unfold SFltb, SFcompare.
  destruct a as [sa|sa| |sa ma ea], b as [sb|sb| |sb mb eb],
           c as [sc|sc| |sc mc ec]; simpl; sf_cases.
Qed.

Lemma SFltb_asym a b : SFltb a b = true -> SFltb b a = false.
Proof.
  unfold SFltb, SFcompare.
  destruct a as [sa|sa| |sa ma ea], b as [sb|sb| |sb mb eb]; simpl; sf_cases.
Qed.

Lemma SFcompare_Eq_same a b : SFcompare a b = Some Eq -> sf_same a b.
Proof.
  unfold SFcompare, sf_same.
  destruct a as [sa|sa| |sa ma ea], b as [sb|sb| |sb mb eb]; simpl; sf_cases; auto.
Qed.

Lemma SFltb_total a b :
  SFltb a b = false -> SFltb b a = false ->
  a <> S754_nan -> b <> S754_nan -> SFcompare a b = Some Eq.
Proof.
  unfold SFltb, SFcompare.
  destruct a as [sa|sa| |sa ma ea], b as [sb|sb| |sb mb eb]; simpl; sf_cases.
Qed.

Lemma SFltb_not_nan a b :
  SFltb a b = true -> a <> S754_nan /\ b <> S754_nan.
Proof.
  destruct a, b; simpl; try discriminate; split; discriminate.
Qed.

Lemma SFcompare_refl a : a <> S754_nan -> SFcompare a a = Some Eq.
Proof.
  destruct a as [sa|sa| |sa ma ea]; simpl; try congruence; intros _.
  - destruct sa; reflexivity.
  - rewrite Z.compare_refl.
    change (Pos.compare_cont Eq ma ma) with (Pos.compare ma ma).
    rewrite Pos.compare_refl. destruct sa; reflexivity.
Qed.

Lemma sf_same_compare_r a b x : sf_same a b -> SFcompare x a = SFcompare x b.
Proof.
  intros [-> | [Ha Hb]]; [reflexivity|].
  destruct a, b; try discriminate. destruct x; reflexivity.
Qed.

Lemma sf_same_compare_l a b x : sf_same a b -> SFcompare a x = SFcompare b x.
Proof.
  intros [-> | [Ha Hb]]; [reflexivity|].
  destruct a, b; try discriminate. destruct x; reflexivity.
Qed.

Lemma sf_same_refl a : sf_same a a.
Proof. now left. Qed.

Lemma sf_same_sym a b : sf_same a b -> sf_same b a.
Proof. intros [-> | [? ?]]; [now left | now right]. Qed.

Lemma sf_same_trans a b c : sf_same a b -> sf_same b c -> sf_same a c.
Proof.
  intros [-> | [Ha Hb]] [-> | [Hb' Hc]]; try (now left); try (now right).
Qed.

(** Arithmetic respects [sf_same]. *)
Lemma SFadd_same a a' b b' :
  sf_same a a' -> sf_same b b' ->
  sf_same (SF64add a b) (SF64add a' b').
Proof.
  intros [-> | [Ha Ha']] [-> | [Hb Hb']]; try (now left).
  - destruct b, b'; try discriminate.
    destruct a' as [sa|sa| |sa ma ea]; simpl; sf_cases; try (now left); try (now right).
  - destruct a, a'; try discriminate.
    destruct b' as [sa|sa| |sa ma ea]; simpl; sf_cases; try (now left); try (now right).
  - destruct a, a', b, b'; try discriminate. simpl; sf_cases; now right.
Qed.

Lemma SFsub_same a a' b b' :
  sf_same a a' -> sf_same b b' ->
  sf_same (SF64sub a b) (SF64sub a' b').
Proof.
  intros [-> | [Ha Ha']] [-> | [Hb Hb']]; try (now left).
  - destruct b, b'; try discriminate.
    destruct a' as [sa|sa| |sa ma ea]; simpl; sf_cases; try (now left); try (now right).
  - destruct a, a'; try discriminate.
    destruct b' as [sa|sa| |sa ma ea]; simpl; sf_cases; try (now left); try (now right).
  - destruct a, a', b, b'; try discriminate. simpl; sf_cases; now right.
Qed.

Lemma SFdiv_same_finite a a' s m e :
  sf_same a a' ->
  sf_same (SF64div a (S754_finite s m e)) (SF64div a' (S754_finite s m e)).
Proof.
  intros [-> | [Ha Ha']]; [now left|].
  destruct a, a'; try discriminate. now right.
Qed.

(** Transfer to primitive floats. *)
Lemma is_nan_spec x : is_nan x = true <-> Prim2SF x = S754_nan.
Proof.
  unfold is_nan. rewrite FloatAxioms.eqb_spec. unfold SFeqb. split.
  - intros H. destruct (Prim2SF x) eqn:E; try reflexivity;
      rewrite SFcompare_refl in H by discriminate; discriminate.
  - intros ->. reflexivity.
Qed.

Lemma same_number_spec x y :
  same_number x y <-> sf_same (Prim2SF x) (Prim2SF y).
Proof.
  unfold same_number. rewrite FloatAxioms.eqb_spec, !is_nan_spec. unfold SFeqb. split.
  - intros [H | [Hx Hy]].
    + destruct (SFcompare (Prim2SF x) (Prim2SF y)) as [[]|] eqn:E; try discriminate.
      now apply SFcompare_Eq_same.
    + left. congruence.
  - intros [H | [Hx Hy]].
    + rewrite H. destruct (Prim2SF y) eqn:E; try (right; now split);
        left; rewrite SFcompare_refl by discriminate; reflexivity.
    + left. destruct (Prim2SF x), (Prim2SF y); try discriminate. reflexivity.
Qed.

(** A float is a zero when it is [0] or [-0]; two floats are the same
    number exactly when they are identical or both zeros. *)
Lemma same_number_iff x y :
  same_number x y <->
  x = y \/ ((x =? 0)%float = true /\ (y =? 0)%float = true).
Proof.
  rewrite same_number_spec. unfold sf_same. rewrite !FloatAxioms.eqb_spec.
  change (Prim2SF 0) with (S754_zero false). unfold SFeqb. split.
  - intros [H | [Hx Hy]]; [left; now apply Prim2SF_inj|right].
    destruct (Prim2SF x), (Prim2SF y); try discriminate. split; reflexivity.
  - intros [-> | [Hx Hy]]; [now left|right].
    destruct (Prim2SF x) as [|[]| |[]], (Prim2SF y) as [|[]| |[]];
      simpl in *; try discriminate; split; reflexivity.
Qed.

Lemma same_number_refl x : same_number x x.
Proof. apply same_number_spec, sf_same_refl. Qed.

Lemma same_number_sym x y : same_number x y -> same_number y x.
Proof. rewrite !same_number_spec. apply sf_same_sym. Qed.

Lemma same_number_trans x y z :
  same_number x y -> same_number y z -> same_number x z.
Proof. rewrite !same_number_spec. apply sf_same_trans. Qed.

Lemma same_number_ltb_r m m' x :
  same_number m m' -> (x <? m)%float = (x <? m')%float.
Proof.
  rewrite same_number_spec, !FloatAxioms.ltb_spec. intros H. unfold SFltb.
  now rewrite (sf_same_compare_r _ _ _ H).
Qed.

Lemma same_number_ltb_l m m' x :
  same_number m m' -> (m <? x)%float = (m' <? x)%float.
Proof.
  rewrite same_number_spec, !FloatAxioms.ltb_spec. intros H. unfold SFltb.
  now rewrite (sf_same_compare_l _ _ _ H).
Qed.

Lemma same_number_eqb_l m m' x :
  same_number m m' -> (m =? x)%float = (m' =? x)%float.
Proof.
  rewrite same_number_spec, !FloatAxioms.eqb_spec. intros H. unfold SFeqb.
  now rewrite (sf_same_compare_l _ _ _ H).
Qed.

Lemma same_number_add a a' b b' :
  same_number a a' -> same_number b b' -> same_number (a + b) (a' + b').
Proof. rewrite !same_number_spec, !FloatAxioms.add_spec. apply SFadd_same. Qed.

Lemma same_number_sub a a' b b' :
  same_number a a' -> same_number b b' -> same_number (a - b) (a' - b').
Proof. rewrite !same_number_spec, !FloatAxioms.sub_spec. apply SFsub_same. Qed.

Lemma same_number_half a a' :
  same_number a a' -> same_number (a / 2) (a' / 2).
Proof.
  rewrite !same_number_spec, !FloatAxioms.div_spec.
  change (Prim2SF 2) with (S754_finite false 4503599627370496 (-51)).
  apply SFdiv_same_finite.
Qed.

Lemma ltb_trans x y z :
  (x <? y)%float = true -> (y <? z)%float = true -> (x <? z)%float = true.
Proof. rewrite !FloatAxioms.ltb_spec. apply SFltb_trans. Qed.

Lemma ltb_asym x y : (x <? y)%float = true -> (y <? x)%float = false.
Proof. rewrite !FloatAxioms.ltb_spec. apply SFltb_asym. Qed.

Lemma ltb_not_nan x y :
  (x <? y)%float = true -> is_nan x = false /\ is_nan y = false.
Proof.
  rewrite FloatAxioms.ltb_spec. intros H. apply SFltb_not_nan in H. destruct H as [Hx Hy].
  split; apply not_true_is_false; rewrite is_nan_spec; assumption.
Qed.

Lemma ltb_total x y :
  (x <? y)%float = false -> (y <? x)%float = false ->
  is_nan x = false -> is_nan y = false -> same_number x y.
Proof.
  rewrite !FloatAxioms.ltb_spec. intros H1 H2 Hx Hy.
  apply same_number_spec, SFcompare_Eq_same, SFltb_total; auto.
  - intros E. apply is_nan_spec in E. congruence.
  - intros E. apply is_nan_spec in E. congruence.
Qed.

Lemma SFleb_trans a b c :
  SFleb a b = true -> SFleb b c = true -> SFleb a c = true.
Proof.
  unfold SFleb, SFcompare.
  destruct a as [sa|sa| |sa ma ea], b as [sb|sb| |sb mb eb],
           c as [sc|sc| |sc mc ec]; simpl; sf_cases.
Qed.

Lemma SFltb_SFleb a b : SFltb a b = true -> SFleb a b = true.
Proof.
  unfold SFltb, SFleb. destruct (SFcompare a b) as [[]|]; congruence.
Qed.

Lemma SFleb_of_not_SFltb a b :
  SFltb a b = false -> a <> S754_nan -> b <> S754_nan -> SFleb b a = true.
Proof.
  unfold SFltb, SFleb, SFcompare.
  destruct a as [sa|sa| |sa ma ea], b as [sb|sb| |sb mb eb]; simpl; sf_cases.
Qed.

Lemma leb_trans x y z :
  (x <=? y)%float = true -> (y <=? z)%float = true -> (x <=? z)%float = true.
Proof. rewrite !FloatAxioms.leb_spec. apply SFleb_trans. Qed.

Lemma ltb_leb x y : (x <? y)%float = true -> (x <=? y)%float = true.
Proof. rewrite FloatAxioms.ltb_spec, FloatAxioms.leb_spec. apply SFltb_SFleb. Qed.

Lemma leb_of_not_ltb x y :
  (x <? y)%float = false -> is_nan x = false -> is_nan y = false ->
  (y <=? x)%float = true.
Proof.
  rewrite FloatAxioms.ltb_spec, FloatAxioms.leb_spec. intros H Hx Hy.
  apply SFleb_of_not_SFltb; auto.
  - intros E. apply is_nan_spec in E. congruence.
  - intros E. apply is_nan_spec in E. congruence.
Qed.

Lemma leb_refl x : is_nan x = false -> (x <=? x)%float = true.
Proof.
  intros Hx. rewrite FloatAxioms.leb_spec. unfold SFleb.
  rewrite SFcompare_refl; [reflexivity|].
  intros E. apply is_nan_spec in E. congruence.
Qed.

Lemma is_finite_not_nan x : is_finite x = true -> is_nan x = false.
Proof.
  unfold is_finite. destruct (is_nan x); [discriminate | reflexivity].
Qed.

Lemma infinity_not_leb_finite x :
  is_finite x = true -> (infinity <=? x)%float = false.
Proof.
  unfold is_finite, is_nan, is_infinity.
  rewrite FloatAxioms.leb_spec, !FloatAxioms.eqb_spec, FloatAxioms.abs_spec.
  change (Prim2SF infinity) with (S754_infinity false).
  destruct (Prim2SF x) as [s|[]| |s m e]; simpl; try discriminate; reflexivity.
Qed.

Lemma finite_not_leb_neg_infinity x :
  is_finite x = true -> (x <=? neg_infinity)%float = false.
Proof.
  unfold is_finite, is_nan, is_infinity.
  rewrite FloatAxioms.leb_spec, !FloatAxioms.eqb_spec, FloatAxioms.abs_spec.
  change (Prim2SF infinity) with (S754_infinity false).
  change (Prim2SF neg_infinity) with (S754_infinity true).
  destruct (Prim2SF x) as [s|[]| |s m e]; simpl; try discriminate; reflexivity.
Qed.

Lemma finite_not_eqb_infinity x :
  is_finite x = true -> (x =? infinity)%float = false.
Proof.
  unfold is_finite, is_nan, is_infinity.
  rewrite !FloatAxioms.eqb_spec, FloatAxioms.abs_spec.
  change (Prim2SF infinity) with (S754_infinity false).
  destruct (Prim2SF x) as [s|[]| |s m e]; simpl; try discriminate; reflexivity.
Qed.

(** The running minimum and maximum of [calculate_docking_box]. *)
Definition min2 (x m : float) : float := if (x <? m)%float then x else m.
Definition max2 (x m : float) : float := if (m <? x)%float then x else m.

Lemma min2_same x m m' : same_number m m' -> same_number (min2 x m) (min2 x m').
Proof.
  intros H. unfold min2. rewrite (same_number_ltb_r _ _ x H).
  destruct (x <? m')%float; [apply same_number_refl | assumption].
Qed.

Lemma max2_same x m m' : same_number m m' -> same_number (max2 x m) (max2 x m').
Proof.
  intros H. unfold max2. rewrite (same_number_ltb_l _ _ x H).
  destruct (m' <? x)%float; [apply same_number_refl | assumption].
Qed.

Lemma min2_swap x y m : same_number (min2 y (min2 x m)) (min2 x (min2 y m)).
Proof.
  unfold min2.
  destruct (x <? m)%float eqn:Hxm, (y <? m)%float eqn:Hym; cbv iota.
  - destruct (y <? x)%float eqn:Hyx, (x <? y)%float eqn:Hxy;
      try apply same_number_refl.
    + apply ltb_asym in Hyx. congruence.
    + apply same_number_sym, ltb_total; auto;
        [apply (ltb_not_nan _ _ Hym) | apply (ltb_not_nan _ _ Hxm)].
  - rewrite ?Hxm, ?Hym. destruct (y <? x)%float eqn:Hyx; [|apply same_number_refl].
    rewrite (ltb_trans _ _ _ Hyx Hxm) in Hym. discriminate.
  - rewrite ?Hxm, ?Hym. destruct (x <? y)%float eqn:Hxy; [|apply same_number_refl].
    rewrite (ltb_trans _ _ _ Hxy Hym) in Hxm. discriminate.
  - rewrite ?Hxm, ?Hym. apply same_number_refl.
Qed.

Lemma max2_swap x y m : same_number (max2 y (max2 x m)) (max2 x (max2 y m)).
Proof.
  unfold max2.
  destruct (m <? x)%float eqn:Hxm, (m <? y)%float eqn:Hym; cbv iota.
  - destruct (x <? y)%float eqn:Hyx, (y <? x)%float eqn:Hxy;
      try apply same_number_refl.
    + apply ltb_asym in Hyx. congruence.
    + apply same_number_sym, ltb_total; auto;
        [apply (ltb_not_nan _ _ Hym) | apply (ltb_not_nan _ _ Hxm)].
  - rewrite ?Hxm, ?Hym. destruct (x <? y)%float eqn:Hyx; [|apply same_number_refl].
    rewrite (ltb_trans _ _ _ Hxm Hyx) in Hym. discriminate.
  - rewrite ?Hxm, ?Hym. destruct (y <? x)%float eqn:Hxy; [|apply same_number_refl].
    rewrite (ltb_trans _ _ _ Hym Hxy) in Hxm. discriminate.
  - rewrite ?Hxm, ?Hym. apply same_number_refl.
Qed.

(** The running minimum from [m0] over [vs]: it is [m0] or one of the
    numbers, and it is below [m0] and below each of them. *)
Lemma running_min_spec vs : forall m0,
  is_nan m0 = false ->
  let r := fold_left (fun m x => min2 x m) vs m0 in
  is_nan r = false /\ (r = m0 \/ In r vs) /\ (r <=? m0)%float = true /\
  forall v, In v vs -> is_nan v = false -> (r <=? v)%float = true.
Proof.
  induction vs as [|x vs IH]; intros m0 Hm0; simpl.
  - repeat split; auto using leb_refl; try (intros v []).
  - assert (H1 : is_nan (min2 x m0) = false /\ (min2 x m0 <=? m0)%float = true
                 /\ (min2 x m0 = m0 \/ min2 x m0 = x)
                 /\ (is_nan x = false -> (min2 x m0 <=? x)%float = true)).
    { unfold min2. destruct (x <? m0)%float eqn:E.
      - destruct (ltb_not_nan _ _ E) as [Hx _].
        repeat split; auto using ltb_leb, leb_refl.
      - repeat split; auto using leb_refl. intros Hx. now apply leb_of_not_ltb. }
    destruct H1 as (N1 & L1 & C1 & X1).
    destruct (IH _ N1) as (N & C & L & A).
    repeat split.
    + exact N.
    + destruct C as [C | C]; [|now right; right].
      rewrite C. destruct C1 as [-> | ->]; [now left | now right; left].
    + now apply leb_trans with (min2 x m0).
    + intros v [<- | Hv] Nv; [|now apply A].
      apply leb_trans with (min2 x m0); auto.
Qed.

Lemma running_max_spec vs : forall m0,
  is_nan m0 = false ->
  let r := fold_left (fun m x => max2 x m) vs m0 in
  is_nan r = false /\ (r = m0 \/ In r vs) /\ (m0 <=? r)%float = true /\
  forall v, In v vs -> is_nan v = false -> (v <=? r)%float = true.
Proof.
  induction vs as [|x vs IH]; intros m0 Hm0; simpl.
  - repeat split; auto using leb_refl; try (intros v []).
  - assert (H1 : is_nan (max2 x m0) = false /\ (m0 <=? max2 x m0)%float = true
                 /\ (max2 x m0 = m0 \/ max2 x m0 = x)
                 /\ (is_nan x = false -> (x <=? max2 x m0)%float = true)).
    { unfold max2. destruct (m0 <? x)%float eqn:E.
      - destruct (ltb_not_nan _ _ E) as [_ Hx].
        repeat split; auto using ltb_leb, leb_refl.
      - repeat split; auto using leb_refl. intros Hx. now apply leb_of_not_ltb. }
    destruct H1 as (N1 & L1 & C1 & X1).
    destruct (IH _ N1) as (N & C & L & A).
    repeat split.
    + exact N.
    + destruct C as [C | C]; [|now right; right].
      rewrite C. destruct C1 as [-> | ->]; [now left | now right; left].
    + now apply leb_trans with (max2 x m0).
    + intros v [<- | Hv] Nv; [|now apply A].
      apply leb_trans with (max2 x m0); auto.
Qed.

End FloatOrder.

(** Rounding: the sum and the difference that make a padded extent. *)
Module FloatRound.

Local Abbreviation fexp := (SpecFloat.fexp prec emax).
Local Abbreviation digits p := (Z.pos (digits2_pos p)).

Lemma fexp_eq e : fexp e = Z.max (e - 53) (-1074).
Proof. reflexivity. Qed.

Lemma digits_bounds p : 2 ^ (digits p - 1) <= Z.pos p < 2 ^ digits p.
Proof.
  induction p as [p IH | p IH |]; simpl digits2_pos.
  - rewrite Pos2Z.inj_succ.
    replace (Z.succ (digits p) - 1) with (Z.succ (digits p - 1)) by lia.
    rewrite !Z.pow_succ_r by lia. lia.
  - rewrite Pos2Z.inj_succ.
    replace (Z.succ (digits p) - 1) with (Z.succ (digits p - 1)) by lia.
    rewrite !Z.pow_succ_r by lia. lia.
  - simpl. lia.
Qed.

Lemma digits_le p q : (p <= q)%positive -> digits p <= digits q.
Proof.
  intros H. destruct (Z_le_gt_dec (digits p) (digits q)) as [|G]; [assumption|].
  exfalso.
  pose proof (digits_bounds p) as [Hp _]. pose proof (digits_bounds q) as [_ Hq].
  assert (2 ^ digits q <= 2 ^ (digits p - 1)) by (apply Z.pow_le_mono_r; lia).
  lia.
Qed.

Lemma digits_shift p k :
  0 <= k -> forall q, Z.pos q = Z.pos p * 2 ^ k -> digits q = digits p + k.
Proof.
  intros Hk q Hq.
  pose proof (digits_bounds p) as [Hp1 Hp2]. pose proof (digits_bounds q) as [Hq1 Hq2].
  assert (HA : 2 ^ (digits p + k - 1) <= Z.pos q).
  { replace (digits p + k - 1) with ((digits p - 1) + k) by lia.
    rewrite Z.pow_add_r by lia. rewrite Hq. apply Z.mul_le_mono_nonneg_r; lia. }
  assert (HB : Z.pos q < 2 ^ (digits p + k)).
  { rewrite Z.pow_add_r by lia. rewrite Hq. apply Z.mul_lt_mono_pos_r; lia. }
  destruct (Z.lt_trichotomy (digits q) (digits p + k)) as [L | [E | G]]; [exfalso | assumption | exfalso].
  - assert (2 ^ digits q <= 2 ^ (digits p + k - 1)) by (apply Z.pow_le_mono_r; lia). lia.
  - assert (2 ^ (digits p + k) <= 2 ^ (digits q - 1)) by (apply Z.pow_le_mono_r; lia). lia.
Qed.

(** Shifting right. *)
Lemma shr_1_m mrs : 0 <= shr_m mrs -> shr_m (shr_1 mrs) = shr_m mrs / 2.
Proof.
  destruct mrs as [m r s]. simpl. intros H.
  destruct m as [|[p|p|]|p]; simpl; try reflexivity; try lia.
  - rewrite Pos2Z.inj_xI. apply Z.div_unique with 1; lia.
  - rewrite Pos2Z.inj_xO. apply Z.div_unique with 0; lia.
Qed.

Lemma iter_shr_1_m n : forall mrs,
  0 <= shr_m mrs -> shr_m (SpecFloat.iter_pos shr_1 n mrs) = shr_m mrs / 2 ^ Z.pos n.
Proof.
  induction n as [n IH | n IH |]; intros mrs H; simpl SpecFloat.iter_pos.
  - assert (P : 0 < 2 ^ Z.pos n) by (apply Z.pow_pos_nonneg; lia).
    assert (H1 : 0 <= shr_m (shr_1 mrs))
      by (rewrite shr_1_m by assumption; apply Z.div_pos; lia).
    assert (H2 : 0 <= shr_m (SpecFloat.iter_pos shr_1 n (shr_1 mrs)))
      by (rewrite IH by assumption; apply Z.div_pos; lia).
    rewrite (IH _ H2), (IH _ H1), (shr_1_m _ H).
    rewrite !Z.div_div by lia. f_equal.
    replace (Z.pos n~1) with (1 + Z.pos n + Z.pos n) by lia.
    rewrite !Z.pow_add_r by lia. lia.
  - assert (P : 0 < 2 ^ Z.pos n) by (apply Z.pow_pos_nonneg; lia).
    assert (H2 : 0 <= shr_m (SpecFloat.iter_pos shr_1 n mrs))
      by (rewrite IH by assumption; apply Z.div_pos; lia).
    rewrite (IH _ H2), (IH _ H).
    rewrite !Z.div_div by lia. f_equal.
    replace (Z.pos n~0) with (Z.pos n + Z.pos n) by lia.
    rewrite !Z.pow_add_r by lia. lia.
  - rewrite shr_1_m by assumption. reflexivity.
Qed.

Lemma shr_spec mrs e n :
  0 <= shr_m mrs ->
  shr_m (fst (shr mrs e n)) = shr_m mrs / 2 ^ Z.max 0 n /\
  snd (shr mrs e n) = e + Z.max 0 n.
Proof.
  intros H. destruct n as [|p|p]; simpl shr; simpl fst; simpl snd.
  - rewrite Z.max_l by lia. rewrite Z.pow_0_r, Z.div_1_r. lia.
  - rewrite Z.max_r by lia. rewrite iter_shr_1_m by assumption. lia.
  - rewrite Z.max_l by lia. rewrite Z.pow_0_r, Z.div_1_r. lia.
Qed.

Lemma shr_record_of_loc_m m l : shr_m (shr_record_of_loc m l) = m.
Proof. destruct l as [|[]]; reflexivity. Qed.

Lemma round_nearest_even_bounds m l :
  m <= round_nearest_even m l <= m + 1.
Proof.
  destruct l as [|[]]; simpl; try lia. destruct (Z.even m); lia.
Qed.

(** What [binary_round_aux] returns on a positive mantissa: the two
    shifts and the rounding, then the test for overflow. *)
Lemma binary_round_aux_pos mx ex lx :
  let n1 := Z.max 0 (fexp (digits mx + ex) - ex) in
  let m1 := Z.pos mx / 2 ^ n1 in
  exists m1', m1 <= m1' <= m1 + 1 /\
    let e1 := ex + n1 in
    let n2 := Z.max 0 (fexp (Zdigits2 m1' + e1) - e1) in
    binary_round_aux prec emax false (Z.pos mx) ex lx =
    match m1' / 2 ^ n2 with
    | Z0 => S754_zero false
    | Z.pos m => if e1 + n2 <=? emax - prec then S754_finite false m (e1 + n2)
                 else S754_infinity false
    | Z.neg _ => S754_nan
    end.
Proof.
  intros n1 m1. unfold binary_round_aux, shr_fexp.
  destruct (shr_spec (shr_record_of_loc (Z.pos mx) lx) ex
              (fexp (Zdigits2 (Z.pos mx) + ex) - ex)) as [Hm He].
  { rewrite shr_record_of_loc_m. lia. }
  destruct (shr _ ex _) as [mrs' e'] eqn:E1. simpl fst in Hm. simpl snd in He.
  rewrite shr_record_of_loc_m in Hm. simpl Zdigits2 in Hm, He.
  fold n1 in Hm, He. fold m1 in Hm.
  exists (round_nearest_even (shr_m mrs') (loc_of_shr_record mrs')).
  split. { rewrite <- Hm. apply round_nearest_even_bounds. }
  set (m1' := round_nearest_even _ _).
  assert (H1 : 0 <= m1').
  { pose proof (round_nearest_even_bounds (shr_m mrs') (loc_of_shr_record mrs')).
    assert (0 <= m1) by (apply Z.div_pos; lia). unfold m1'. lia. }
  destruct (shr_spec (shr_record_of_loc m1' loc_Exact) e'
              (fexp (Zdigits2 m1' + e') - e')) as [Hm2 He2].
  { simpl. assumption. }
  destruct (shr _ e' _) as [mrs'' e''] eqn:E2. simpl fst in Hm2. simpl snd in He2.
  simpl shr_m in Hm2 at 2. subst e'. cbv zeta.
  rewrite Hm2, He2. reflexivity.
Qed.


Lemma binary_round_aux_nonneg mx ex lx :
  SFleb (S754_zero false) (binary_round_aux prec emax false (Z.pos mx) ex lx) = true.
Proof.
  destruct (binary_round_aux_pos mx ex lx) as (m1' & [Hlo _] & ->).
  set (n1 := Z.max 0 _) in *. set (n2 := Z.max 0 _).
  assert (0 <= Z.pos mx / 2 ^ n1) by (apply Z.div_pos; [lia | apply Z.pow_pos_nonneg; lia]).
  assert (0 <= m1' / 2 ^ n2) by (apply Z.div_pos; [lia | apply Z.pow_pos_nonneg; lia]).
  destruct (m1' / 2 ^ n2); try lia; try reflexivity.
  destruct (_ <=? _); reflexivity.
Qed.

Lemma div_pow_digits m k :
  0 < k <= digits m -> 2 ^ (k - 1) <= Z.pos m / 2 ^ (digits m - k).
Proof.
  intros Hk. pose proof (digits_bounds m) as [Hm _].
  apply Z.div_le_lower_bound; [apply Z.pow_pos_nonneg; lia|].
  rewrite <- Z.pow_add_r by lia.
  replace (digits m - k + (k - 1)) with (digits m - 1) by lia. assumption.
Qed.

(** Rounding is monotone against a representable number below. *)
Lemma binary_round_aux_ge mx ex lx mp ep :
  fexp (digits mp + ep) = ep ->
  ex <= ep -> Z.pos mp * 2 ^ (ep - ex) <= Z.pos mx ->
  SFleb (S754_finite false mp ep)
        (binary_round_aux prec emax false (Z.pos mx) ex lx) = true.
Proof.
  intros Hcan Hex Hle.
  destruct (binary_round_aux_pos mx ex lx) as (m1' & [Hlo _] & ->).
  assert (Hq : exists q, Z.pos q = Z.pos mp * 2 ^ (ep - ex)).
  { assert (0 < 2 ^ (ep - ex)) by (apply Z.pow_pos_nonneg; lia).
    exists (Z.to_pos (Z.pos mp * 2 ^ (ep - ex))). rewrite Z2Pos.id; lia. }
  destruct Hq as [q Hq].
  assert (Hd : digits mp + (ep - ex) <= digits mx).
  { rewrite <- (digits_shift mp (ep - ex) ltac:(lia) q Hq). apply digits_le. lia. }
  set (f := fexp (digits mx + ex)) in *.
  assert (Hf : ep <= f).
  { unfold f. rewrite <- Hcan. rewrite !fexp_eq. lia. }
  assert (Hn1 : Z.max 0 (f - ex) = f - ex) by lia. rewrite Hn1 in *.
  replace (ex + (f - ex)) with f by lia.
  set (m1 := Z.pos mx / 2 ^ (f - ex)) in *.
  assert (Hmin : -1074 <= ep) by (rewrite <- Hcan, fexp_eq; lia).
  assert (Hm1 : 1 <= m1 /\ (f = ep -> Z.pos mp <= m1)).
  { split.
    - destruct (Z.eq_dec f ep) as [E | NE].
      + assert (Z.pos mp <= m1); [|lia]. unfold m1. rewrite E.
        apply Z.div_le_lower_bound; [apply Z.pow_pos_nonneg; lia | lia].
      + assert (Ef : f = digits mx + ex - 53) by (unfold f in *; rewrite fexp_eq in *; lia).
        assert (53 <= digits mx) by lia.
        pose proof (div_pow_digits mx 53 ltac:(lia)) as Hdiv.
        unfold m1. replace (f - ex) with (digits mx - 53) by lia.
        assert (1 <= 2 ^ (53 - 1)) by (pose proof (Z.pow_pos_nonneg 2 (53 - 1)); lia). lia.
    - intros E. unfold m1. rewrite E.
      apply Z.div_le_lower_bound; [apply Z.pow_pos_nonneg; lia | lia]. }
  destruct Hm1 as [Hm1 Hm1p].
  destruct m1' as [|m1'|m1']; try lia. simpl Zdigits2.
  set (g := fexp (digits m1' + f)).
  destruct (Z_le_gt_dec g f) as [Hg | Hg].
  - (* no second shift *)
    replace (Z.max 0 (g - f)) with 0 by lia.
    rewrite Z.pow_0_r, Z.div_1_r, Z.add_0_r.
    destruct (f <=? emax - prec); [|reflexivity].
    unfold SFleb, SFcompare.
    destruct (Z.compare_spec ep f) as [E | L | G]; try reflexivity; try lia.
    change (Pos.compare_cont Eq mp m1') with (Pos.compare mp m1').
    specialize (Hm1p (eq_sym E)).
    destruct (Pos.compare_spec mp m1'); try reflexivity. lia.
  - (* the rounding carried into one more digit *)
    replace (Z.max 0 (g - f)) with (g - f) by lia.
    assert (Eg : g = digits m1' + f - 53) by (unfold g, f in *; rewrite !fexp_eq in *; lia).
    pose proof (div_pow_digits m1' 53 ltac:(lia)) as Hdiv.
    replace (g - f) with (digits m1' - 53) by lia.
    assert (1 <= 2 ^ (53 - 1)) by (pose proof (Z.pow_pos_nonneg 2 (53 - 1)); lia).
    destruct (Z.pos m1' / 2 ^ (digits m1' - 53)) as [|m2|m2]; try lia.
    destruct (_ <=? _); [|reflexivity].
    unfold SFleb, SFcompare.
    destruct (Z.compare_spec ep (f + (digits m1' - 53))); try reflexivity; lia.
Qed.

Lemma shl_align_spec mx ex ex' :
  snd (shl_align mx ex ex') = Z.min ex ex' /\
  Z.pos (fst (shl_align mx ex ex')) = Z.pos mx * 2 ^ (ex - Z.min ex ex').
Proof.
  unfold shl_align. destruct (ex' - ex) as [|d|d] eqn:E; simpl fst; simpl snd.
  - replace (Z.min ex ex') with ex by lia. rewrite Z.sub_diag, Z.pow_0_r. lia.
  - replace (Z.min ex ex') with ex by lia. rewrite Z.sub_diag, Z.pow_0_r. lia.
  - replace (Z.min ex ex') with ex' by lia. split; [reflexivity|].
    replace (ex - ex') with (Z.pos d) by lia.
    change (Pos.iter xO mx d) with (shift_pos d mx).
    rewrite shift_pos_correct, Z.pow_pos_fold. lia.
Qed.

Lemma binary_round_nonneg m e :
  SFleb (S754_zero false) (binary_round prec emax false m e) = true.
Proof.
  unfold binary_round. destruct (shl_align _ _ _) as [mz ez].
  apply binary_round_aux_nonneg.
Qed.

Lemma binary_round_ge m e mp ep :
  fexp (digits mp + ep) = ep ->
  e <= ep -> Z.pos mp * 2 ^ (ep - e) <= Z.pos m ->
  SFleb (S754_finite false mp ep) (binary_round prec emax false m e) = true.
Proof.
  intros Hcan He Hle. unfold binary_round.
  destruct (shl_align_spec m e (fexp (digits m + e))) as [H2 H1].
  destruct (shl_align _ _ _) as [mz ez]. simpl fst in H1. simpl snd in H2.
  apply binary_round_aux_ge; [assumption | lia |].
  rewrite H1, H2.
  replace (ep - Z.min e (fexp (digits m + e)))
    with ((ep - e) + (e - Z.min e (fexp (digits m + e)))) by lia.
  rewrite Z.pow_add_r by lia. rewrite Z.mul_assoc.
  apply Z.mul_le_mono_nonneg_r; [apply Z.pow_nonneg; lia | assumption].
Qed.

(** A number of the format: the mantissa fits the exponent. *)
Lemma valid_finite s m e :
  valid_binary (S754_finite s m e) = true ->
  fexp (digits m + e) = e.
Proof.
  simpl. unfold bounded, canonical_mantissa.
  intros H. apply andb_true_iff in H. destruct H as [H _].
  now apply Z.eqb_eq in H.
Qed.

Definition sf_nonneg (a : spec_float) : Prop := SFleb (S754_zero false) a = true.

Lemma sf_nonneg_cases a :
  sf_nonneg a ->
  (exists s, a = S754_zero s) \/ a = S754_infinity false \/
  (exists m e, a = S754_finite false m e).
Proof.
  unfold sf_nonneg. destruct a as [s|[]| |[] m e]; try discriminate; eauto.
Qed.

Lemma SFleb_refl a : a <> S754_nan -> SFleb a a = true.
Proof.
  intros H. unfold SFleb. destruct a as [sa|sa| |sa ma ea]; simpl; try congruence.
  - destruct sa; reflexivity.
  - rewrite Z.compare_refl.
    change (Pos.compare_cont Eq ma ma) with (Pos.compare ma ma).
    rewrite Pos.compare_refl. destruct sa; reflexivity.
Qed.

(** Adding a non-negative number does not make a non-negative number
    smaller. *)
Lemma SFadd_ge d p :
  valid_binary p = true ->
  sf_nonneg d -> sf_nonneg p -> SFleb p (SF64add d p) = true.
Proof.
  intros Hv Hd Hp.
  destruct (sf_nonneg_cases _ Hd) as [[sd ->] | [-> | (md & ed & ->)]];
    destruct (sf_nonneg_cases _ Hp) as [[sp ->] | [-> | (mp & ep & ->)]];
    try reflexivity.
  - destruct sd, sp; reflexivity.
  - apply SFleb_refl. discriminate.
  - unfold SF64add, SFadd.
    destruct (shl_align_spec md ed (Z.min ed ep)) as [_ Hmd].
    destruct (shl_align_spec mp ep (Z.min ed ep)) as [_ Hmp].
    replace (Z.min ep (Z.min ed ep)) with (Z.min ed ep) in Hmp by lia.
    cbv zeta. unfold cond_Zopp.
    set (md' := fst (shl_align md ed (Z.min ed ep))) in *.
    set (mp' := fst (shl_align mp ep (Z.min ed ep))) in *.
    change (Z.pos md' + Z.pos mp') with (Z.pos (md' + mp')). unfold binary_normalize.
    apply binary_round_ge; [now apply (valid_finite false) | lia |].
    rewrite Pos2Z.inj_add, Hmp. lia.
Qed.

(** Two numbers of the format compare as their values do. *)
Lemma compare_aligned m1 e1 m2 e2 ez :
  fexp (digits m1 + e1) = e1 -> fexp (digits m2 + e2) = e2 ->
  ez <= e1 -> ez <= e2 ->
  SFleb (S754_finite false m1 e1) (S754_finite false m2 e2) = true ->
  Z.pos m1 * 2 ^ (e1 - ez) <= Z.pos m2 * 2 ^ (e2 - ez).
Proof.
  intros H1 H2 Hz1 Hz2. unfold SFleb, SFcompare.
  destruct (Z.compare_spec e1 e2) as [E | L | G]; try discriminate.
  - change (Pos.compare_cont Eq m1 m2) with (Pos.compare m1 m2).
    destruct (Pos.compare_spec m1 m2); try discriminate; intros _; subst.
    + lia.
    + apply Z.mul_le_mono_nonneg_r; [apply Z.pow_nonneg|]; lia.
  - intros _.
    pose proof (digits_bounds m1) as [_ Hm1]. pose proof (digits_bounds m2) as [Hm2 _].
    rewrite fexp_eq in H1, H2.
    assert (D1 : digits m1 <= 53) by lia.
    assert (D2 : digits m2 = 53) by lia.
    rewrite D2 in Hm2.
    assert (Z.pos m1 < 2 ^ 53).
    { apply Z.lt_le_trans with (2 ^ digits m1); [assumption|].
      apply Z.pow_le_mono_r; lia. }
    replace (e2 - ez) with ((e1 - ez) + (e2 - e1)) by lia.
    rewrite Z.pow_add_r by lia.
    assert (P : 0 < 2 ^ (e1 - ez)) by (apply Z.pow_pos_nonneg; lia).
    assert (Q : 2 ^ 1 <= 2 ^ (e2 - e1)) by (apply Z.pow_le_mono_r; lia).
    change (2 ^ 1) with 2 in Q. change (2 ^ (53 - 1)) with 4503599627370496 in Hm2.
    change (2 ^ 53) with 9007199254740992 in H.
    assert (R : Z.pos m1 <= Z.pos m2 * 2 ^ (e2 - e1)) by nia.
    rewrite (Z.mul_comm (2 ^ (e1 - ez))), Z.mul_assoc.
    apply Z.mul_le_mono_nonneg_r; lia.
Qed.

(** The difference of two finite numbers, the larger first, is not
    negative (and is a number). *)
Lemma SFsub_nonneg a b :
  valid_binary a = true -> valid_binary b = true ->
  (forall s, a <> S754_infinity s) -> (forall s, b <> S754_infinity s) ->
  SFleb a b = true -> sf_nonneg (SF64sub b a).
Proof.
  intros Ha Hb Fa Fb Hle. unfold sf_nonneg.
  destruct a as [sa|sa| |sa ma ea]; try (now destruct (Fa sa)); try discriminate;
    destruct b as [sb|sb| |sb mb eb]; try (now destruct (Fb sb)); try discriminate.
  - destruct sa, sb; reflexivity.
  - destruct sb; [discriminate | reflexivity].
  - destruct sa; [reflexivity | discriminate].
  - apply valid_finite in Ha, Hb.
    unfold SF64sub, SFsub. cbv zeta.
    destruct (shl_align_spec ma ea (Z.min eb ea)) as [_ Hma].
    destruct (shl_align_spec mb eb (Z.min eb ea)) as [_ Hmb].
    replace (Z.min ea (Z.min eb ea)) with (Z.min eb ea) in Hma by lia.
    replace (Z.min eb (Z.min eb ea)) with (Z.min eb ea) in Hmb by lia.
    set (ma' := fst (shl_align ma ea (Z.min eb ea))) in *.
    set (mb' := fst (shl_align mb eb (Z.min eb ea))) in *.
    assert (Hsign : 0 <= cond_Zopp sb (Z.pos mb') - cond_Zopp sa (Z.pos ma')).
    { destruct sa, sb; unfold cond_Zopp.
      - (* both negative: the order of the magnitudes is reversed *)
        assert (SFleb (S754_finite false mb eb) (S754_finite false ma ea) = true).
        { revert Hle. unfold SFleb, SFcompare.
          rewrite (Z.compare_antisym eb ea), (Pos.compare_cont_antisym ma mb Eq).
          simpl CompOpp.
          destruct (eb ?= ea); simpl; try (intros; reflexivity || discriminate).
          destruct (Pos.compare_cont Eq mb ma); simpl; intros; reflexivity || discriminate. }
        pose proof (compare_aligned mb eb ma ea (Z.min eb ea) Hb Ha ltac:(lia) ltac:(lia) H).
        lia.
      - lia.
      - discriminate.
      - pose proof (compare_aligned ma ea mb eb (Z.min eb ea) Ha Hb ltac:(lia) ltac:(lia) Hle).
        lia. }
    destruct (cond_Zopp sb (Z.pos mb') - cond_Zopp sa (Z.pos ma')) as [|m|m]; try lia.
    + reflexivity.
    + apply binary_round_nonneg.
Qed.


(** Transfer to primitive floats. *)
Lemma is_finite_spec x :
  is_finite x = true ->
  Prim2SF x <> S754_nan /\ forall s, Prim2SF x <> S754_infinity s.
Proof.
  unfold is_finite, is_nan, is_infinity.
  rewrite !FloatAxioms.eqb_spec, FloatAxioms.abs_spec.
  change (Prim2SF infinity) with (S754_infinity false).
  destruct (Prim2SF x) as [s|[]| |s m e]; simpl; try discriminate;
    intros _; split; intros; discriminate.
Qed.

Lemma padded_extent_ge lo hi p :
  is_finite lo = true -> is_finite hi = true ->
  (lo <=? hi)%float = true -> (0 <=? p)%float = true ->
  (p <=? (hi - lo) + p)%float = true.
Proof.
  intros Flo Fhi Hle Hp.
  apply is_finite_spec in Flo, Fhi.
  rewrite FloatAxioms.leb_spec in *. rewrite FloatAxioms.add_spec, FloatAxioms.sub_spec.
  change (Prim2SF 0) with (S754_zero false) in Hp.
  apply SFadd_ge; [apply Prim2SF_valid | | exact Hp].
  apply SFsub_nonneg; try apply Prim2SF_valid; tauto.
Qed.

End FloatRound.

(* ===================================================================== *)
(** * Properties of calculate_docking_box *)
(* ===================================================================== *)

Module DockBoxFacts.
Import Text PyFloat DockBox FloatOrder FloatRound.
Local Open Scope list_scope.

(** ** The loop as a fold over the accepted triples *)

Lemma fold_scan_line lines : forall b,
  fold_left scan_line lines b = fold_left update (valid_triples lines) b.
Proof.
  induction lines as [|line lines IH]; intros b; [reflexivity|].
  simpl. rewrite fold_left_app, IH. unfold scan_line.
  destruct (is_atom_line line); [|reflexivity].
  destruct (parse_coordinates line); reflexivity.
Qed.

Lemma scan_valid_triples lines :
  scan lines = fold_left update (valid_triples lines) initial_bounds.
Proof. apply fold_scan_line. Qed.

Lemma valid_triples_app l1 l2 :
  valid_triples (l1 ++ l2) = valid_triples l1 ++ valid_triples l2.
Proof. apply flat_map_app. Qed.

Lemma valid_triples_filter lines :
  valid_triples (List.filter is_atom_line lines) = valid_triples lines.
Proof.
  induction lines as [|line lines IH]; [reflexivity|].
  simpl. destruct (is_atom_line line) eqn:E; simpl; rewrite ?E, IH; reflexivity.
Qed.

(** A line the [except] branch skips: too few fields, or a coordinate
    field that is not a number. *)
Definition skipped (line : string) : Prop :=
  (List.length (split line) < 9)%nat \/
  exists i t, (6 <= i <= 8)%nat /\ nth_error (split line) i = Some t
              /\ float_of_string t = None.

Lemma skipped_parse line : skipped line -> parse_coordinates line = None.
Proof.
  unfold parse_coordinates, float_field. intros [Hlen | (i & t & Hi & Ht & Hf)].
  - assert (H8 : nth_error (split line) 8 = None) by (apply nth_error_None; lia).
    rewrite H8.
    destruct (nth_error (split line) 6) as [t6|]; [|reflexivity].
    destruct (float_of_string t6); [|reflexivity].
    destruct (nth_error (split line) 7) as [t7|]; [|reflexivity].
    destruct (float_of_string t7); reflexivity.
  - assert (Hc : i = 6%nat \/ i = 7%nat \/ i = 8%nat) by lia.
    destruct Hc as [-> | [-> | ->]]; rewrite Ht, Hf.
    + reflexivity.
    + destruct (nth_error (split line) 6) as [t6|]; [|reflexivity].
      destruct (float_of_string t6); reflexivity.
    + destruct (nth_error (split line) 6) as [t6|]; [|reflexivity].
      destruct (float_of_string t6); [|reflexivity].
      destruct (nth_error (split line) 7) as [t7|]; [|reflexivity].
      destruct (float_of_string t7); reflexivity.
Qed.

(** C6. Lines that are not tagged ATOM or HETATM never influence the
    bounds: the box of a file is the box of the file without them. *)
Theorem other_lines_ignored (lines : list string) (padding : float) :
  scan lines = scan (List.filter is_atom_line lines) /\
  calculate_docking_box lines padding =
    calculate_docking_box (List.filter is_atom_line lines) padding.
Proof.
  assert (H : scan lines = scan (List.filter is_atom_line lines))
    by (rewrite !scan_valid_triples, valid_triples_filter; reflexivity).
  split; [exact H|]. unfold calculate_docking_box. now rewrite H.
Qed.

(** C10. An atom line that is skipped leaves the six extrema as they
    were, whatever state they are in and whichever of its fields are
    numbers; so the file gives the same box without that line, and the box
    is a function of the accepted triples alone. *)
Theorem skipped_line_changes_nothing (line : string) :
  is_atom_line line = true -> skipped line ->
  (forall b, scan_line b line = b) /\
  (forall before after padding,
      scan (before ++ line :: after) = scan (before ++ after) /\
      calculate_docking_box (before ++ line :: after) padding =
        calculate_docking_box (before ++ after) padding) /\
  (forall lines lines' padding,
      valid_triples lines = valid_triples lines' ->
      calculate_docking_box lines padding = calculate_docking_box lines' padding).
Proof.
  intros Hatom Hskip. pose proof (skipped_parse line Hskip) as Hparse.
  assert (Hstep : forall b, scan_line b line = b).
  { intros b. unfold scan_line. now rewrite Hatom, Hparse. }
  split; [exact Hstep|]. split.
  - intros before after padding.
    assert (H : scan (before ++ line :: after) = scan (before ++ after)).
    { unfold scan. rewrite !fold_left_app. simpl. now rewrite Hstep. }
    split; [exact H|]. unfold calculate_docking_box. now rewrite H.
  - intros lines lines' padding H. unfold calculate_docking_box.
    now rewrite !scan_valid_triples, H.
Qed.


(** ** Reordering the lines *)

Lemma same_bounds_refl b : same_bounds b b.
Proof. repeat split; apply same_number_refl. Qed.

Lemma same_bounds_trans b1 b2 b3 :
  same_bounds b1 b2 -> same_bounds b2 b3 -> same_bounds b1 b3.
Proof.
  intros (A1 & A2 & A3 & A4 & A5 & A6) (B1 & B2 & B3 & B4 & B5 & B6).
  repeat split; eapply same_number_trans; eassumption.
Qed.

Lemma update_same b b' t :
  same_bounds b b' -> same_bounds (update b t) (update b' t).
Proof.
  intros (A1 & A2 & A3 & A4 & A5 & A6). destruct t as [[x y] z].
  repeat split; simpl;
    first [ apply min2_same; assumption | apply max2_same; assumption ].
Qed.

Lemma update_swap b t u :
  same_bounds (update (update b t) u) (update (update b u) t).
Proof.
  destruct t as [[x y] z], u as [[x' y'] z'].
  repeat split; simpl; first [ apply min2_swap | apply max2_swap ].
Qed.

Lemma fold_update_same ts : forall b b',
  same_bounds b b' ->
  same_bounds (fold_left update ts b) (fold_left update ts b').
Proof.
  induction ts as [|t ts IH]; intros b b' H; simpl; [exact H|].
  apply IH, update_same, H.
Qed.

Lemma fold_update_permutation ts ts' :
  Permutation ts ts' -> forall b b',
  same_bounds b b' ->
  same_bounds (fold_left update ts b) (fold_left update ts' b').
Proof.
  induction 1 as [|t ts ts' _ IH|t u ts|ts1 ts2 ts3 _ IH1 _ IH2]; intros b b' H.
  - exact H.
  - simpl. apply IH, update_same, H.
  - simpl. apply fold_update_same.
    apply same_bounds_trans with (update (update b' u) t).
    + apply update_same, update_same, H.
    + apply update_swap.
  - apply same_bounds_trans with (fold_left update ts2 b).
    + apply IH1, same_bounds_refl.
    + apply IH2, H.
Qed.

Lemma valid_triples_permutation lines lines' :
  Permutation lines lines' ->
  Permutation (valid_triples lines) (valid_triples lines').
Proof. apply Permutation_flat_map. Qed.

Lemma box_of_bounds_same b b' padding :
  same_bounds b b' ->
  same_box (box_of_bounds b padding) (box_of_bounds b' padding).
Proof.
  intros (A1 & A2 & A3 & A4 & A5 & A6). unfold box_of_bounds.
  rewrite (same_number_eqb_l _ _ infinity A1).
  destruct (min_x b' =? infinity)%float; [reflexivity|].
  repeat split; simpl;
    first [ apply same_number_half, same_number_add; assumption
          | apply same_number_add;
            [apply same_number_sub; assumption | apply same_number_refl] ].
Qed.

(** C7, as amended. Reordering the lines of a file gives the same extrema
    and the same box as numbers: the same error, or boxes whose fields
    are pairwise equal under [==] (or both NaN). *)
Theorem reordering_gives_same_numbers (lines lines' : list string)
        (padding : float) :
  Permutation lines lines' ->
  same_bounds (scan lines) (scan lines') /\
  same_box (calculate_docking_box lines padding)
           (calculate_docking_box lines' padding).
Proof.
  intros H.
  assert (Hb : same_bounds (scan lines) (scan lines')).
  { rewrite !scan_valid_triples.
    apply fold_update_permutation;
      [now apply valid_triples_permutation | apply same_bounds_refl]. }
  split; [exact Hb | now apply box_of_bounds_same].
Qed.

(** Two atom lines that differ in the sign of a zero. *)
Definition atom_at_zero : string :=
  "ATOM      1  C   LIG A   1       0.000   0.000   0.000  0.00  0.00    +0.034 C".
Definition atom_at_minus_zero : string :=
  "ATOM      2  C   LIG A   1      -0.000   0.000   0.000  0.00  0.00    +0.034 C".

Lemma zero_not_minus_zero : 0%float <> (-0)%float.
Proof. intros H. apply (f_equal classify) in H. vm_compute in H. discriminate. Qed.

(** C7, as stated, fails: the two orders of these lines give boxes whose
    centres differ in the sign of zero ([0.0] against [-0.0]). *)
Lemma reordering_can_change_the_box :
  Permutation [atom_at_zero; atom_at_minus_zero]
              [atom_at_minus_zero; atom_at_zero] /\
  calculate_docking_box [atom_at_zero; atom_at_minus_zero] 10 <>
  calculate_docking_box [atom_at_minus_zero; atom_at_zero] 10 /\
  scan [atom_at_zero; atom_at_minus_zero] <>
  scan [atom_at_minus_zero; atom_at_zero].
Proof.
  split; [apply perm_swap|]. split; intros H; vm_compute in H.
  - apply zero_not_minus_zero. congruence.
  - apply zero_not_minus_zero. congruence.
Qed.


Lemma reordering_gives_same_numbers_example :
  same_box
    (calculate_docking_box [atom_at_zero; atom_at_minus_zero] 10)
    (calculate_docking_box [atom_at_minus_zero; atom_at_zero] 10).
Proof.
  exact (proj2 (reordering_gives_same_numbers
                  [atom_at_zero; atom_at_minus_zero]
                  [atom_at_minus_zero; atom_at_zero] 10%float
                  (perm_swap _ _ _))).
Defined.

(** ** The extrema of finite coordinates *)

Lemma running_min_least vs :
  vs <> [] -> (forall v, In v vs -> is_finite v = true) ->
  least (fold_left (fun m x => min2 x m) vs infinity) vs.
Proof.
  intros Hne Hfin.
  destruct (running_min_spec vs infinity eq_refl) as (_ & C & _ & A).
  split.
  - destruct C as [C | C]; [exfalso | exact C].
    destruct vs as [|v vs]; [congruence|].
    specialize (A v (or_introl eq_refl)
                  (is_finite_not_nan _ (Hfin v (or_introl eq_refl)))).
    rewrite C, infinity_not_leb_finite in A by (apply Hfin; now left).
    discriminate.
  - intros v Hv. apply A; [exact Hv | apply is_finite_not_nan, Hfin, Hv].
Qed.

Lemma running_max_greatest vs :
  vs <> [] -> (forall v, In v vs -> is_finite v = true) ->
  greatest (fold_left (fun m x => max2 x m) vs neg_infinity) vs.
Proof.
  intros Hne Hfin.
  destruct (running_max_spec vs neg_infinity eq_refl) as (_ & C & _ & A).
  split.
  - destruct C as [C | C]; [exfalso | exact C].
    destruct vs as [|v vs]; [congruence|].
    specialize (A v (or_introl eq_refl)
                  (is_finite_not_nan _ (Hfin v (or_introl eq_refl)))).
    rewrite C, finite_not_leb_neg_infinity in A by (apply Hfin; now left).
    discriminate.
  - intros v Hv. apply A; [exact Hv | apply is_finite_not_nan, Hfin, Hv].
Qed.

Lemma fold_update_fields ts : forall b,
  min_x (fold_left update ts b) = fold_left (fun m x => min2 x m) (xs ts) (min_x b) /\
  min_y (fold_left update ts b) = fold_left (fun m x => min2 x m) (ys ts) (min_y b) /\
  min_z (fold_left update ts b) = fold_left (fun m x => min2 x m) (zs ts) (min_z b) /\
  max_x (fold_left update ts b) = fold_left (fun m x => max2 x m) (xs ts) (max_x b) /\
  max_y (fold_left update ts b) = fold_left (fun m x => max2 x m) (ys ts) (max_y b) /\
  max_z (fold_left update ts b) = fold_left (fun m x => max2 x m) (zs ts) (max_z b).
Proof.
  induction ts as [|[[x y] z] ts IH]; intros b; [repeat split|].
  simpl fold_left. exact (IH _).
Qed.

(** The extrema after the loop, when every accepted triple is finite and
    there is one at least: on each axis the least and the greatest
    coordinate. *)
Lemma scan_extrema lines :
  valid_triples lines <> [] -> Forall finite_triple (valid_triples lines) ->
  let b := scan lines in
  let ts := valid_triples lines in
  least (min_x b) (xs ts) /\ greatest (max_x b) (xs ts) /\
  least (min_y b) (ys ts) /\ greatest (max_y b) (ys ts) /\
  least (min_z b) (zs ts) /\ greatest (max_z b) (zs ts).
Proof.
  intros Hne Hfin b ts. unfold b. rewrite scan_valid_triples. fold ts.
  destruct (fold_update_fields ts initial_bounds) as (-> & -> & -> & -> & -> & ->).
  rewrite List.Forall_forall in Hfin. fold ts in Hfin, Hne.
  assert (Nx : xs ts <> []) by (destruct ts; [congruence | discriminate]).
  assert (Ny : ys ts <> []) by (destruct ts; [congruence | discriminate]).
  assert (Nz : zs ts <> []) by (destruct ts; [congruence | discriminate]).
  assert (Fx : forall v, In v (xs ts) -> is_finite v = true).
  { intros v Hv. apply in_map_iff in Hv. destruct Hv as (t & <- & Ht).
    apply (Hfin t Ht). }
  assert (Fy : forall v, In v (ys ts) -> is_finite v = true).
  { intros v Hv. apply in_map_iff in Hv. destruct Hv as (t & <- & Ht).
    apply (Hfin t Ht). }
  assert (Fz : forall v, In v (zs ts) -> is_finite v = true).
  { intros v Hv. apply in_map_iff in Hv. destruct Hv as (t & <- & Ht).
    apply (Hfin t Ht). }
  simpl min_x; simpl min_y; simpl min_z; simpl max_x; simpl max_y; simpl max_z.
  repeat split;
    first [ apply running_min_least; assumption
          | apply running_max_greatest; assumption ].
Qed.

Lemma least_greatest_extent lo hi vs padding :
  least lo vs -> greatest hi vs ->
  (forall v, In v vs -> is_finite v = true) ->
  (0 <=? padding)%float = true ->
  (padding <=? (hi - lo) + padding)%float = true.
Proof.
  intros [Ilo Hlo] [Ihi Hhi] Hfin Hp.
  apply padded_extent_ge; auto.
Qed.

(** The receptor of the scenario: two atoms, at (0,0,0) and (10,6,4). *)
Definition two_atoms : list string :=
  [ "ATOM      1  C   LIG A   1       0.000   0.000   0.000  0.00  0.00    +0.034 C" +:+ newline;
    "ATOM      2  O   LIG A   1      10.000   6.000   4.000  0.00  0.00    -0.120 OA" +:+ newline ].

(** C2, as amended. For a file whose accepted triples are finite numbers,
    one at least, [calculate_docking_box] returns the box with
    [center_i = (min_i + max_i) / 2] and [size_i = (max_i - min_i) + padding]
    in binary64 arithmetic, [min_i] and [max_i] being the least and the
    greatest coordinate on the axis; every size is at least the padding
    when [padding >= 0]; and the two atoms of the scenario give centre
    (5,3,2) and sizes (20,16,14) for padding 10. *)
Theorem box_of_finite_coordinates :
  (forall (lines : list string) (padding : float),
      valid_triples lines <> [] ->
      Forall finite_triple (valid_triples lines) ->
      let ts := valid_triples lines in
      exists lo_x lo_y lo_z hi_x hi_y hi_z,
        least lo_x (xs ts) /\ greatest hi_x (xs ts) /\
        least lo_y (ys ts) /\ greatest hi_y (ys ts) /\
        least lo_z (zs ts) /\ greatest hi_z (zs ts) /\
        calculate_docking_box lines padding =
          Return {| center_x := ((lo_x + hi_x) / 2)%float;
                    center_y := ((lo_y + hi_y) / 2)%float;
                    center_z := ((lo_z + hi_z) / 2)%float;
                    size_x := ((hi_x - lo_x) + padding)%float;
                    size_y := ((hi_y - lo_y) + padding)%float;
                    size_z := ((hi_z - lo_z) + padding)%float |} /\
        ((0 <=? padding)%float = true ->
         (padding <=? (hi_x - lo_x) + padding)%float = true /\
         (padding <=? (hi_y - lo_y) + padding)%float = true /\
         (padding <=? (hi_z - lo_z) + padding)%float = true)) /\
  calculate_docking_box two_atoms 10 =
    Return {| center_x := 5; center_y := 3; center_z := 2;
              size_x := 20; size_y := 16; size_z := 14 |}.
Proof.
  split; [|vm_compute; reflexivity].
  intros lines padding Hne Hfin ts.
  destruct (scan_extrema lines Hne Hfin) as (Lx & Gx & Ly & Gy & Lz & Gz).
  fold ts in Lx, Gx, Ly, Gy, Lz, Gz.
  exists (min_x (scan lines)), (min_y (scan lines)), (min_z (scan lines)),
         (max_x (scan lines)), (max_y (scan lines)), (max_z (scan lines)).
  repeat (split; [assumption|]).
  assert (Fx : forall v, In v (xs ts) -> is_finite v = true).
  { rewrite List.Forall_forall in Hfin. intros v Hv. apply in_map_iff in Hv.
    destruct Hv as (t & <- & Ht). apply (Hfin t Ht). }
  assert (Fy : forall v, In v (ys ts) -> is_finite v = true).
  { rewrite List.Forall_forall in Hfin. intros v Hv. apply in_map_iff in Hv.
    destruct Hv as (t & <- & Ht). apply (Hfin t Ht). }
  assert (Fz : forall v, In v (zs ts) -> is_finite v = true).
  { rewrite List.Forall_forall in Hfin. intros v Hv. apply in_map_iff in Hv.
    destruct Hv as (t & <- & Ht). apply (Hfin t Ht). }
  split.
  - unfold calculate_docking_box, box_of_bounds.
    rewrite finite_not_eqb_infinity; [reflexivity|].
    apply Fx, Lx.
  - intros Hp. repeat split; eapply least_greatest_extent; eauto.
Qed.


(** The box of the scenario, obtained from the general statement. *)
Lemma box_of_two_atoms :
  valid_triples two_atoms <> [] /\
  Forall finite_triple (valid_triples two_atoms) /\
  exists lo_x lo_y lo_z hi_x hi_y hi_z,
    calculate_docking_box two_atoms 10 =
      Return {| center_x := ((lo_x + hi_x) / 2)%float;
                center_y := ((lo_y + hi_y) / 2)%float;
                center_z := ((lo_z + hi_z) / 2)%float;
                size_x := ((hi_x - lo_x) + 10)%float;
                size_y := ((hi_y - lo_y) + 10)%float;
                size_z := ((hi_z - lo_z) + 10)%float |} /\
    (10 <=? (hi_x - lo_x) + 10)%float = true /\
    (10 <=? (hi_y - lo_y) + 10)%float = true /\
    (10 <=? (hi_z - lo_z) + 10)%float = true.
Proof.
  assert (Hne : valid_triples two_atoms <> []) by (vm_compute; discriminate).
  assert (Hfin : Forall finite_triple (valid_triples two_atoms)).
  { vm_compute valid_triples. repeat constructor. }
  split; [exact Hne|]. split; [exact Hfin|].
  destruct (proj1 box_of_finite_coordinates two_atoms 10%float Hne Hfin)
    as (lo_x & lo_y & lo_z & hi_x & hi_y & hi_z & _ & _ & _ & _ & _ & _ & Hbox & Hsize).
  exists lo_x, lo_y, lo_z, hi_x, hi_y, hi_z.
  split; [exact Hbox | exact (Hsize eq_refl)].
Defined.

(** C2, as stated, fails: a coordinate that overflows to infinity is an
    accepted triple, and the size on its axis is NaN, which is not at
    least the padding. *)
Definition atom_overflowing_y : string :=
  "ATOM      1  C   LIG A   1       1.000   1e999   1.000  0.00  0.00    +0.034 C".

Lemma size_can_be_below_padding :
  valid_triples [atom_overflowing_y] = [(1%float, infinity, 1%float)] /\
  (0 <=? 10)%float = true /\
  calculate_docking_box [atom_overflowing_y] 10 =
    Return {| center_x := 1; center_y := infinity; center_z := 1;
              size_x := 10; size_y := nan; size_z := 10 |} /\
  (10 <=? nan)%float = false.
Proof. repeat split; vm_compute; reflexivity. Qed.

(** ** The sentinel test *)

(** A file without accepted triple raises. *)
Lemma no_triple_raises lines padding :
  valid_triples lines = [] ->
  calculate_docking_box lines padding = Raise no_valid_lines.
Proof.
  intros H. unfold calculate_docking_box. rewrite scan_valid_triples, H.
  reflexivity.
Qed.

(** A file with an accepted triple whose coordinates are finite returns. *)
Lemma finite_triples_return lines padding :
  valid_triples lines <> [] -> Forall finite_triple (valid_triples lines) ->
  exists b, calculate_docking_box lines padding = Return b.
Proof.
  intros Hne Hfin.
  destruct (scan_extrema lines Hne Hfin) as ([Hin _] & _).
  unfold calculate_docking_box, box_of_bounds.
  rewrite finite_not_eqb_infinity; [eauto|].
  rewrite List.Forall_forall in Hfin.
  apply in_map_iff in Hin. destruct Hin as (t & <- & Ht). apply (Hfin t Ht).
Qed.

Definition atom_overflowing_x : string :=
  "ATOM      1  C   LIG A   1       1e999   8.500  32.250  0.00  0.00    +0.034 C".
Definition atom_without_coordinates : string :=
  "ATOM      1  C   UNL A   1         nan     nan     nan  0.00  0.00    +0.000 C".

(** C5 at the failing inputs: an atom line whose three coordinate fields
    are accepted by [float], and [calculate_docking_box] raises all the
    same, because [min_x] is still the sentinel. *)
Theorem accepted_triple_yet_no_valid_lines :
  is_atom_line atom_overflowing_x = true /\
  parse_coordinates atom_overflowing_x = Some (infinity, 8.5%float, 32.25%float) /\
  calculate_docking_box [atom_overflowing_x] 10 = Raise no_valid_lines /\
  is_atom_line atom_without_coordinates = true /\
  parse_coordinates atom_without_coordinates = Some (nan, nan, nan) /\
  calculate_docking_box [atom_without_coordinates] 10 = Raise no_valid_lines.
Proof. repeat split; vm_compute; reflexivity. Qed.

(** A line the loop skips, in a file of three lines. *)
Definition atom_with_bad_z : string :=
  "ATOM      3  N   LIG A   1       1.500   2.500   3.5x0  0.00  0.00    +0.034 N".

Lemma skipped_line_changes_nothing_example :
  is_atom_line atom_with_bad_z = true /\ skipped atom_with_bad_z /\
  scan (two_atoms ++ [atom_with_bad_z]) = scan two_atoms.
Proof.
  assert (Hatom : is_atom_line atom_with_bad_z = true) by reflexivity.
  assert (Hskip : skipped atom_with_bad_z).
  { right. exists 8%nat, "3.5x0". repeat split; try lia; vm_compute; reflexivity. }
  split; [exact Hatom|]. split; [exact Hskip|].
  destruct (skipped_line_changes_nothing atom_with_bad_z Hatom Hskip) as (_ & H & _).
  destruct (H two_atoms [] 10%float) as [Hscan _].
  rewrite app_nil_r in Hscan. exact Hscan.
Defined.

End DockBoxFacts.

(* ===================================================================== *)
(** * Properties of run_docking *)
(* ===================================================================== *)

Module DockingFacts.
Import Text Docking.
Local Open Scope list_scope.

(** ** Strings *)

Lemma append_assoc (s t u : string) : (s +:+ t) +:+ u = s +:+ (t +:+ u).
Proof.
  induction s as [|c s IH]; [reflexivity|].
  change (String c ((s +:+ t) +:+ u) = String c (s +:+ (t +:+ u))).
  now rewrite IH.
Qed.

Lemma append_empty_r (s : string) : s +:+ EmptyString = s.
Proof.
  induction s as [|c s IH]; [reflexivity|].
  change (String c (s +:+ EmptyString) = String c s). now rewrite IH.
Qed.

Lemma summary_rows_app rs rs' :
  summary_rows (rs ++ rs') = summary_rows rs +:+ summary_rows rs'.
Proof.
  induction rs as [|r rs IH]; [reflexivity|].
  change (summary_rows ((r :: rs) ++ rs'))
    with (summary_row r +:+ summary_rows (rs ++ rs')).
  change (summary_rows (r :: rs)) with (summary_row r +:+ summary_rows rs).
  now rewrite IH, append_assoc.
Qed.

Section Environment.

Variable str_float : float -> string.
Variable path_join : string -> string -> string.
Variable vina : list string -> process.

Local Abbreviation command := (vina_command str_float path_join).
Local Abbreviation log_path := (vina_log_file path_join).
Local Abbreviation score := (ligand_score str_float path_join vina).
Local Abbreviation step := (dock_ligand str_float path_join vina).
Local Abbreviation run := (run_docking str_float path_join vina).

(** What one directory entry adds to [docking_results]. *)
Definition recorded (a : arguments) (ligand_file : string)
  : list docking_result :=
  if is_ligand_file ligand_file then
    match score a ligand_file with
    | Some energy => [DockingResult ligand_file energy]
    | None => []
    end
  else [].

(** What one directory entry adds to the commands run. *)
Definition invoked (a : arguments) (ligand_file : string)
  : list (list string) :=
  if is_ligand_file ligand_file then [command a ligand_file] else [].

(** The capture file is read back as it was written. *)
Lemma read_after_write (fs : gmap string string) (path stdout : string) :
  read_binding_energy (<[path := stdout]> fs) path =
  extract_binding_energy (file_lines stdout).
Proof.
  unfold read_binding_energy. rewrite lookup_insert_eq.
  destruct stdout; reflexivity.
Qed.

(** One iteration of the loop, field by field. *)
Lemma step_effect a w f :
  docking_results (step a w f) = docking_results w ++ recorded a f /\
  summary_log (step a w f) = summary_log w +:+ summary_rows (recorded a f) /\
  commands (step a w f) = commands w ++ invoked a f.
Proof.
  unfold dock_ligand, recorded, invoked, ligand_score.
  destruct (is_ligand_file f).
  - destruct (vina (command a f)) as [rc out err|].
    + destruct (rc =? 0) eqn:E; simpl.
      * rewrite read_after_write.
        destruct (extract_binding_energy (file_lines out)); simpl;
          rewrite ?app_nil_r, ?append_empty_r; auto.
      * rewrite app_nil_r, append_empty_r. auto.
    + simpl. rewrite app_nil_r, append_empty_r. auto.
  - rewrite !app_nil_r. simpl. rewrite append_empty_r. auto.
Qed.

Lemma step_not_ligand a w f : is_ligand_file f = false -> step a w f = w.
Proof. intros H. unfold dock_ligand. now rewrite H. Qed.

Lemma fold_step_effect a l : forall w,
  docking_results (fold_left (step a) l w)
    = docking_results w ++ flat_map (recorded a) l /\
  summary_log (fold_left (step a) l w)
    = summary_log w +:+ summary_rows (flat_map (recorded a) l) /\
  commands (fold_left (step a) l w)
    = commands w ++ flat_map (invoked a) l.
Proof.
  induction l as [|f l IH]; intros w; simpl.
  - rewrite !app_nil_r, append_empty_r. auto.
  - destruct (IH (step a w f)) as (-> & -> & ->).
    destruct (step_effect a w f) as (-> & -> & ->).
    rewrite summary_rows_app, append_assoc, <- !app_assoc. auto.
Qed.

Lemma fold_step_filter a l : forall w,
  fold_left (step a) l w = fold_left (step a) (List.filter is_ligand_file l) w.
Proof.
  induction l as [|f l IH]; intros w; simpl; [reflexivity|].
  destruct (is_ligand_file f) eqn:E; simpl.
  - apply IH.
  - rewrite step_not_ligand by exact E. apply IH.
Qed.

Lemma run_effect a l fs :
  docking_results (run a l fs) = flat_map (recorded a) l /\
  summary_log (run a l fs)
    = summary_header +:+ summary_rows (flat_map (recorded a) l) /\
  commands (run a l fs) = flat_map (invoked a) l.
Proof.
  unfold run_docking.
  destruct (fold_step_effect a l (World fs summary_header [] []))
    as (-> & -> & ->). auto.
Qed.

Lemma recorded_ligand a f r :
  In r (recorded a f) ->
  ligand r = f /\ is_ligand_file f = true /\ score a f = Some (binding_energy r).
Proof.
  unfold recorded. destruct (is_ligand_file f); [|intros []].
  destruct (score a f) as [e|]; [|intros []].
  intros [<- | []]. auto.
Qed.

Lemma flat_map_invoked a l :
  flat_map (invoked a) l = map (command a) (List.filter is_ligand_file l).
Proof.
  induction l as [|f l IH]; simpl; [reflexivity|]. unfold invoked at 1.
  destruct (is_ligand_file f); simpl; now rewrite IH.
Qed.

(** When every ligand file succeeds, there is one record for each. *)
Lemma recorded_all_succeed a l :
  (forall f, In f l -> is_ligand_file f = true -> exists e, score a f = Some e) ->
  map ligand (flat_map (recorded a) l) = List.filter is_ligand_file l.
Proof.
  induction l as [|f l IH]; intros H; simpl; [reflexivity|].
  rewrite map_app, IH by (intros; apply H; [now right | assumption]).
  unfold recorded. destruct (is_ligand_file f) eqn:E; [|reflexivity].
  destruct (H f (or_introl eq_refl) E) as [e ->]. reflexivity.
Qed.


Lemma extract_first_result_line before line after :
  Forall (fun l => startswith l result_marker = false) before ->
  startswith line result_marker = true ->
  extract_binding_energy (before ++ line :: after) = nth_error (split line) 3.
Proof.
  intros Hb Hl. induction Hb as [|l before Hl0 _ IH].
  - change (extract_binding_energy ([] ++ line :: after))
      with (if startswith line result_marker
            then if (4 <=? List.length (split line))%nat
                 then nth_error (split line) 3 else None
            else extract_binding_energy after).
    rewrite Hl.
    destruct (Nat.leb_spec 4 (List.length (split line))); [reflexivity|].
    symmetry. apply nth_error_None. lia.
  - change (extract_binding_energy ((l :: before) ++ line :: after))
      with (if startswith l result_marker
            then if (4 <=? List.length (split l))%nat
                 then nth_error (split l) 3 else None
            else extract_binding_energy (before ++ line :: after)).
    now rewrite Hl0.
Qed.

Lemma extract_no_result_line lines :
  Forall (fun l => startswith l result_marker = false) lines ->
  extract_binding_energy lines = None.
Proof.
  induction 1 as [|l lines Hl _ IH]; [reflexivity|].
  change (extract_binding_energy (l :: lines))
    with (if startswith l result_marker
          then if (4 <=? List.length (split l))%nat
               then nth_error (split l) 3 else None
          else extract_binding_energy lines).
  now rewrite Hl.
Qed.

Lemma step_files a w f path :
  files (step a w f) !! path = files w !! path \/
  (is_ligand_file f = true /\ path = log_path a f).
Proof.
  unfold dock_ligand. destruct (is_ligand_file f); [|now left].
  destruct (vina (command a f)) as [rc out err|]; [|now left].
  destruct (negb (rc =? 0)); [now left|].
  destruct (decide (log_path a f = path)) as [<- | Hne]; [now right|].
  left. destruct (read_binding_energy _ _); simpl;
    now rewrite lookup_insert_ne.
Qed.

Lemma fold_step_files a l : forall w path,
  files (fold_left (step a) l w) !! path = files w !! path \/
  exists f, In f l /\ is_ligand_file f = true /\ path = log_path a f.
Proof.
  induction l as [|f l IH]; intros w path; simpl; [now left|].
  destruct (IH (step a w f) path) as [E | (g & Hg & Hlig & Hp)].
  - destruct (step_files a w f path) as [E' | [Hlig Hp]].
    + left. congruence.
    + right. exists f. auto.
  - right. exists g. auto.
Qed.

(** ** The claims *)

(** C1, as amended. A ligand whose engine run ends with a non-zero status is left
    out, and only that: the result is that of the batch without it, it
    holds the record of every other ligand that succeeds, the engine is
    still run for the files that follow, and when all the others succeed
    the result has one record per other ligand, in directory order, so
    N - 1 records. *)
Theorem failed_ligand_is_left_out a pre k post fs rc out err :
  is_ligand_file k = true ->
  vina (command a k) = Completed rc out err ->
  rc <> 0 ->
  let w := run a (pre ++ k :: post) fs in
  docking_results w = docking_results (run a (pre ++ post) fs) /\
  ~ In k (map ligand (docking_results w)) /\
  (forall f e,
      In f (pre ++ post) -> is_ligand_file f = true -> score a f = Some e ->
      In (DockingResult f e) (docking_results w)) /\
  commands w = map (command a) (List.filter is_ligand_file (pre ++ k :: post)) /\
  ((forall f, In f (pre ++ post) -> is_ligand_file f = true ->
              exists e, score a f = Some e) ->
   map ligand (docking_results w) = List.filter is_ligand_file (pre ++ post) /\
   List.length (docking_results w) =
     (List.length (List.filter is_ligand_file (pre ++ k :: post)) - 1)%nat).
Proof.
  intros Hk Hv Hrc w.
  assert (Hscore : score a k = None).
  { unfold ligand_score. rewrite Hv.
    destruct (Z.eqb_spec rc 0); [contradiction | reflexivity]. }
  assert (Hrec : recorded a k = []).
  { unfold recorded. now rewrite Hk, Hscore. }
  destruct (run_effect a (pre ++ k :: post) fs) as (Hr & _ & Hc).
  destruct (run_effect a (pre ++ post) fs) as (Hr' & _ & _).
  fold w in Hr, Hc.
  assert (Hsame : docking_results w = flat_map (recorded a) (pre ++ post)).
  { rewrite Hr, !flat_map_app. simpl. now rewrite Hrec. }
  split; [now rewrite Hsame, Hr'|]. split; [|split; [|split]].
  - rewrite Hsame. intros Hin. apply in_map_iff in Hin.
    destruct Hin as (r & Hlig & Hin). apply in_flat_map in Hin.
    destruct Hin as (f & _ & Hin). apply recorded_ligand in Hin.
    destruct Hin as (Hf & _ & Hs). rewrite Hlig in Hf. subst f. congruence.
  - intros f e Hin Hlig Hs. rewrite Hsame. apply in_flat_map.
    exists f. split; [exact Hin|]. unfold recorded. rewrite Hlig, Hs. now left.
  - now rewrite Hc, flat_map_invoked.
  - intros Hall. rewrite Hsame.
    pose proof (recorded_all_succeed a (pre ++ post) Hall) as Hmap.
    split; [exact Hmap|].
    rewrite <- (List.length_map ligand), Hmap, !List.filter_app, !List.length_app. simpl.
    rewrite Hk. simpl. lia.
Qed.

(** C3. When the engine ends with status 0, the score recorded for the
    ligand is the fourth field of the first line of its output that
    starts with the marker; if that line has fewer than four fields, or
    no line starts with the marker, nothing is recorded for the ligand:
    no entry in the result and no row in the summary. *)
Theorem score_from_first_result_line a w f out err :
  is_ligand_file f = true ->
  vina (command a f) = Completed 0 out err ->
  (forall before line after,
      file_lines out = before ++ line :: after ->
      Forall (fun l => startswith l result_marker = false) before ->
      startswith line result_marker = true ->
      score a f = nth_error (split line) 3 /\
      docking_results (step a w f) =
        docking_results w ++
        match nth_error (split line) 3 with
        | Some energy => [DockingResult f energy]
        | None => []
        end) /\
  (Forall (fun l => startswith l result_marker = false) (file_lines out) ->
   score a f = None /\
   docking_results (step a w f) = docking_results w /\
   summary_log (step a w f) = summary_log w).
Proof.
  intros Hlig Hv.
  assert (Hs : score a f = extract_binding_energy (file_lines out)).
  { unfold ligand_score. now rewrite Hv. }
  destruct (step_effect a w f) as (Hr & Hsum & _).
  unfold recorded in Hr, Hsum. rewrite Hlig, Hs in Hr, Hsum.
  split.
  - intros before line after Hlines Hb Hl.
    rewrite Hs, Hr, Hlines, extract_first_result_line by assumption.
    split; reflexivity.
  - intros Hnone. rewrite extract_no_result_line in Hs, Hr, Hsum by assumption.
    simpl in Hr, Hsum. rewrite app_nil_r in Hr. rewrite append_empty_r in Hsum.
    auto.
Qed.

(** C8. The text written to the summary file is the header line
    "Ligand TAB Binding Energy (kcal/mol) LF" followed by one row, ligand
    TAB score LF, for each record of the returned list, in the order of
    that list, and nothing else.  The records are those of the listed
    ligand files whose engine run yields a score, one for each and in
    the order of the listing.  A ligand whose engine cannot be started,
    exits with a non-zero status or prints no result line yields no
    score: it contributes no row, and the summary is that of the listing
    without it.  A ligand file with a score contributes exactly its
    row. *)
Theorem summary_is_header_and_rows a listing fs :
  let w := run a listing fs in
  summary_log w = summary_header +:+ summary_rows (docking_results w) /\
  summary_header = "Ligand" +:+ tab +:+ "Binding Energy (kcal/mol)" +:+ newline /\
  summary_rows [] = EmptyString /\
  (forall r rs,
      summary_rows (r :: rs) =
      ligand r +:+ tab +:+ binding_energy r +:+ newline +:+ summary_rows rs) /\
  docking_results w = flat_map (recorded a) listing /\
  (forall f,
      recorded a f =
      if is_ligand_file f then
        match score a f with
        | Some energy => [DockingResult f energy]
        | None => []
        end
      else []) /\
  (forall f, vina (command a f) = RunError -> score a f = None) /\
  (forall f rc out err,
      vina (command a f) = Completed rc out err -> rc <> 0 -> score a f = None) /\
  (forall f out err,
      vina (command a f) = Completed 0 out err ->
      score a f = extract_binding_energy (file_lines out) /\
      (Forall (fun l => startswith l result_marker = false) (file_lines out) ->
       score a f = None)) /\
  (forall pre k post,
      is_ligand_file k = false \/ score a k = None ->
      summary_log (run a (pre ++ k :: post) fs) =
      summary_log (run a (pre ++ post) fs)) /\
  (forall l f energy,
      is_ligand_file f = true -> score a f = Some energy ->
      summary_log (run a (l ++ [f]) fs) =
      summary_log (run a l fs) +:+ f +:+ tab +:+ energy +:+ newline).
Proof.
  intros w. unfold w.
  destruct (run_effect a listing fs) as (Hr & Hs & _).
  split; [now rewrite Hs, Hr|]. split; [reflexivity|]. split; [reflexivity|].
  split.
  { intros r rs. simpl. unfold summary_row. now rewrite !append_assoc. }
  split; [exact Hr|]. split; [reflexivity|].
  split; [intros f Hv; unfold ligand_score; now rewrite Hv|].
  split.
  { intros f rc out err Hv Hrc. unfold ligand_score. rewrite Hv.
    destruct (Z.eqb_spec rc 0); [contradiction | reflexivity]. }
  split.
  { intros f out err Hv.
    assert (E : score a f = extract_binding_energy (file_lines out))
      by (unfold ligand_score; now rewrite Hv).
    split; [exact E|]. intros Hnone. rewrite E.
    now apply extract_no_result_line. }
  split.
  - intros pre k post Hk.
    assert (Hrec : recorded a k = []).
    { unfold recorded. destruct Hk as [-> | ->]; [reflexivity|].
      now destruct (is_ligand_file k). }
    destruct (run_effect a (pre ++ k :: post) fs) as (_ & -> & _).
    destruct (run_effect a (pre ++ post) fs) as (_ & -> & _).
    rewrite !flat_map_app. simpl. now rewrite Hrec.
  - intros l f energy Hf He.
    destruct (run_effect a (l ++ [f]) fs) as (_ & -> & _).
    destruct (run_effect a l fs) as (_ & -> & _).
    rewrite flat_map_app, summary_rows_app. simpl. rewrite app_nil_r.
    unfold recorded. rewrite Hf, He. simpl. unfold summary_row. simpl.
    now rewrite append_empty_r, !append_assoc.
Qed.

(** C9. Only the directory entries whose lower-cased name ends with
    ".pdbqt" count: the run is the run on those entries alone; another
    entry changes nothing; the engine is run once per such entry and for
    nothing else; every record is for such an entry; and a file that
    differs after the run is the capture file of such an entry. *)
Theorem only_pdbqt_entries_are_docked a listing fs :
  run a listing fs = run a (List.filter is_ligand_file listing) fs /\
  (forall w f, is_ligand_file f = false -> step a w f = w) /\
  commands (run a listing fs) =
    map (command a) (List.filter is_ligand_file listing) /\
  (forall r, In r (docking_results (run a listing fs)) ->
             In (ligand r) listing /\ is_ligand_file (ligand r) = true) /\
  (forall path, files (run a listing fs) !! path <> fs !! path ->
                exists f, In f listing /\ is_ligand_file f = true
                          /\ path = log_path a f).
Proof.
  split; [apply fold_step_filter|].
  split; [intros w f; apply step_not_ligand|].
  destruct (run_effect a listing fs) as (Hr & _ & Hc).
  split; [now rewrite Hc, flat_map_invoked|]. split.
  - intros r Hin. rewrite Hr in Hin. apply in_flat_map in Hin.
    destruct Hin as (f & Hf & Hin). apply recorded_ligand in Hin.
    destruct Hin as (-> & Hlig & _). auto.
  - intros path Hne. unfold run_docking in Hne.
    destruct (fold_step_files a listing (World fs summary_header [] []) path)
      as [E | H]; [contradiction | exact H].
Qed.

End Environment.

Example is_ligand_file_examples :
  map is_ligand_file
      ["lig.pdbqt"; "LIG.PDBQT"; "a.b.PdbQt"; ".pdbqt"; "lig.pdbqt.bak";
       "lig.pdb"; "pdbqt"; "notes.txt"]
  = [true; true; true; true; false; false; false; false].
Proof. reflexivity. Qed.

(** ** A batch of three ligands *)

Definition example_arguments : arguments :=
  {| receptor := "receptor.pdbqt";
     center_x := 5; center_y := 3; center_z := 2;
     size_x := 20; size_y := 16; size_z := 14;
     num_modes := 20; exhaustiveness := 10; spacing := 0.375;
     ligand_folder := "ligands"; out_folder := "out";
     log_file := "docking_global_log.log"; vina_exe := "vina" |}.

(** Python's [str] on the floats of [example_arguments]. *)
Definition example_str_float (x : float) : string :=
  if (x =? 5)%float then "5.0" else if (x =? 3)%float then "3.0"
  else if (x =? 2)%float then "2.0" else if (x =? 20)%float then "20.0"
  else if (x =? 16)%float then "16.0" else if (x =? 14)%float then "14.0"
  else "0.375".

Definition example_stdout : string :=
  "AutoDock Vina v1.2.5" +:+ newline +:+
  "REMARK VINA RESULT: -7.2 0 0" +:+ newline +:+
  "REMARK VINA RESULT: -6.9 1.8 2.4" +:+ newline.

(** The engine of the example: it fails on [b.pdbqt] and on [d.pdbqt], and
    succeeds on every other ligand, with [example_stdout]. *)
Definition example_vina (command : list string) : process :=
  match nth_error command 4 with
  | Some path =>
      if String.eqb path "ligands/b.pdbqt" || String.eqb path "ligands/d.pdbqt"
      then Completed 1 EmptyString "PDBQT parsing error"
      else Completed 0 example_stdout EmptyString
  | None => RunError
  end.

Lemma failed_ligand_is_left_out_example :
  let run := run_docking example_str_float posix_join example_vina
                         example_arguments in
  docking_results (run ["a.pdbqt"; "b.pdbqt"; "notes.txt"; "c.PDBQT"] ∅)
    = docking_results (run ["a.pdbqt"; "notes.txt"; "c.PDBQT"] ∅) /\
  docking_results (run ["a.pdbqt"; "b.pdbqt"; "notes.txt"; "c.PDBQT"] ∅)
    = [DockingResult "a.pdbqt" "-7.2"; DockingResult "c.PDBQT" "-7.2"].
Proof.
  intros run.
  destruct (failed_ligand_is_left_out example_str_float posix_join example_vina
              example_arguments ["a.pdbqt"] "b.pdbqt" ["notes.txt"; "c.PDBQT"]
              ∅ 1 EmptyString "PDBQT parsing error" eq_refl eq_refl
              ltac:(discriminate)) as (Hsame & _).
  split; [exact Hsame | vm_compute; reflexivity].
Defined.

(** C1, as stated, fails when another ligand fails too: of three ligand
    files, [b.pdbqt] ends with status 1 and so does [d.pdbqt]; the result
    has one record, not two. *)
Lemma two_failures_leave_fewer_records :
  let run := run_docking example_str_float posix_join example_vina
                         example_arguments in
  let listing := ["a.pdbqt"; "b.pdbqt"; "d.pdbqt"] in
  List.filter is_ligand_file listing = listing /\
  List.length listing = 3%nat /\
  example_vina (vina_command example_str_float posix_join example_arguments "b.pdbqt")
    = Completed 1 EmptyString "PDBQT parsing error" /\
  docking_results (run listing ∅) = [DockingResult "a.pdbqt" "-7.2"] /\
  List.length (docking_results (run listing ∅)) <> (3 - 1)%nat.
Proof. repeat split; try (vm_compute; reflexivity). vm_compute. discriminate. Qed.

Lemma score_from_first_result_line_example :
  docking_results
    (dock_ligand example_str_float posix_join example_vina example_arguments
                 (World ∅ summary_header [] []) "a.pdbqt")
  = [DockingResult "a.pdbqt" "-7.2"].
Proof.
  destruct (score_from_first_result_line example_str_float posix_join
              example_vina example_arguments (World ∅ summary_header [] [])
              "a.pdbqt" example_stdout EmptyString eq_refl eq_refl) as (Hfirst & _).
  destruct (Hfirst ["AutoDock Vina v1.2.5" +:+ newline]
                   ("REMARK VINA RESULT: -7.2 0 0" +:+ newline)
                   ["REMARK VINA RESULT: -6.9 1.8 2.4" +:+ newline]
                   eq_refl ltac:(repeat constructor) eq_refl)
    as (_ & Hres).
  exact Hres.
Defined.

(** The summary of the batch: [b.pdbqt] fails and [notes.txt] is no
    ligand file, so the header is followed by the rows of [a.pdbqt] and
    [c.PDBQT]. *)
Lemma summary_is_header_and_rows_example :
  summary_log (run_docking example_str_float posix_join example_vina
                           example_arguments
                           ["a.pdbqt"; "b.pdbqt"; "notes.txt"; "c.PDBQT"] ∅)
  = "Ligand" +:+ tab +:+ "Binding Energy (kcal/mol)" +:+ newline
    +:+ "a.pdbqt" +:+ tab +:+ "-7.2" +:+ newline
    +:+ "c.PDBQT" +:+ tab +:+ "-7.2" +:+ newline.
Proof.
  destruct (summary_is_header_and_rows example_str_float posix_join example_vina
              example_arguments ["a.pdbqt"; "b.pdbqt"; "notes.txt"; "c.PDBQT"] ∅)
    as (Hsum & _ & _ & _ & Hrec & _).
  rewrite Hsum, Hrec. vm_compute. reflexivity.
Defined.

End DockingFacts.

(* ===================================================================== *)
(** * The ligand preparation of run_pipeline *)
(* ===================================================================== *)

Module PipelineFacts.
Import Text Pipeline.
Local Open Scope list_scope.

Section Environment.

Variable path_join : string -> string -> string.
Variable shell : string -> Z.

Local Abbreviation convert := (convert_smiles_to_mol2 path_join shell).
Local Abbreviation command := (obabel_command path_join).

(** The command the loop of [run_pipeline] runs for a row. *)
Definition row_command (mol2_dir : string) (row : string * string) : string :=
  command (clean_smiles (snd row)) (fst row) mol2_dir "obabel".

(** The first conversion that fails ends the loop: the rows after it
    are not converted, and [run_pipeline] raises without running its
    later stages. *)
Lemma first_failure_ends_the_loop before row after mol2_dir :
  Forall (fun r => shell (row_command mol2_dir r) = 0) before ->
  shell (row_command mol2_dir row) <> 0 ->
  prepare_ligands path_join shell (before ++ row :: after) mol2_dir =
    (map (row_command mol2_dir) before ++ [row_command mol2_dir row],
     Raise (CalledProcessError (row_command mol2_dir row)
                               (shell (row_command mol2_dir row)))).
Proof.
  intros Hb Hrow. induction Hb as [|[name smile] before Hr _ IH].
  - destruct row as [name smile]. simpl. unfold convert_smiles_to_mol2.
    unfold row_command in Hrow. simpl in Hrow.
    destruct (Z.eqb_spec (shell (command (clean_smiles smile) name mol2_dir "obabel")) 0);
      [contradiction | reflexivity].
  - simpl. unfold convert_smiles_to_mol2.
    unfold row_command in Hr. simpl in Hr. rewrite Hr. simpl.
    simpl in IH. rewrite IH. reflexivity.
Qed.

End Environment.

(** A table of three molecules; Open Babel exits with status 1 on the
    second. *)
Definition example_rows : list (string * string) :=
  [ ("ethanol", "CCO"); ("broken", "C1CC"); ("water", "O") ].

Definition example_shell (command : string) : Z :=
  if String.eqb command
       (obabel_command posix_join "C1CC" "broken" "results/mol2_files" "obabel")
  then 1 else 0.

(** C4 at the failing input. [run_pipeline] raises at the molecule that
    cannot be converted: the molecule after it is never converted and the
    later stages do not run. *)
Theorem conversion_failure_aborts_run_pipeline :
  let ethanol := obabel_command posix_join "CCO" "ethanol" "results/mol2_files" "obabel" in
  let broken := obabel_command posix_join "C1CC" "broken" "results/mol2_files" "obabel" in
  run_pipeline posix_join example_shell example_rows "results" (Return tt)
    = ([ethanol; broken], Raise (CalledProcessError broken 1)).
Proof. vm_compute; reflexivity. Qed.

End PipelineFacts.

(* ===================================================================== *)
(** * Facts about texts *)
(* ===================================================================== *)

Module StringFacts.
Import Text CleanPdbqt.
Local Open Scope list_scope.

Lemma app_assoc' (s t u : string) : (s +:+ t) +:+ u = s +:+ (t +:+ u).
Proof.
  induction s as [|c s IH]; [reflexivity|].
  change (String c ((s +:+ t) +:+ u) = String c (s +:+ (t +:+ u))).
  now rewrite IH.
Qed.

Lemma app_empty_r (s : string) : s +:+ EmptyString = s.
Proof.
  induction s as [|c s IH]; [reflexivity|].
  change (String c (s +:+ EmptyString) = String c s). now rewrite IH.
Qed.

Lemma app_cons (c : ascii) (s t : string) : String c s +:+ t = String c (s +:+ t).
Proof. reflexivity. Qed.

Lemma length_app (s t : string) :
  String.length (s +:+ t) = (String.length s + String.length t)%nat.
Proof.
  induction s as [|c s IH]; [reflexivity|].
  rewrite ?app_cons. simpl. now rewrite IH.
Qed.

Lemma app_inv_head (s t u : string) : s +:+ t = s +:+ u -> t = u.
Proof.
  induction s as [|c s IH]; [trivial|].
  rewrite ?app_cons. intros H. injection H as H. auto.
Qed.

(** Slices *)

Lemma slice_to_from (n : nat) (s : string) : slice_to n s +:+ slice_from n s = s.
Proof.
  unfold slice_to. revert s. induction n as [|n IH]; intros [|c s]; simpl; try reflexivity.
  rewrite app_cons. now rewrite IH.
Qed.

Lemma length_slice_to (n : nat) (s : string) :
  String.length (slice_to n s) = Nat.min n (String.length s).
Proof.
  unfold slice_to. revert s. induction n as [|n IH]; intros [|c s]; simpl; try reflexivity.
  now rewrite IH.
Qed.

Lemma length_slice_from (n : nat) (s : string) :
  String.length (slice_from n s) = (String.length s - n)%nat.
Proof.
  revert s. induction n as [|n IH]; intros [|c s]; simpl; try reflexivity; try lia.
  apply IH.
Qed.

Lemma substring_slices (a k : nat) (s : string) :
  substring a k s = slice_to k (slice_from a s).
Proof.
  unfold slice_to. revert s. induction a as [|a IH]; intros s; [reflexivity|].
  destruct s as [|c s]; simpl.
  - destruct k; reflexivity.
  - apply IH.
Qed.

Lemma slice_to_all (n : nat) (s : string) :
  (String.length s <= n)%nat -> slice_to n s = s.
Proof.
  unfold slice_to. revert s. induction n as [|n IH]; intros [|c s] H; simpl in *;
    try reflexivity; try lia.
  rewrite IH by lia. reflexivity.
Qed.

Lemma slice_to_app (s t : string) : slice_to (String.length s) (s +:+ t) = s.
Proof.
  unfold slice_to. induction s as [|c s IH]; simpl.
  - destruct t; reflexivity.
  - rewrite ?app_cons. simpl. now rewrite IH.
Qed.

Lemma slice_from_app (s t : string) : slice_from (String.length s) (s +:+ t) = t.
Proof. induction s as [|c s IH]; simpl; [reflexivity | exact IH]. Qed.

Lemma slice_from_from (a b : nat) (s : string) :
  slice_from a (slice_from b s) = slice_from (b + a) s.
Proof.
  revert s. induction b as [|b IH]; intros s; [reflexivity|].
  destruct s as [|c s]; simpl.
  - destruct a; reflexivity.
  - apply IH.
Qed.

(** Prefixes and suffixes *)

Lemma startswith_app (p s : string) : startswith (p +:+ s) p = true.
Proof.
  unfold startswith. induction p as [|c p IH]; simpl.
  - destruct s; reflexivity.
  - rewrite ?app_cons. destruct (ascii_dec c c); [exact IH | congruence].
Qed.

Lemma startswith_inv (s p : string) :
  startswith s p = true -> exists r, s = p +:+ r.
Proof.
  unfold startswith. revert s. induction p as [|c p IH]; intros s H.
  - exists s. reflexivity.
  - destruct s as [|d s]; [discriminate|]. simpl in H.
    destruct (ascii_dec c d) as [->|]; [|discriminate].
    destruct (IH s H) as [r ->]. exists r. reflexivity.
Qed.

Lemma startswith_app_more (s t p : string) :
  startswith s p = true -> startswith (s +:+ t) p = true.
Proof.
  intros H. destruct (startswith_inv s p H) as [r ->].
  rewrite app_assoc'. apply startswith_app.
Qed.

Lemma endswith_app (s p : string) : endswith (s +:+ p) p = true.
Proof.
  unfold endswith. rewrite length_app.
  replace (String.length s + String.length p - String.length p)%nat
    with (String.length s) by lia.
  rewrite substring_slices, slice_from_app, slice_to_all by lia.
  rewrite String.eqb_refl.
  destruct (Nat.leb_spec (String.length p) (String.length s + String.length p));
    [reflexivity | lia].
Qed.

Lemma endswith_inv (s p : string) :
  endswith s p = true -> exists r, s = r +:+ p.
Proof.
  unfold endswith. intros H. apply andb_prop in H. destruct H as [Hlen Heq].
  apply Nat.leb_le in Hlen. apply String.eqb_eq in Heq.
  rewrite substring_slices in Heq.
  exists (slice_to (String.length s - String.length p) s).
  rewrite <- (slice_to_from (String.length s - String.length p) s) at 1.
  f_equal. rewrite <- Heq at 2. symmetry. apply slice_to_all.
  rewrite length_slice_from. lia.
Qed.

Lemma lower_app (s t : string) : lower (s +:+ t) = lower s +:+ lower t.
Proof.
  induction s as [|c s IH]; [reflexivity|].
  rewrite ?app_cons. simpl. rewrite IH. reflexivity.
Qed.

(** The characters of a text *)

Fixpoint chars (s : string) : list ascii :=
  match s with
  | EmptyString => []
  | String c s' => c :: chars s'
  end.

Lemma chars_app (s t : string) : chars (s +:+ t) = chars s ++ chars t.
Proof.
  induction s as [|c s IH]; [reflexivity|].
  rewrite ?app_cons. simpl. now rewrite IH.
Qed.

Lemma chars_inj (s t : string) : chars s = chars t -> s = t.
Proof.
  revert t. induction s as [|c s IH]; intros [|d t] H; try discriminate; [reflexivity|].
  simpl in H. injection H as -> H. f_equal. auto.
Qed.

Lemma chars_length (s : string) : List.length (chars s) = String.length s.
Proof. induction s as [|c s IH]; simpl; [reflexivity | now rewrite IH]. Qed.

Lemma lstrip_suffix (s : string) : exists w, s = w +:+ lstrip s.
Proof.
  induction s as [|c s [w IH]]; [now exists EmptyString|].
  simpl. destruct (is_space c).
  - exists (String c w). rewrite app_cons. now rewrite <- IH.
  - now exists EmptyString.
Qed.

Lemma rstrip_prefix (s : string) : exists w, s = rstrip s +:+ w.
Proof.
  induction s as [|c s [w IH]]; [now exists EmptyString|].
  simpl. destruct (rstrip s) as [|d t] eqn:E.
  - destruct (is_space c).
    + exists (String c s). reflexivity.
    + exists w. rewrite app_cons. now rewrite <- IH.
  - exists w. rewrite app_cons. now rewrite <- IH.
Qed.

(** A text that [strip] does not shorten is left as it is. *)
Lemma strip_same_length (s : string) :
  String.length (strip s) = String.length s -> strip s = s.
Proof.
  unfold strip. intros H.
  destruct (lstrip_suffix s) as [w1 H1].
  destruct (rstrip_prefix (lstrip s)) as [w2 H2].
  assert (L : String.length s =
              (String.length w1 + (String.length (rstrip (lstrip s)) + String.length w2))%nat).
  { rewrite H1 at 1. rewrite length_app. rewrite H2 at 1. now rewrite length_app. }
  assert (String.length w1 = 0%nat /\ String.length w2 = 0%nat) as [L1 L2] by lia.
  destruct w1; [|discriminate]. destruct w2; [|discriminate].
  rewrite app_empty_r in H2. rewrite <- H2. exact (eq_sym H1).
Qed.

Lemma strip_length_le (s : string) : (String.length (strip s) <= String.length s)%nat.
Proof.
  unfold strip.
  destruct (lstrip_suffix s) as [w1 H1].
  destruct (rstrip_prefix (lstrip s)) as [w2 H2].
  rewrite H1 at 2. rewrite length_app. rewrite H2 at 2. rewrite length_app. lia.
Qed.


(** [lstrip] and [rstrip] *)

Lemma rstrip_cons_nonspace (c : ascii) (s : string) :
  is_space c = false -> rstrip (String c s) = String c (rstrip s).
Proof. intros H. simpl. rewrite H. destruct (rstrip s); reflexivity. Qed.

Lemma rstrip_cons_nonempty (c : ascii) (s : string) :
  rstrip s <> EmptyString -> rstrip (String c s) = String c (rstrip s).
Proof. intros H. simpl. destruct (rstrip s); congruence. Qed.

Lemma rstrip_idempotent (s : string) : rstrip (rstrip s) = rstrip s.
Proof.
  induction s as [|c s IH]; [reflexivity|].
  destruct (string_dec (rstrip s) EmptyString) as [E|E].
  - simpl. rewrite E. destruct (is_space c) eqn:Hc; [reflexivity|].
    simpl. now rewrite Hc.
  - rewrite (rstrip_cons_nonempty c s E).
    rewrite rstrip_cons_nonempty; [now rewrite IH | now rewrite IH].
Qed.

Lemma lstrip_cons_nonspace (c : ascii) (s : string) :
  is_space c = false -> lstrip (String c s) = String c s.
Proof. intros H. simpl. now rewrite H. Qed.

Lemma lstrip_head (s : string) :
  lstrip s = EmptyString \/
  exists c t, lstrip s = String c t /\ is_space c = false.
Proof.
  induction s as [|c s IH]; [now left|].
  simpl. destruct (is_space c) eqn:Hc; [exact IH|].
  right. eauto.
Qed.

Lemma lstrip_idempotent (s : string) : lstrip (lstrip s) = lstrip s.
Proof.
  destruct (lstrip_head s) as [-> | (c & t & -> & Hc)]; [reflexivity|].
  now apply lstrip_cons_nonspace.
Qed.

Lemma rstrip_empty_lstrip (s : string) :
  rstrip s = EmptyString -> lstrip s = EmptyString.
Proof.
  induction s as [|c s IH]; [reflexivity|].
  simpl. destruct (rstrip s) as [|d t]; [|discriminate].
  destruct (is_space c); [intros _; now apply IH | discriminate].
Qed.

Lemma lstrip_rstrip (s : string) : lstrip (rstrip s) = rstrip (lstrip s).
Proof.
  induction s as [|c s IH]; [reflexivity|].
  destruct (is_space c) eqn:Hc.
  - change (lstrip (String c s)) with (if is_space c then lstrip s else String c s).
    rewrite Hc. simpl rstrip at 1.
    destruct (rstrip s) as [|d t] eqn:E.
    + rewrite Hc. rewrite (rstrip_empty_lstrip s E). reflexivity.
    + rewrite <- IH. simpl. now rewrite Hc.
  - rewrite (lstrip_cons_nonspace c s Hc), (rstrip_cons_nonspace c s Hc).
    now apply lstrip_cons_nonspace.
Qed.

(** Every character of a text passes a test. *)
Fixpoint all_chars (p : ascii -> bool) (s : string) : bool :=
  match s with
  | EmptyString => true
  | String c s' => p c && all_chars p s'
  end.

Lemma all_chars_app (p : ascii -> bool) (s t : string) :
  all_chars p (s +:+ t) = all_chars p s && all_chars p t.
Proof.
  induction s as [|c s IH]; [reflexivity|].
  rewrite app_cons. simpl. rewrite IH. now rewrite andb_assoc.
Qed.

Lemma all_chars_weaken (p q : ascii -> bool) (s : string) :
  (forall c, p c = true -> q c = true) ->
  all_chars p s = true -> all_chars q s = true.
Proof.
  intros Hpq. induction s as [|c s IH]; [reflexivity|].
  simpl. rewrite !andb_true_iff. intros [H1 H2]. auto.
Qed.

Lemma all_chars_lstrip (p : ascii -> bool) (s : string) :
  all_chars p s = true -> all_chars p (lstrip s) = true.
Proof.
  destruct (lstrip_suffix s) as [w Hw]. intros H.
  rewrite Hw, all_chars_app, andb_true_iff in H. tauto.
Qed.

Lemma all_chars_rstrip (p : ascii -> bool) (s : string) :
  all_chars p s = true -> all_chars p (rstrip s) = true.
Proof.
  destruct (rstrip_prefix s) as [w Hw]. intros H.
  rewrite Hw, all_chars_app, andb_true_iff in H. tauto.
Qed.


End StringFacts.

(* ===================================================================== *)
(** * Properties of rename_ligand_residue *)
(* ===================================================================== *)

Module CleanPdbqtFacts.
Import Text CleanPdbqt StringFacts.
Local Open Scope list_scope.

(** The three parts of a line. *)
Lemma line_parts (line : string) :
  line = slice_to 17 line +:+ slice 17 20 line +:+ slice_from 20 line.
Proof.
  unfold slice. rewrite substring_slices.
  change (20 - 17)%nat with 3%nat.
  replace (slice_from 20 line) with (slice_from 3 (slice_from 17 line))
    by (rewrite slice_from_from; reflexivity).
  rewrite (slice_to_from 3 (slice_from 17 line)).
  symmetry. apply slice_to_from.
Qed.

Lemma length_slice_17_20 (line : string) :
  (String.length (slice 17 20 line) <= 3)%nat.
Proof.
  unfold slice. rewrite substring_slices, length_slice_to. lia.
Qed.

Lemma slice_nonempty_prefix (line : string) :
  slice 17 20 line <> EmptyString -> String.length (slice_to 17 line) = 17%nat.
Proof.
  intros H. rewrite length_slice_to.
  destruct (Nat.le_gt_cases 17 (String.length line)) as [L | G]; [lia|].
  exfalso. apply H. unfold slice. rewrite substring_slices.
  assert (E : String.length (slice_from 17 line) = 0%nat)
    by (rewrite length_slice_from; lia).
  destruct (slice_from 17 line); [reflexivity | discriminate].
Qed.

(** The parts of a line built from a prefix of 17 characters, a residue
    of three and a rest. *)
Lemma parts_of_built (a r c : string) :
  String.length a = 17%nat -> String.length r = 3%nat ->
  slice_to 17 (a +:+ r +:+ c) = a /\
  slice 17 20 (a +:+ r +:+ c) = r /\
  slice_from 20 (a +:+ r +:+ c) = c.
Proof.
  intros Ha Hr. split; [|split].
  - rewrite <- Ha. apply slice_to_app.
  - unfold slice. change (20 - 17)%nat with 3%nat. rewrite substring_slices.
    rewrite <- Ha, slice_from_app. rewrite <- Hr. apply slice_to_app.
  - change 20%nat with (17 + 3)%nat. rewrite <- slice_from_from.
    rewrite <- Ha, slice_from_app. rewrite <- Hr. apply slice_from_app.
Qed.

(** What [rename_line] does, case by case. *)
Lemma rename_line_cases (old_res new_res line : string) :
  rename_line old_res new_res line = line \/
  (DockBox.is_atom_line line = true /\ strip (slice 17 20 line) = old_res /\
   rename_line old_res new_res line =
     slice_to 17 line +:+ rjust 3 new_res +:+ slice_from 20 line).
Proof.
  unfold rename_line, DockBox.is_atom_line.
  destruct (startswith line "ATOM" || startswith line "HETATM"); [|now left].
  destruct (String.eqb_spec (strip (slice 17 20 line)) old_res); [|now left].
  right. auto.
Qed.

Lemma rjust_exact (s : string) : String.length s = 3%nat -> rjust 3 s = s.
Proof. intros H. unfold rjust. rewrite H. reflexivity. Qed.

(** X1. With residue names of three characters, renaming keeps the length
    of every line and every character outside columns 18 to 20; the
    residue columns are left alone, or held [old_res] and now hold
    [new_res]. *)
Theorem rename_keeps_other_columns (old_res new_res line : string) :
  String.length old_res = 3%nat -> String.length new_res = 3%nat ->
  let line' := rename_line old_res new_res line in
  String.length line' = String.length line /\
  slice_to 17 line' = slice_to 17 line /\
  slice_from 20 line' = slice_from 20 line /\
  (slice 17 20 line' = slice 17 20 line \/
   (slice 17 20 line = old_res /\ slice 17 20 line' = new_res)).
Proof.
  intros Hold Hnew line'. unfold line'.
  destruct (rename_line_cases old_res new_res line) as [-> | (Hatom & Hres & ->)];
    [auto|].
  rewrite rjust_exact by exact Hnew.
  assert (Hr : slice 17 20 line = old_res).
  { rewrite <- Hres. symmetry. apply strip_same_length.
    pose proof (length_slice_17_20 line). pose proof (strip_length_le (slice 17 20 line)).
    rewrite Hres in *. lia. }
  assert (Ha : String.length (slice_to 17 line) = 17%nat).
  { apply slice_nonempty_prefix. rewrite Hr. intros E. rewrite E in Hold. discriminate. }
  destruct (parts_of_built (slice_to 17 line) new_res (slice_from 20 line) Ha Hnew)
    as (P1 & P2 & P3).
  rewrite P1, P2, P3. repeat split; auto.
  transitivity (String.length (slice_to 17 line +:+ slice 17 20 line
                               +:+ slice_from 20 line));
    [|now rewrite <- line_parts].
  rewrite !length_app, Hr, Hold, Hnew. reflexivity.
Qed.

(** X2. When [new_res] has three characters and is another name than
    [old_res], no atom line carries [old_res] after renaming, and renaming
    a second time changes nothing. *)
Theorem rename_removes_old_residue (old_res new_res : string) :
  old_res <> EmptyString -> String.length new_res = 3%nat ->
  strip new_res <> old_res ->
  (forall line,
      strip (slice 17 20 (rename_line old_res new_res line)) = old_res ->
      DockBox.is_atom_line (rename_line old_res new_res line) = false) /\
  (forall lines,
      rename_ligand_residue (rename_ligand_residue lines old_res new_res)
                            old_res new_res
      = rename_ligand_residue lines old_res new_res).
Proof.
  intros Hold Hnew Hdiff.
  assert (Hone : forall line,
             strip (slice 17 20 (rename_line old_res new_res line)) = old_res ->
             DockBox.is_atom_line (rename_line old_res new_res line) = false).
  { intros line.
    destruct (rename_line_cases old_res new_res line) as [E | (Hatom & Hres & E)].
    - rewrite E. intros Hres. unfold rename_line in E.
      unfold DockBox.is_atom_line.
      destruct (startswith line "ATOM" || startswith line "HETATM") eqn:Ha;
        [|reflexivity].
      exfalso. rewrite Hres, String.eqb_refl in E.
      assert (Hne : slice 17 20 line <> EmptyString).
      { intros E0. rewrite E0 in Hres. apply Hold. symmetry. exact Hres. }
      pose proof (slice_nonempty_prefix line Hne) as Hlen.
      destruct (parts_of_built (slice_to 17 line) new_res (slice_from 20 line)
                               Hlen Hnew) as (_ & P2 & _).
      rewrite rjust_exact in E by exact Hnew.
      rewrite E in P2. rewrite P2 in Hres. contradiction.
    - rewrite E, rjust_exact by exact Hnew. intros Hres'.
      assert (Hne : slice 17 20 line <> EmptyString).
      { intros E0. rewrite E0 in Hres. apply Hold. symmetry. exact Hres. }
      pose proof (slice_nonempty_prefix line Hne) as Hlen.
      destruct (parts_of_built (slice_to 17 line) new_res (slice_from 20 line)
                               Hlen Hnew) as (_ & P2 & _).
      rewrite P2 in Hres'. contradiction. }
  split; [exact Hone|].
  intros lines. unfold rename_ligand_residue. rewrite map_map.
  apply map_ext. intros line.
  destruct (rename_line_cases old_res new_res (rename_line old_res new_res line))
    as [E | (Hatom & Hres & _)]; [exact E|].
  rewrite (Hone line Hres) in Hatom. discriminate.
Qed.

Definition unl_atom : string :=
  "ATOM      1  C   UNL A   1      14.982   8.851  32.647  0.00  0.00    +0.034 C".

Lemma rename_keeps_other_columns_example :
  rename_line "UNL" "LIG" unl_atom =
    "ATOM      1  C   LIG A   1      14.982   8.851  32.647  0.00  0.00    +0.034 C" /\
  String.length (rename_line "UNL" "LIG" unl_atom) = String.length unl_atom.
Proof.
  split; [reflexivity|].
  exact (proj1 (rename_keeps_other_columns "UNL" "LIG" unl_atom eq_refl eq_refl)).
Defined.

Lemma rename_removes_old_residue_example :
  rename_ligand_residue (rename_ligand_residue [unl_atom; "REMARK UNL"] "UNL" "LIG")
                        "UNL" "LIG"
  = rename_ligand_residue [unl_atom; "REMARK UNL"] "UNL" "LIG".
Proof.
  apply (rename_removes_old_residue "UNL" "LIG"); [discriminate | reflexivity |].
  vm_compute. discriminate.
Defined.

End CleanPdbqtFacts.

(* ===================================================================== *)
(** * Properties of normalize_pdbqt_format *)
(* ===================================================================== *)

Module NormalizeFormatFacts.
Import Text NormalizeFormat StringFacts.
Local Open Scope list_scope.

(** The characters from space to tilde. *)
Definition printable (c : ascii) : bool :=
  let n := N_of_ascii c in ((32 <=? n) && (n <=? 126))%N.

(** A line as [normalize_pdbqt_format] leaves it: printable characters only,
    no white space at its end, and a MODEL or ENDMDL record starts in the
    first column. *)
Definition tidy (line : string) : Prop :=
  all_chars printable line = true /\
  rstrip line = line /\
  (startswith (lstrip line) "MODEL" || startswith (lstrip line) "ENDMDL" = true ->
   lstrip line = line).

(** The text made of [lines], each followed by [ending]. *)
Fixpoint terminated (ending : string) (lines : list string) : string :=
  match lines with
  | [] => EmptyString
  | line :: rest => line +:+ ending +:+ terminated ending rest
  end.

Lemma printable_kept (c : ascii) :
  printable c = true -> kept c = true /\ line_boundary c = false.
Proof.
  destruct c as [[] [] [] [] [] [] [] []]; vm_compute; intros H;
    try discriminate H; repeat split.
Qed.

Lemma kept_cases (c : ascii) :
  kept c = true -> printable c = true \/ c = CR \/ c = LF.
Proof.
  destruct c as [[] [] [] [] [] [] [] []]; vm_compute; intros H;
    try discriminate H; auto.
Qed.

Lemma kept_not_boundary (c : ascii) :
  kept c = true -> line_boundary c = false -> printable c = true.
Proof.
  destruct c as [[] [] [] [] [] [] [] []]; vm_compute; intros H H';
    try discriminate H; try discriminate H'; auto.
Qed.

(** ** Removing the other characters *)

Lemma remove_unprintable_kept (s : string) :
  all_chars kept (remove_unprintable s) = true.
Proof.
  induction s as [|c s IH]; [reflexivity|].
  simpl. destruct (kept c) eqn:Hc; [|exact IH].
  simpl. now rewrite Hc.
Qed.

Lemma remove_unprintable_fixed (s : string) :
  all_chars kept s = true -> remove_unprintable s = s.
Proof.
  induction s as [|c s IH]; [reflexivity|].
  simpl. rewrite andb_true_iff. intros [-> H]. now rewrite IH.
Qed.

(** ** Splitting into lines *)

Lemma splitlines_printable_upto (n : nat) : forall s,
  (String.length s <= n)%nat ->
  all_chars kept s = true ->
  List.Forall (fun l => all_chars printable l = true) (splitlines s).
Proof.
  induction n as [|n IH]; intros s Hn Hk.
  - destruct s; [constructor | simpl in Hn; lia].
  - destruct s as [|c s]; [constructor|].
    simpl in Hn. simpl in Hk. apply andb_true_iff in Hk as [Hc Hs].
    simpl. destruct (line_boundary c) eqn:Hb.
    + constructor; [reflexivity|].
      destruct s as [|c' s']; [constructor|].
      destruct (Ascii.eqb c CR && Ascii.eqb c' LF).
      * apply IH; [simpl in Hn; lia|].
        simpl in Hs. apply andb_true_iff in Hs. tauto.
      * apply IH; [lia | exact Hs].
    + pose proof (IH s ltac:(lia) Hs) as HF.
      pose proof (kept_not_boundary c Hc Hb) as Hp.
      destruct (splitlines s) as [|line rest].
      * constructor; [simpl; now rewrite Hp | constructor].
      * inversion HF; subst. constructor; [simpl; now rewrite Hp | assumption].
Qed.

Lemma splitlines_printable (s : string) :
  all_chars kept s = true ->
  List.Forall (fun l => all_chars printable l = true) (splitlines s).
Proof. apply (splitlines_printable_upto (String.length s)). lia. Qed.

Lemma splitlines_line (ending rest : string) (line : string) :
  all_chars printable line = true ->
  splitlines (ending +:+ rest) = EmptyString :: splitlines rest ->
  splitlines (line +:+ ending +:+ rest) = line :: splitlines rest.
Proof.
  intros Hp He. induction line as [|c line IH]; [exact He|].
  simpl in Hp. apply andb_true_iff in Hp as [Hc Hl].
  rewrite app_cons. simpl.
  destruct (printable_kept c Hc) as (_ & ->).
  now rewrite (IH Hl).
Qed.

Lemma splitlines_newline (rest : string) :
  splitlines (newline +:+ rest) = EmptyString :: splitlines rest.
Proof. destruct rest; reflexivity. Qed.

Lemma splitlines_crlf (rest : string) :
  splitlines (crlf +:+ rest) = EmptyString :: splitlines rest.
Proof. reflexivity. Qed.

Lemma splitlines_terminated (ending : string) (lines : list string) :
  (forall rest, splitlines (ending +:+ rest) = EmptyString :: splitlines rest) ->
  List.Forall (fun l => all_chars printable l = true) lines ->
  splitlines (terminated ending lines) = lines.
Proof.
  intros He. induction 1 as [|line lines Hl _ IH]; [reflexivity|].
  simpl. rewrite (splitlines_line ending _ line Hl (He _)). now rewrite IH.
Qed.

Lemma all_chars_terminated (ending : string) (lines : list string) :
  all_chars kept ending = true ->
  List.Forall (fun l => all_chars printable l = true) lines ->
  all_chars kept (terminated ending lines) = true.
Proof.
  intros He. induction 1 as [|line lines Hl _ IH]; [reflexivity|].
  simpl. rewrite !all_chars_app, He, IH, !andb_true_r.
  apply (all_chars_weaken printable); [|exact Hl].
  intros c Hc. now apply printable_kept.
Qed.

(** ** Joining the lines *)

Lemma join_terminated (line : string) (lines : list string) :
  String.concat crlf (line :: lines) +:+ crlf = terminated crlf (line :: lines).
Proof.
  revert line. induction lines as [|l lines IH]; intros line.
  - simpl. now rewrite app_empty_r.
  - change (String.concat crlf (line :: l :: lines))
      with (line +:+ crlf +:+ String.concat crlf (l :: lines)).
    rewrite !app_assoc', IH. reflexivity.
Qed.

(** ** One line *)

Lemma clean_line_tidy (line : string) :
  all_chars printable line = true -> tidy (clean_line line).
Proof.
  intros Hp. unfold clean_line.
  destruct (startswith (lstrip line) "MODEL" || startswith (lstrip line) "ENDMDL")
    eqn:Hm.
  - split; [now apply all_chars_rstrip, all_chars_lstrip|].
    split; [apply rstrip_idempotent|]. intros _.
    rewrite lstrip_rstrip. now rewrite lstrip_idempotent.
  - split; [now apply all_chars_rstrip|].
    split; [apply rstrip_idempotent|].
    rewrite lstrip_rstrip. intros H. exfalso.
    destruct (rstrip_prefix (lstrip line)) as [w Hw].
    apply orb_true_iff in H. apply orb_false_iff in Hm as [Hm1 Hm2].
    destruct H as [H|H]; apply (startswith_app_more _ w) in H;
      rewrite <- Hw in H; congruence.
Qed.

Lemma clean_line_fixed (line : string) : tidy line -> clean_line line = line.
Proof.
  intros (_ & Hr & Hm). unfold clean_line.
  destruct (startswith (lstrip line) "MODEL" || startswith (lstrip line) "ENDMDL");
    [rewrite Hm by reflexivity|]; exact Hr.
Qed.

Lemma map_clean_line_fixed (lines : list string) :
  List.Forall tidy lines -> map clean_line lines = lines.
Proof.
  induction 1 as [|l lines Hl _ IH]; [reflexivity|].
  simpl. now rewrite clean_line_fixed, IH.
Qed.

Lemma tidy_printable (lines : list string) :
  List.Forall tidy lines ->
  List.Forall (fun l => all_chars printable l = true) lines.
Proof. apply List.Forall_impl. now intros l [H _]. Qed.

(** ** The whole text *)

Lemma normalize_terminated (ending : string) (lines : list string) :
  all_chars kept ending = true ->
  (forall rest, splitlines (ending +:+ rest) = EmptyString :: splitlines rest) ->
  lines <> [] ->
  List.Forall (fun l => all_chars printable l = true) lines ->
  normalize_text (terminated ending lines) =
  terminated crlf (map clean_line lines).
Proof.
  intros Hk He Hne Hp. unfold normalize_text.
  rewrite (remove_unprintable_fixed _ (all_chars_terminated ending lines Hk Hp)).
  rewrite (splitlines_terminated ending lines He Hp).
  destruct lines as [|l lines]; [congruence|]. apply join_terminated.
Qed.

Lemma normalize_lines (text : string) :
  exists lines,
    lines <> [] /\
    normalize_text text = terminated crlf lines /\
    List.Forall tidy lines.
Proof.
  unfold normalize_text.
  pose proof (splitlines_printable _ (remove_unprintable_kept text)) as Hp.
  destruct (splitlines (remove_unprintable text)) as [|l ls].
  - exists [EmptyString]. split; [discriminate|]. split; [reflexivity|].
    constructor; [|constructor]. repeat split.
  - exists (map clean_line (l :: ls)). split; [discriminate|].
    split; [apply join_terminated|].
    apply List.Forall_map. revert Hp. apply List.Forall_impl.
    intros a. apply clean_line_tidy.
Qed.

(** X3. [normalize_pdbqt_format] writes a text of CRLF-terminated lines (at
    least one), each of printable characters only, without white space at
    its end, and with MODEL and ENDMDL records starting in the first
    column. *)
Theorem normalized_text_shape (text : string) :
  exists lines,
    lines <> [] /\
    normalize_text text = terminated crlf lines /\
    List.Forall tidy lines.
Proof. apply normalize_lines. Qed.

(** X4. Normalising a normalised file changes nothing. *)
Theorem normalize_text_idempotent (text : string) :
  normalize_text (normalize_text text) = normalize_text text.
Proof.
  destruct (normalize_lines text) as (lines & Hne & -> & Ht).
  rewrite (normalize_terminated crlf lines eq_refl splitlines_crlf Hne
             (tidy_printable lines Ht)).
  now rewrite map_clean_line_fixed.
Qed.

(** X5. A Unix text of printable lines, each ended by LF, becomes the same
    lines cleaned and ended by CR LF; lines that are already tidy are kept
    character for character. *)
Theorem unix_text_to_crlf (lines : list string) :
  lines <> [] ->
  List.Forall (fun l => all_chars printable l = true) lines ->
  normalize_text (terminated newline lines) =
    terminated crlf (map clean_line lines) /\
  (List.Forall tidy lines ->
   normalize_text (terminated newline lines) = terminated crlf lines).
Proof.
  intros Hne Hp.
  pose proof (normalize_terminated newline lines eq_refl splitlines_newline Hne Hp)
    as H.
  split; [exact H|]. intros Ht. now rewrite H, map_clean_line_fixed.
Qed.

Lemma unix_text_to_crlf_example :
  normalize_text
    (terminated newline ["  MODEL 1  "; "ATOM      1  C   UNL"; "ENDMDL"]) =
  terminated crlf ["MODEL 1"; "ATOM      1  C   UNL"; "ENDMDL"].
Proof.
  refine (proj1 (unix_text_to_crlf
                   ["  MODEL 1  "; "ATOM      1  C   UNL"; "ENDMDL"] _ _)).
  - discriminate.
  - repeat constructor.
Defined.

End NormalizeFormatFacts.

(* ===================================================================== *)
(** * Properties of the converters to PDBQT *)
(* ===================================================================== *)

Module ConverterFacts.
Import Text Docking StringFacts.
Local Open Scope list_scope.

(** ** File names and their extensions *)

Lemma last_dot_extension (r ext : string) :
  last_dot ext = None ->
  last_dot (r +:+ String "." ext) = Some (String.length r).
Proof.
  intros He. induction r as [|c r IH].
  - change (last_dot (String "." ext) = Some 0%nat). simpl. now rewrite He.
  - rewrite app_cons. simpl. now rewrite IH.
Qed.

Lemma splitext_root_extension (r ext : string) :
  only_dots r = false -> last_dot ext = None ->
  splitext_root (r +:+ String "." ext) = r.
Proof.
  intros Hr He. unfold splitext_root.
  rewrite (last_dot_extension r ext He).
  change (substring 0 (String.length r) (r +:+ String "." ext))
    with (CleanPdbqt.slice_to (String.length r) (r +:+ String "." ext)).
  now rewrite slice_to_app, Hr.
Qed.

Lemma only_dots_splitext_root (name : string) :
  only_dots name = false -> only_dots (splitext_root name) = false.
Proof.
  intros H. unfold splitext_root. destruct (last_dot name) as [d|]; [|exact H].
  destruct (only_dots (substring 0 d name)) eqn:E; [exact H | exact E].
Qed.

Lemma only_dots_app_false (s t : string) :
  only_dots t = false -> only_dots (s +:+ t) = false.
Proof.
  intros H. induction s as [|c s IH]; [exact H|].
  rewrite app_cons. simpl. rewrite IH. apply andb_false_r.
Qed.

Lemma lower_char_dot (c : ascii) :
  Ascii.eqb (lower_char c) "." = Ascii.eqb c ".".
Proof. destruct c as [[] [] [] [] [] [] [] []]; reflexivity. Qed.

Lemma only_dots_lower (s : string) : only_dots (lower s) = only_dots s.
Proof.
  induction s as [|c s IH]; [reflexivity|].
  simpl. now rewrite lower_char_dot, IH.
Qed.

Lemma extension_not_only_dots (name ext : string) :
  only_dots ext = false ->
  endswith (lower name) ext = true -> only_dots name = false.
Proof.
  intros He H. apply endswith_inv in H as [r Hr].
  rewrite <- only_dots_lower, Hr. now apply only_dots_app_false.
Qed.

Fixpoint last_char (s : string) : option ascii :=
  match s with
  | EmptyString => None
  | String c EmptyString => Some c
  | String _ s' => last_char s'
  end.

Lemma last_char_app (s : string) (c : ascii) (t : string) :
  last_char (s +:+ String c t) = last_char (String c t).
Proof.
  induction s as [|d s IH]; [reflexivity|].
  rewrite app_cons.
  change (last_char (String d (s +:+ String c t)))
    with (match s +:+ String c t with
          | EmptyString => Some d
          | _ => last_char (s +:+ String c t)
          end).
  rewrite <- IH. destruct s; reflexivity.
Qed.

Lemma is_ligand_file_pdbqt (r : string) : is_ligand_file (r +:+ ".pdbqt") = true.
Proof. unfold is_ligand_file. rewrite lower_app. apply endswith_app. Qed.

Lemma is_ligand_file_log (r : string) : is_ligand_file (r +:+ ".log") = false.
Proof.
  unfold is_ligand_file. rewrite lower_app.
  destruct (endswith (lower r +:+ lower ".log") ".pdbqt") eqn:E; [|reflexivity].
  apply endswith_inv in E as [w Hw].
  apply (f_equal last_char) in Hw.
  change (lower ".log") with (String "." "log") in Hw.
  change ".pdbqt" with (String "." "pdbqt") in Hw.
  rewrite !last_char_app in Hw. discriminate Hw.
Qed.

(** ** convert_mol2_to_pdbqt *)

Section Mol2.
Import Mol2ToPdbqt.

Variable path_join : string -> string -> string.
Variable run : list string -> run_result.
Variables input_folder output_folder : string.
Variable prepare_ligand_cmd : list string.

Local Abbreviation cmd :=
  (Mol2ToPdbqt.command path_join prepare_ligand_cmd input_folder output_folder).
Local Abbreviation loop listing :=
  (convert_from path_join run listing input_folder output_folder prepare_ligand_cmd).

(** The conversion of [mol2_file] exits with status 0. *)
Definition converted (mol2_file : string) : bool :=
  match run (cmd mol2_file) with
  | Exited status => status =? 0
  | LaunchError => false
  end.

Lemma convert_from_all_launched listing : forall ran pdbqt_files,
  (forall f, In f listing -> is_mol2_file f = true -> run (cmd f) <> LaunchError) ->
  loop listing ran pdbqt_files =
    (ran ++ map cmd (List.filter is_mol2_file listing),
     Some (pdbqt_files ++
           map (pdbqt_path path_join output_folder)
               (List.filter (fun f => is_mol2_file f && converted f) listing))).
Proof.
  induction listing as [|f listing IH]; intros ran pdbqt_files H.
  - simpl. now rewrite !app_nil_r.
  - assert (H' : forall g, In g listing -> is_mol2_file g = true ->
                           run (cmd g) <> LaunchError)
      by (intros g Hg; apply H; now right).
    simpl. destruct (is_mol2_file f) eqn:Hf; simpl; [|now apply IH].
    pose proof (H f (or_introl eq_refl) Hf) as Hl.
    unfold converted at 1.
    destruct (run (cmd f)) as [status|]; [|congruence].
    destruct (status =? 0); rewrite (IH _ _ H'), <- ?app_assoc; reflexivity.
Qed.

Lemma convert_from_launch_error before f after : forall ran pdbqt_files,
  (forall g, In g before -> is_mol2_file g = true -> run (cmd g) <> LaunchError) ->
  is_mol2_file f = true -> run (cmd f) = LaunchError ->
  loop (before ++ f :: after) ran pdbqt_files =
    (ran ++ map cmd (List.filter is_mol2_file before) ++ [cmd f], None).
Proof.
  induction before as [|g before IH]; intros ran pdbqt_files H Hf Hl.
  - simpl. now rewrite Hf, Hl.
  - assert (H' : forall h, In h before -> is_mol2_file h = true ->
                           run (cmd h) <> LaunchError)
      by (intros h Hh; apply H; now right).
    simpl. destruct (is_mol2_file g) eqn:Hg; simpl; [|now apply IH].
    pose proof (H g (or_introl eq_refl) Hg) as Hgl.
    destruct (run (cmd g)) as [status|]; [|congruence].
    destruct (status =? 0); rewrite (IH _ _ H' Hf Hl), <- ?app_assoc; reflexivity.
Qed.

(** X6. When the conversion program can be started for every MOL2 file of the
    folder, [convert_mol2_to_pdbqt] runs it once for each of them, in
    directory order, whatever the exit statuses are, and returns the PDBQT
    paths of exactly the files whose conversion exited with status 0: a
    failed conversion is passed over and does not stop the others. *)
Theorem failed_conversion_is_passed_over (listing : list string) :
  (forall f, In f listing -> is_mol2_file f = true -> run (cmd f) <> LaunchError) ->
  convert_mol2_to_pdbqt path_join run listing input_folder output_folder
                        prepare_ligand_cmd =
    (map cmd (List.filter is_mol2_file listing),
     Some (map (pdbqt_path path_join output_folder)
               (List.filter (fun f => is_mol2_file f && converted f) listing))).
Proof.
  intros H. unfold convert_mol2_to_pdbqt.
  now rewrite (convert_from_all_launched listing [] [] H).
Qed.

(** X7. When the conversion program cannot be started for a MOL2 file, the
    exception is not caught: no list is returned, and the files after it
    in the directory are not converted. *)
Theorem launch_error_ends_conversion (before : list string) (f : string)
        (after : list string) :
  (forall g, In g before -> is_mol2_file g = true -> run (cmd g) <> LaunchError) ->
  is_mol2_file f = true -> run (cmd f) = LaunchError ->
  convert_mol2_to_pdbqt path_join run (before ++ f :: after)
                        input_folder output_folder prepare_ligand_cmd =
    (map cmd (List.filter is_mol2_file before) ++ [cmd f], None).
Proof.
  intros H Hf Hl. unfold convert_mol2_to_pdbqt.
  now rewrite (convert_from_launch_error before f after [] [] H Hf Hl).
Qed.

End Mol2.

(** ** From a MOL2 file to the docking output *)

Section Names.

Variable str_float : float -> string.
Variable path_join : string -> string -> string.

(** X8. The PDBQT file written for a MOL2 file is one [run_docking] takes as
    a ligand, its docking output and capture file are named after the
    MOL2 file, and of these two only the output has a name ending in
    ".pdbqt", as the last step of the pipeline requires. *)
Theorem converted_file_is_docked (a : arguments) (folder mol2_file : string) :
  Mol2ToPdbqt.is_mol2_file mol2_file = true ->
  exists ligand_file,
    Mol2ToPdbqt.pdbqt_path path_join folder mol2_file =
      path_join folder ligand_file /\
    is_ligand_file ligand_file = true /\
    output_file path_join a ligand_file =
      path_join (out_folder a)
                ("docking_" +:+ splitext_root mol2_file +:+ ".pdbqt") /\
    vina_log_file path_join a ligand_file =
      path_join (out_folder a)
                ("docking_" +:+ splitext_root mol2_file +:+ ".log") /\
    is_ligand_file ("docking_" +:+ splitext_root mol2_file +:+ ".pdbqt") = true /\
    is_ligand_file ("docking_" +:+ splitext_root mol2_file +:+ ".log") = false.
Proof.
  intros Hm. exists (splitext_root mol2_file +:+ ".pdbqt").
  assert (Hroot : splitext_root (splitext_root mol2_file +:+ ".pdbqt")
                  = splitext_root mol2_file).
  { apply (splitext_root_extension _ "pdbqt"); [|reflexivity].
    apply only_dots_splitext_root.
    now apply (extension_not_only_dots mol2_file ".mol2"). }
  split; [reflexivity|]. split; [apply is_ligand_file_pdbqt|].
  unfold output_file, vina_log_file. rewrite Hroot.
  split; [reflexivity|]. split; [reflexivity|].
  rewrite <- !app_assoc'.
  split; [apply is_ligand_file_pdbqt | apply is_ligand_file_log].
Qed.

End Names.

(** ** convert_pdb_to_pdbqt *)

Section Pdb.
Import PdbToPdbqt.

Variable path_join : string -> string -> string.
Variable basename : string -> string.
Variable run : list string -> Z.

(** X9. [convert_pdb_to_pdbqt] returns a path only when both Open Babel
    commands exit with status 0, and then it is the path given to the
    second command after "-O"; the second command is run only when the
    first exits with status 0; otherwise the error raised carries the
    command that failed, which is the last one run. *)
Theorem receptor_conversion_outcome (pdb_file output_folder obabel_exe : string)
        (extra_args : list string) :
  let c1 := comm path_join basename pdb_file output_folder obabel_exe in
  let c2 := PdbToPdbqt.command path_join basename pdb_file output_folder
                               obabel_exe extra_args in
  let result := convert_pdb_to_pdbqt path_join basename run pdb_file
                                     output_folder obabel_exe extra_args in
  (forall path, snd result = inr path <-> (run c1 = 0 /\ run c2 = 0 /\
                  path = pdbqt_file path_join basename pdb_file output_folder)) /\
  (forall c rc, snd result = inl (CalledProcessErrorOf c rc) ->
                rc = run c /\ rc <> 0 /\ List.last (fst result) [] = c) /\
  (In c2 (fst result) -> c1 <> c2 -> run c1 = 0) /\
  nth_error c1 3 = Some (charged_pdb path_join basename pdb_file output_folder) /\
  nth_error c2 1 = Some (charged_pdb path_join basename pdb_file output_folder) /\
  nth_error c2 3 = Some (pdbqt_file path_join basename pdb_file output_folder) /\
  skipn 7 c2 = extra_args ++ extra_args.
Proof.
  intros c1 c2 result.
  assert (Hargs : nth_error c2 1 = Some (charged_pdb path_join basename pdb_file output_folder)
                  /\ nth_error c2 3 = Some (pdbqt_file path_join basename pdb_file output_folder)
                  /\ skipn 7 c2 = extra_args ++ extra_args).
  { unfold c2, PdbToPdbqt.command. destruct extra_args as [|x xs].
    - repeat split.
    - rewrite <- app_assoc. repeat split. }
  unfold result, convert_pdb_to_pdbqt. fold c1. fold c2.
  destruct (Z.eqb_spec (run c1) 0) as [E1|E1]; simpl.
  - destruct (Z.eqb_spec (run c2) 0) as [E2|E2]; simpl.
    + split; [|split; [|split; [|split]]]; auto.
      * intros path. split; [intros [= <-]; auto | intros (_ & _ & ->); reflexivity].
      * intros c rc [=].
    + split; [|split; [|split; [|split]]]; auto.
      * intros path. split; [intros [=] | intros (_ & H & _); contradiction].
      * intros c rc [= <- <-]. auto.
  - split; [|split; [|split; [|split]]]; auto.
    + intros path. split; [intros [=] | intros (H & _); contradiction].
    + intros c rc [= <- <-]. auto.
    + intros [H|[]] Hne. contradiction.
Qed.

End Pdb.

(** ** A folder of three MOL2 files *)

(** The command line of [run_pipeline], line 37. *)
Definition example_cmdline : list string := ["obabel"; "-imol2"; "-opdbqt"].

(** Open Babel exits with status 1 on [b.mol2] and with 0 on every other
    file. *)
Definition example_run (command : list string) : Mol2ToPdbqt.run_result :=
  match nth_error command 3 with
  | Some path =>
      if String.eqb path "mol2_files/b.mol2" then Mol2ToPdbqt.Exited 1
      else Mol2ToPdbqt.Exited 0
  | None => Mol2ToPdbqt.LaunchError
  end.

(** Open Babel cannot be started on [b.mol2]. *)
Definition unstartable_run (command : list string) : Mol2ToPdbqt.run_result :=
  match nth_error command 3 with
  | Some path =>
      if String.eqb path "mol2_files/b.mol2" then Mol2ToPdbqt.LaunchError
      else Mol2ToPdbqt.Exited 0
  | None => Mol2ToPdbqt.LaunchError
  end.

Lemma failed_conversion_is_passed_over_example :
  snd (Mol2ToPdbqt.convert_mol2_to_pdbqt
         posix_join example_run ["a.mol2"; "b.mol2"; "notes.txt"; "C.MOL2"]
         "mol2_files" "ligands_pdbqt" example_cmdline)
  = Some ["ligands_pdbqt/a.pdbqt"; "ligands_pdbqt/C.pdbqt"].
Proof.
  rewrite (failed_conversion_is_passed_over posix_join example_run
             "mol2_files" "ligands_pdbqt" example_cmdline
             ["a.mol2"; "b.mol2"; "notes.txt"; "C.MOL2"]).
  - reflexivity.
  - intros f [<- | [<- | [<- | [<- | []]]]] _; vm_compute; discriminate.
Defined.

Lemma launch_error_ends_conversion_example :
  snd (Mol2ToPdbqt.convert_mol2_to_pdbqt
         posix_join unstartable_run ["a.mol2"; "b.mol2"; "notes.txt"; "C.MOL2"]
         "mol2_files" "ligands_pdbqt" example_cmdline)
  = None.
Proof.
  refine (f_equal snd
            (launch_error_ends_conversion posix_join unstartable_run
               "mol2_files" "ligands_pdbqt" example_cmdline
               ["a.mol2"] "b.mol2" ["notes.txt"; "C.MOL2"] _ eq_refl eq_refl)).
  intros g [<- | []] _; vm_compute; discriminate.
Defined.

Lemma converted_file_is_docked_example :
  exists ligand_file,
    Mol2ToPdbqt.pdbqt_path posix_join "ligands_pdbqt" "aspirin.mol2" =
      posix_join "ligands_pdbqt" ligand_file /\
    is_ligand_file ligand_file = true /\
    output_file posix_join DockingFacts.example_arguments ligand_file =
      "out/docking_aspirin.pdbqt" /\
    vina_log_file posix_join DockingFacts.example_arguments ligand_file =
      "out/docking_aspirin.log" /\
    is_ligand_file "docking_aspirin.pdbqt" = true /\
    is_ligand_file "docking_aspirin.log" = false.
Proof.
  exact (converted_file_is_docked posix_join DockingFacts.example_arguments
           "ligands_pdbqt" "aspirin.mol2" eq_refl).
Defined.

End ConverterFacts.

(* ===================================================================== *)
(** * More on calculate_docking_box *)
(* ===================================================================== *)

Module DockBoxExtrema.
Import Text PyFloat DockBox FloatOrder FloatRound DockBoxFacts.
Local Open Scope list_scope.

(** ** Comparisons *)

Lemma ltb_eqb_false x y : (x <? y)%float = true -> (x =? y)%float = false.
Proof.
  rewrite FloatAxioms.ltb_spec, FloatAxioms.eqb_spec. unfold SFltb, SFeqb.
  destruct (SFcompare (Prim2SF x) (Prim2SF y)) as [[]|]; congruence.
Qed.

Lemma leb_not_ltb x y : (x <=? y)%float = true -> (y <? x)%float = false.
Proof.
  rewrite FloatAxioms.leb_spec, FloatAxioms.ltb_spec. unfold SFleb.
  destruct (SFcompare (Prim2SF x) (Prim2SF y)) as [[]|] eqn:E; try discriminate;
    intros _.
  - pose proof (SFcompare_Eq_same _ _ E) as Hs.
    unfold SFltb. rewrite (sf_same_compare_r _ _ (Prim2SF y) Hs).
    destruct (SFcompare (Prim2SF y) (Prim2SF y)) as [[]|] eqn:E'; try reflexivity.
    exfalso.
    assert (Hl : SFltb (Prim2SF y) (Prim2SF y) = true) by (unfold SFltb; now rewrite E').
    pose proof (SFltb_asym _ _ Hl). congruence.
  - apply SFltb_asym. unfold SFltb. now rewrite E.
Qed.

Lemma nan_not_ltb_l x y : is_nan x = true -> (x <? y)%float = false.
Proof.
  intros H. destruct (x <? y)%float eqn:E; [|reflexivity].
  apply ltb_not_nan in E. destruct E. congruence.
Qed.

Lemma nan_not_ltb_r x y : is_nan y = true -> (x <? y)%float = false.
Proof.
  intros H. destruct (x <? y)%float eqn:E; [|reflexivity].
  apply ltb_not_nan in E. destruct E. congruence.
Qed.

(** ** The running minimum and the sentinel *)

Lemma running_min_sentinel vs :
  Forall (fun v => (v <? infinity)%float = false) vs ->
  fold_left (fun m x => min2 x m) vs infinity = infinity.
Proof.
  induction 1 as [|v vs Hv _ IH]; [reflexivity|].
  simpl. unfold min2 at 2. now rewrite Hv.
Qed.

Lemma running_min_below vs : forall m,
  (m <? infinity)%float = true ->
  (fold_left (fun m x => min2 x m) vs m <? infinity)%float = true.
Proof.
  induction vs as [|v vs IH]; intros m Hm; [exact Hm|].
  simpl. apply IH. unfold min2. destruct (v <? m)%float eqn:E; [|exact Hm].
  now apply (ltb_trans v m).
Qed.

Lemma running_min_some_below vs :
  Exists (fun v => (v <? infinity)%float = true) vs ->
  (fold_left (fun m x => min2 x m) vs infinity <? infinity)%float = true.
Proof.
  induction vs as [|v vs IH]; intros H; [inversion H|].
  simpl. unfold min2 at 2. destruct (v <? infinity)%float eqn:E.
  - now apply running_min_below.
  - apply IH. inversion H; subst; [congruence | assumption].
Qed.

Lemma min_x_scan lines :
  min_x (scan lines) =
  fold_left (fun m x => min2 x m) (xs (valid_triples lines)) infinity.
Proof.
  rewrite scan_valid_triples.
  now destruct (fold_update_fields (valid_triples lines) initial_bounds) as (-> & _).
Qed.

(** X10. [calculate_docking_box] raises its [ValueError] exactly when no
    accepted line has an x coordinate below positive infinity: the file
    has no accepted line at all, or each accepted x is [inf] or [nan].
    The y and z coordinates play no part. *)
Theorem no_valid_lines_exactly (lines : list string) (padding : float) :
  calculate_docking_box lines padding = Raise no_valid_lines <->
  Forall (fun x => (x <? infinity)%float = false) (xs (valid_triples lines)).
Proof.
  unfold calculate_docking_box, box_of_bounds. rewrite min_x_scan.
  set (vs := xs (valid_triples lines)).
  destruct (List.Forall_Exists_dec (fun x => (x <? infinity)%float = false)
              (fun x => bool_dec _ _) vs) as [Hall | Hsome].
  - rewrite (running_min_sentinel vs Hall).
    change (infinity =? infinity)%float with true. tauto.
  - assert (Hex : Exists (fun v => (v <? infinity)%float = true) vs).
    { revert Hsome. apply List.Exists_impl. intros v Hv.
      destruct (v <? infinity)%float; congruence. }
    rewrite (ltb_eqb_false _ _ (running_min_some_below vs Hex)).
    split; [discriminate|]. intros Hall. exfalso.
    apply List.Exists_exists in Hex as (v & Hin & Hv).
    rewrite List.Forall_forall in Hall. rewrite (Hall v Hin) in Hv. discriminate.
Qed.

(** ** Every accepted coordinate lies between the extrema *)

Lemma fold_min_not_above vs m0 v :
  is_nan m0 = false -> In v vs ->
  (v <? fold_left (fun m x => min2 x m) vs m0)%float = false.
Proof.
  intros H0 Hin. destruct (running_min_spec vs m0 H0) as (Hn & _ & _ & Hle).
  destruct (is_nan v) eqn:Hv; [now apply nan_not_ltb_l|].
  apply leb_not_ltb. now apply Hle.
Qed.

Lemma fold_max_not_below vs m0 v :
  is_nan m0 = false -> In v vs ->
  (fold_left (fun m x => max2 x m) vs m0 <? v)%float = false.
Proof.
  intros H0 Hin. destruct (running_max_spec vs m0 H0) as (Hn & _ & _ & Hle).
  destruct (is_nan v) eqn:Hv; [now apply nan_not_ltb_r|].
  apply leb_not_ltb. now apply Hle.
Qed.

Lemma in_xs t ts : In t ts -> In (fst (fst t)) (xs ts).
Proof. exact (in_map (fun t => fst (fst t)) ts t). Qed.

Lemma in_ys t ts : In t ts -> In (snd (fst t)) (ys ts).
Proof. exact (in_map (fun t => snd (fst t)) ts t). Qed.

Lemma in_zs t ts : In t ts -> In (snd t) (zs ts).
Proof. exact (in_map (fun t => snd t) ts t). Qed.

(** No comparison of the loop moves an extremum for a triple that has
    been through the loop already. *)
Lemma accepted_triple_inside ts t :
  In t ts ->
  let b := fold_left update ts initial_bounds in
  (fst (fst t) <? min_x b)%float = false /\ (max_x b <? fst (fst t))%float = false /\
  (snd (fst t) <? min_y b)%float = false /\ (max_y b <? snd (fst t))%float = false /\
  (snd t <? min_z b)%float = false /\ (max_z b <? snd t)%float = false.
Proof.
  intros Hin b. unfold b.
  destruct (fold_update_fields ts initial_bounds) as (-> & -> & -> & -> & -> & ->).
  pose proof (in_xs t ts Hin). pose proof (in_ys t ts Hin).
  pose proof (in_zs t ts Hin).
  repeat split; (apply fold_min_not_above || apply fold_max_not_below);
    solve [reflexivity | assumption].
Qed.

Lemma update_inside b t :
  (fst (fst t) <? min_x b)%float = false -> (max_x b <? fst (fst t))%float = false ->
  (snd (fst t) <? min_y b)%float = false -> (max_y b <? snd (fst t))%float = false ->
  (snd t <? min_z b)%float = false -> (max_z b <? snd t)%float = false ->
  update b t = b.
Proof.
  destruct t as [[x y] z]. simpl. intros H1 H2 H3 H4 H5 H6.
  unfold update. rewrite H1, H2, H3, H4, H5, H6. now destruct b.
Qed.

Lemma scan_app lines more :
  scan (lines ++ more) = fold_left update (valid_triples more) (scan lines).
Proof.
  rewrite !scan_valid_triples, valid_triples_app. apply fold_left_app.
Qed.

(** X11. The six extrema are never NaN, and every coordinate of an accepted
    line that is not NaN lies between the minimum and the maximum of its
    axis, infinite coordinates included. *)
Theorem extrema_enclose_accepted_coordinates (lines : list string) :
  let b := scan lines in
  (is_nan (min_x b) = false /\ is_nan (max_x b) = false /\
   is_nan (min_y b) = false /\ is_nan (max_y b) = false /\
   is_nan (min_z b) = false /\ is_nan (max_z b) = false) /\
  forall x y z, In (x, y, z) (valid_triples lines) ->
    (is_nan x = false ->
     (min_x b <=? x)%float = true /\ (x <=? max_x b)%float = true) /\
    (is_nan y = false ->
     (min_y b <=? y)%float = true /\ (y <=? max_y b)%float = true) /\
    (is_nan z = false ->
     (min_z b <=? z)%float = true /\ (z <=? max_z b)%float = true).
Proof.
  intros b. unfold b. rewrite scan_valid_triples.
  set (ts := valid_triples lines).
  destruct (fold_update_fields ts initial_bounds) as (-> & -> & -> & -> & -> & ->).
  simpl.
  destruct (running_min_spec (xs ts) infinity eq_refl) as (N1 & _ & _ & L1).
  destruct (running_max_spec (xs ts) neg_infinity eq_refl) as (N2 & _ & _ & L2).
  destruct (running_min_spec (ys ts) infinity eq_refl) as (N3 & _ & _ & L3).
  destruct (running_max_spec (ys ts) neg_infinity eq_refl) as (N4 & _ & _ & L4).
  destruct (running_min_spec (zs ts) infinity eq_refl) as (N5 & _ & _ & L5).
  destruct (running_max_spec (zs ts) neg_infinity eq_refl) as (N6 & _ & _ & L6).
  split; [tauto|]. intros x y z Hin.
  pose proof (in_xs _ _ Hin) as Hx. pose proof (in_ys _ _ Hin) as Hy.
  pose proof (in_zs _ _ Hin) as Hz. simpl in Hx, Hy, Hz.
  repeat split; auto.
Qed.

(** X12. Lines added to a file can only widen the extrema: no minimum grows
    and no maximum shrinks. *)
Theorem more_lines_only_widen (lines more : list string) :
  let b := scan lines in
  let b' := scan (lines ++ more) in
  (min_x b' <=? min_x b)%float = true /\ (max_x b <=? max_x b')%float = true /\
  (min_y b' <=? min_y b)%float = true /\ (max_y b <=? max_y b')%float = true /\
  (min_z b' <=? min_z b)%float = true /\ (max_z b <=? max_z b')%float = true.
Proof.
  intros b b'. unfold b'. rewrite scan_app. fold b.
  assert (Hn : is_nan (min_x b) = false /\ is_nan (max_x b) = false /\
               is_nan (min_y b) = false /\ is_nan (max_y b) = false /\
               is_nan (min_z b) = false /\ is_nan (max_z b) = false).
  { unfold b. rewrite scan_valid_triples.
    set (ts := valid_triples lines).
    destruct (fold_update_fields ts initial_bounds) as (-> & -> & -> & -> & -> & ->).
    simpl.
    destruct (running_min_spec (xs ts) infinity eq_refl) as (N1 & _).
    destruct (running_max_spec (xs ts) neg_infinity eq_refl) as (N2 & _).
    destruct (running_min_spec (ys ts) infinity eq_refl) as (N3 & _).
    destruct (running_max_spec (ys ts) neg_infinity eq_refl) as (N4 & _).
    destruct (running_min_spec (zs ts) infinity eq_refl) as (N5 & _).
    destruct (running_max_spec (zs ts) neg_infinity eq_refl) as (N6 & _).
    tauto. }
  destruct Hn as (N1 & N2 & N3 & N4 & N5 & N6).
  set (us := valid_triples more).
  destruct (fold_update_fields us b) as (-> & -> & -> & -> & -> & ->).
  destruct (running_min_spec (xs us) _ N1) as (_ & _ & L1 & _).
  destruct (running_max_spec (xs us) _ N2) as (_ & _ & L2 & _).
  destruct (running_min_spec (ys us) _ N3) as (_ & _ & L3 & _).
  destruct (running_max_spec (ys us) _ N4) as (_ & _ & L4 & _).
  destruct (running_min_spec (zs us) _ N5) as (_ & _ & L5 & _).
  destruct (running_max_spec (zs us) _ N6) as (_ & _ & L6 & _).
  tauto.
Qed.

(** X13. Atoms that are in the file already change nothing when they come
    again: if every triple accepted from [more] is accepted from [lines]
    too, the extrema and the result are those of [lines], bit for bit. *)
Theorem repeated_atoms_change_nothing (lines more : list string) :
  (forall t, In t (valid_triples more) -> In t (valid_triples lines)) ->
  scan (lines ++ more) = scan lines /\
  forall padding,
    calculate_docking_box (lines ++ more) padding =
    calculate_docking_box lines padding.
Proof.
  intros Hsub.
  assert (H : scan (lines ++ more) = scan lines).
  { rewrite scan_app. revert Hsub.
    induction (valid_triples more) as [|t us IH]; intros Hsub; [reflexivity|].
    simpl. rewrite update_inside.
    - apply IH. intros u Hu. apply Hsub. now right.
    - rewrite scan_valid_triples. apply accepted_triple_inside, Hsub. now left.
    - rewrite scan_valid_triples. apply accepted_triple_inside, Hsub. now left.
    - rewrite scan_valid_triples. apply accepted_triple_inside, Hsub. now left.
    - rewrite scan_valid_triples. apply accepted_triple_inside, Hsub. now left.
    - rewrite scan_valid_triples. apply accepted_triple_inside, Hsub. now left.
    - rewrite scan_valid_triples. apply accepted_triple_inside, Hsub. now left.
  }
  split; [exact H|]. intros padding. unfold calculate_docking_box. now rewrite H.
Qed.

Lemma repeated_atoms_change_nothing_example :
  scan (two_atoms ++ two_atoms) = scan two_atoms.
Proof.
  refine (proj1 (repeated_atoms_change_nothing two_atoms two_atoms _)).
  intros t H. exact H.
Defined.

End DockBoxExtrema.

(* ===================================================================== *)
(** * More on run_docking *)
(* ===================================================================== *)

Module DockingRuns.
Import Text Docking DockingFacts StringFacts.
Local Open Scope list_scope.

Section Environment.

Variable str_float : float -> string.
Variable path_join : string -> string -> string.
Variable vina : list string -> process.

Local Abbreviation command := (vina_command str_float path_join).
Local Abbreviation log_path := (vina_log_file path_join).
Local Abbreviation score := (ligand_score str_float path_join vina).
Local Abbreviation step := (dock_ligand str_float path_join vina).
Local Abbreviation run := (run_docking str_float path_join vina).
Local Abbreviation recorded := (DockingFacts.recorded str_float path_join vina).
Local Abbreviation invoked := (DockingFacts.invoked str_float path_join).
Local Abbreviation run_effect := (DockingFacts.run_effect str_float path_join vina).

(** What the capture file of [ligand_file] holds after its engine run, when
    it held [before] (or did not exist): the output of the engine if it
    exited with status 0, and what it held before otherwise. *)
Definition capture (a : arguments) (ligand_file : string)
           (before : option string) : option string :=
  match vina (command a ligand_file) with
  | Completed returncode stdout _ =>
      if returncode =? 0 then Some stdout else before
  | RunError => before
  end.

(** The files one iteration leaves. *)
Definition written (a : arguments) (fs : gmap string string)
           (ligand_file : string) : gmap string string :=
  if is_ligand_file ligand_file then
    match vina (command a ligand_file) with
    | Completed returncode stdout _ =>
        if returncode =? 0 then <[log_path a ligand_file := stdout]> fs else fs
    | RunError => fs
    end
  else fs.

Lemma step_written a w f : files (step a w f) = written a (files w) f.
Proof.
  unfold dock_ligand, written. destruct (is_ligand_file f); [|reflexivity].
  destruct (vina (command a f)) as [rc out err|]; [|reflexivity].
  destruct (rc =? 0); [|reflexivity]. simpl.
  destruct (read_binding_energy _ _); reflexivity.
Qed.

Lemma fold_step_written a l : forall w,
  files (fold_left (step a) l w) = fold_left (written a) l (files w).
Proof.
  induction l as [|f l IH]; intros w; [reflexivity|].
  simpl. now rewrite IH, step_written.
Qed.

Lemma written_own a fs f :
  is_ligand_file f = true ->
  written a fs f !! log_path a f = capture a f (fs !! log_path a f).
Proof.
  intros Hf. unfold written, capture. rewrite Hf.
  destruct (vina (command a f)) as [rc out err|]; [|reflexivity].
  destruct (rc =? 0); [|reflexivity]. apply lookup_insert_eq.
Qed.

Lemma written_other a fs g path :
  (is_ligand_file g = true -> log_path a g <> path) ->
  written a fs g !! path = fs !! path.
Proof.
  intros H. unfold written. destruct (is_ligand_file g); [|reflexivity].
  destruct (vina (command a g)) as [rc out err|]; [|reflexivity].
  destruct (rc =? 0); [|reflexivity]. apply lookup_insert_ne. now apply H.
Qed.

Lemma capture_twice a f before : capture a f (capture a f before) = capture a f before.
Proof.
  unfold capture. destruct (vina (command a f)) as [rc out err|]; [|reflexivity].
  destruct (rc =? 0); reflexivity.
Qed.

Lemma fold_written_capture a f l : forall fs,
  is_ligand_file f = true ->
  (forall g, In g l -> is_ligand_file g = true ->
             log_path a g = log_path a f -> g = f) ->
  fold_left (written a) l fs !! log_path a f =
    if in_dec string_dec f l then capture a f (fs !! log_path a f)
    else fs !! log_path a f.
Proof.
  intros fs Hf. revert fs. induction l as [|g l IH]; intros fs Hl; [reflexivity|].
  assert (Hl' : forall h, In h l -> is_ligand_file h = true ->
                          log_path a h = log_path a f -> h = f)
    by (intros h Hh; apply Hl; now right).
  change (fold_left (written a) (g :: l) fs)
    with (fold_left (written a) l (written a fs g)).
  rewrite (IH _ Hl').
  destruct (string_dec g f) as [-> | Hne].
  - rewrite (written_own a fs f Hf), capture_twice.
    destruct (in_dec string_dec f (f :: l)) as [_ | Hn]; [|exfalso; apply Hn; now left].
    destruct (in_dec string_dec f l); reflexivity.
  - rewrite (written_other a fs g (log_path a f)).
    + destruct (in_dec string_dec f l) as [Hin | Hn];
        destruct (in_dec string_dec f (g :: l)) as [Hin' | Hn']; try reflexivity.
      * exfalso. apply Hn'. now right.
      * destruct Hin' as [E | Hin']; [congruence | contradiction].
    + intros Hg E. apply Hne. apply Hl; [now left | assumption | assumption].
Qed.

(** ** What a run returns does not depend on the files found *)

(** X14. The list returned, the summary and the commands run are put together
    from the engine runs of the ligands, one after the other: a listing in
    two parts gives the results of the first part followed by those of the
    second, and the capture files found under [out_folder] before the
    run (those of an earlier run, for one) have no influence. *)
Theorem results_are_put_together_per_ligand (a : arguments)
        (l1 l2 : list string) (fs fs1 fs2 : gmap string string) :
  docking_results (run a (l1 ++ l2) fs) =
    docking_results (run a l1 fs1) ++ docking_results (run a l2 fs2) /\
  commands (run a (l1 ++ l2) fs) =
    commands (run a l1 fs1) ++ commands (run a l2 fs2) /\
  summary_log (run a (l1 ++ l2) fs) =
    summary_log (run a l1 fs1) +:+ summary_rows (docking_results (run a l2 fs2)) /\
  docking_results (run a l1 fs) = docking_results (run a l1 fs1) /\
  summary_log (run a l1 fs) = summary_log (run a l1 fs1).
Proof.
  destruct (run_effect a (l1 ++ l2) fs) as (-> & -> & ->).
  destruct (run_effect a l1 fs1) as (-> & -> & ->).
  destruct (run_effect a l2 fs2) as (-> & _ & ->).
  destruct (run_effect a l1 fs) as (-> & -> & _).
  rewrite !flat_map_app, summary_rows_app, append_assoc. auto.
Qed.

(** ** An engine that cannot be started *)

Lemma recorded_run_error a k :
  vina (command a k) = RunError -> recorded a k = [].
Proof.
  intros H. unfold DockingFacts.recorded, ligand_score. rewrite H.
  destruct (is_ligand_file k); reflexivity.
Qed.

(** X15. When [subprocess.run] raises for a ligand (the engine cannot be
    started), the exception is caught and the loop goes on: the list
    returned, the summary and the capture files are those of the same
    listing without that ligand. *)
Theorem run_error_is_passed_over (a : arguments) (pre : list string)
        (k : string) (post : list string) (fs : gmap string string) :
  vina (command a k) = RunError ->
  let w := run a (pre ++ k :: post) fs in
  let w' := run a (pre ++ post) fs in
  docking_results w = docking_results w' /\
  summary_log w = summary_log w' /\
  files w = files w' /\
  commands w = map (command a) (List.filter is_ligand_file (pre ++ k :: post)).
Proof.
  intros Hv w w'. unfold w, w'.
  destruct (run_effect a (pre ++ k :: post) fs) as (-> & -> & ->).
  destruct (run_effect a (pre ++ post) fs) as (-> & -> & _).
  rewrite !flat_map_app. simpl. rewrite (recorded_run_error a k Hv). simpl.
  split; [reflexivity|]. split; [reflexivity|].
  split; [|now rewrite <- (flat_map_invoked str_float path_join), flat_map_app].
  unfold run_docking. rewrite !fold_step_written, !fold_left_app. simpl.
  f_equal. unfold written. rewrite Hv. now destruct (is_ligand_file k).
Qed.

(** ** The capture files a run leaves *)

(** X16. For a listed ligand whose capture file no other listed ligand shares:
    after the run the file holds the output of its engine run when the
    engine exited with status 0; when the engine failed or could not be
    started, the file is what it was before the run, so a capture file of
    an earlier run stays in place. *)
Theorem capture_file_after_run (a : arguments) (listing : list string)
        (fs : gmap string string) (f : string) :
  In f listing -> is_ligand_file f = true ->
  (forall g, In g listing -> is_ligand_file g = true ->
             log_path a g = log_path a f -> g = f) ->
  files (run a listing fs) !! log_path a f = capture a f (fs !! log_path a f).
Proof.
  intros Hin Hf Hl. unfold run_docking. rewrite fold_step_written. simpl.
  rewrite (fold_written_capture a f listing fs Hf Hl).
  destruct (in_dec string_dec f listing); [reflexivity | contradiction].
Qed.

(** ** The ligands of the results *)

Lemma recorded_names_sublist a l :
  map ligand (flat_map (recorded a) l) `sublist_of` List.filter is_ligand_file l.
Proof.
  induction l as [|f l IH]; [constructor|].
  simpl. rewrite map_app. unfold DockingFacts.recorded at 1.
  destruct (is_ligand_file f).
  - destruct (score a f); simpl; [now constructor | now constructor].
  - exact IH.
Qed.

Lemma filter_sublist (p : string -> bool) (l : list string) :
  List.filter p l `sublist_of` l.
Proof.
  induction l as [|f l IH]; [constructor|].
  simpl. destruct (p f); now constructor.
Qed.

(** X17. The ligand names of the list returned are names of the listing that
    end in ".pdbqt", in the order of the listing, each at most as often as
    the listing has it: there are no more results than ligand files, and a
    listing without repetition gives results without repetition. *)
Theorem results_follow_the_listing (a : arguments) (listing : list string)
        (fs : gmap string string) :
  let names := map ligand (docking_results (run a listing fs)) in
  names `sublist_of` List.filter is_ligand_file listing /\
  (List.length (docking_results (run a listing fs))
   <= List.length (List.filter is_ligand_file listing))%nat /\
  (NoDup listing -> NoDup names).
Proof.
  intros names. unfold names.
  destruct (run_effect a listing fs) as (-> & _ & _).
  pose proof (recorded_names_sublist a listing) as Hs.
  split; [exact Hs|]. split.
  - rewrite <- (List.length_map ligand). now apply sublist_length.
  - intros Hnd. apply (sublist_NoDup _ listing); [exact Hnd|].
    etransitivity; [exact Hs | apply filter_sublist].
Qed.

(** ** Where a recorded score comes from *)

Lemma split_from_tokens (s : string) : forall tok,
  all_chars (fun c => negb (is_space c)) tok = true ->
  List.Forall (fun t => t <> EmptyString /\
                        all_chars (fun c => negb (is_space c)) t = true)
              (split_from tok s).
Proof.
  induction s as [|c s IH]; intros tok Ht.
  - simpl. destruct tok; [constructor|].
    constructor; [split; [discriminate | exact Ht] | constructor].
  - simpl. destruct (is_space c) eqn:Hc.
    + destruct tok; [now apply IH|].
      constructor; [split; [discriminate | exact Ht] | now apply IH].
    + apply IH. rewrite all_chars_app, Ht. simpl. now rewrite Hc.
Qed.

Lemma extract_from_result_line (lines : list string) (e : string) :
  extract_binding_energy lines = Some e ->
  exists line, In line lines /\ startswith line result_marker = true /\
               nth_error (split line) 3 = Some e.
Proof.
  induction lines as [|l lines IH]; [discriminate|].
  change (extract_binding_energy (l :: lines))
    with (if startswith l result_marker
          then if (4 <=? List.length (split l))%nat
               then nth_error (split l) 3 else None
          else extract_binding_energy lines).
  destruct (startswith l result_marker) eqn:Hl.
  - destruct (4 <=? List.length (split l))%nat; [|discriminate].
    intros H. exists l. split; [now left | auto].
  - intros H. destruct (IH H) as (line & Hin & Hm & Hn).
    exists line. split; [now right | auto].
Qed.

(** X18. Every entry of the list returned comes from an engine run that exited
    with status 0: its score is the fourth field of a result line of the
    output of that run, hence a text that is not empty and has no white
    space in it. *)
Theorem recorded_score_is_a_token (a : arguments) (listing : list string)
        (fs : gmap string string) (r : docking_result) :
  In r (docking_results (run a listing fs)) ->
  binding_energy r <> EmptyString /\
  all_chars (fun c => negb (is_space c)) (binding_energy r) = true /\
  exists out err line,
    vina (command a (ligand r)) = Completed 0 out err /\
    In line (file_lines out) /\
    startswith line result_marker = true /\
    nth_error (split line) 3 = Some (binding_energy r).
Proof.
  intros Hin. destruct (run_effect a listing fs) as (Hr & _ & _).
  rewrite Hr in Hin. apply in_flat_map in Hin as (f & _ & Hin).
  apply (recorded_ligand str_float path_join vina) in Hin as (<- & _ & Hs).
  unfold ligand_score in Hs.
  destruct (vina (command a (ligand r))) as [rc out err|]; [|discriminate].
  destruct (Z.eqb_spec rc 0) as [-> |]; [|discriminate].
  destruct (extract_from_result_line _ _ Hs) as (line & Hl & Hm & Hn).
  pose proof (split_from_tokens line EmptyString eq_refl) as Ht.
  rewrite List.Forall_forall in Ht.
  destruct (Ht _ (nth_error_In _ _ Hn)) as [Hne Hns].
  split; [exact Hne|]. split; [exact Hns|]. eauto 8.
Qed.

End Environment.

(** ** A run with an engine that cannot be started *)

(** The engine cannot be started on [b.pdbqt]; on every other ligand it
    exits with status 0 and [example_stdout]. *)
Definition unstartable_vina (command : list string) : process :=
  match nth_error command 4 with
  | Some path =>
      if String.eqb path "ligands/b.pdbqt" then RunError
      else Completed 0 example_stdout EmptyString
  | None => RunError
  end.

Lemma run_error_is_passed_over_example :
  let run := run_docking example_str_float posix_join unstartable_vina
                         example_arguments in
  docking_results (run ["a.pdbqt"; "b.pdbqt"; "c.PDBQT"] ∅)
    = docking_results (run ["a.pdbqt"; "c.PDBQT"] ∅) /\
  docking_results (run ["a.pdbqt"; "b.pdbqt"; "c.PDBQT"] ∅)
    = [DockingResult "a.pdbqt" "-7.2"; DockingResult "c.PDBQT" "-7.2"].
Proof.
  intros run.
  destruct (run_error_is_passed_over example_str_float posix_join
              unstartable_vina example_arguments ["a.pdbqt"] "b.pdbqt"
              ["c.PDBQT"] ∅ eq_refl) as (Hsame & _).
  split; [exact Hsame | vm_compute; reflexivity].
Defined.

(** The capture file of an earlier run of [b.pdbqt]. *)
Definition stale_files : gmap string string :=
  {[ "out/docking_b.log" := "REMARK VINA RESULT: -9.9 0 0" ]}.

Lemma capture_file_after_run_example :
  let run := run_docking example_str_float posix_join example_vina
                         example_arguments in
  files (run ["a.pdbqt"; "b.pdbqt"] stale_files) !! "out/docking_b.log"
    = Some "REMARK VINA RESULT: -9.9 0 0" /\
  files (run ["a.pdbqt"; "b.pdbqt"] stale_files) !! "out/docking_a.log"
    = Some example_stdout.
Proof.
  intros run. split.
  - refine (capture_file_after_run example_str_float posix_join example_vina
              example_arguments ["a.pdbqt"; "b.pdbqt"] stale_files "b.pdbqt"
              _ eq_refl _).
    + right. now left.
    + intros g [<- | [<- | []]] _ H; [vm_compute in H; discriminate | reflexivity].
  - refine (capture_file_after_run example_str_float posix_join example_vina
              example_arguments ["a.pdbqt"; "b.pdbqt"] stale_files "a.pdbqt"
              _ eq_refl _).
    + now left.
    + intros g [<- | [<- | []]] _ H; [reflexivity | vm_compute in H; discriminate].
Defined.

Lemma recorded_score_is_a_token_example :
  binding_energy (DockingResult "a.pdbqt" "-7.2") <> EmptyString.
Proof.
  refine (proj1 (recorded_score_is_a_token example_str_float posix_join
                   example_vina example_arguments ["a.pdbqt"; "b.pdbqt"] ∅
                   (DockingResult "a.pdbqt" "-7.2") _)).
  vm_compute. now left.
Defined.

End DockingRuns.

(* ===================================================================== *)
(** * More on the conversion of SMILES *)
(* ===================================================================== *)

Module SmilesFacts.
Import Text Pipeline PipelineFacts StringFacts.
Local Open Scope list_scope.

(** ** clean_smiles *)

Definition not_char (a c : ascii) : bool := negb (Ascii.eqb c a).

Lemma no_LF_last_line (s : string) :
  all_chars (not_char LF) s = true -> last_line s = true.
Proof.
  induction s as [|c s IH]; [reflexivity|].
  simpl. unfold not_char at 1. rewrite andb_true_iff, negb_true_iff.
  intros [-> H]. now apply IH.
Qed.

Lemma no_LF_line_end (s : string) :
  all_chars (not_char LF) s = true -> line_end s = EmptyString.
Proof.
  induction s as [|c s IH]; [reflexivity|].
  simpl. unfold not_char at 1. rewrite andb_true_iff, negb_true_iff.
  intros [-> H]. now apply IH.
Qed.

Lemma clean_smiles_one_line (s : string) :
  all_chars (not_char LF) s = true ->
  all_chars (not_char ".") (clean_smiles s) = true /\
  exists rest, s = clean_smiles s +:+ rest /\
               (rest = EmptyString \/ startswith rest "." = true).
Proof.
  induction s as [|c s IH]; intros H.
  - split; [reflexivity|]. exists EmptyString. auto.
  - simpl in H. apply andb_true_iff in H as [_ H].
    simpl. rewrite (no_LF_last_line s H), andb_true_r.
    destruct (Ascii.eqb_spec c ".") as [-> | Hc].
    + rewrite (no_LF_line_end s H). split; [reflexivity|].
      exists (String "." s). split; [reflexivity|]. right. 
      unfold startswith. simpl. destruct (ascii_dec "." "."); [|congruence].
      now destruct s.
    + destruct (IH H) as (Hd & rest & Hr & Hrest). split.
      * simpl. rewrite Hd, andb_true_r. unfold not_char.
        apply negb_true_iff. now apply Ascii.eqb_neq.
      * exists rest. split; [|exact Hrest]. rewrite app_cons. now rewrite <- Hr.
Qed.

Lemma clean_smiles_no_dot (s : string) :
  all_chars (not_char ".") s = true -> clean_smiles s = s.
Proof.
  induction s as [|c s IH]; [reflexivity|].
  simpl. unfold not_char at 1. rewrite andb_true_iff, negb_true_iff.
  intros [-> H]. simpl. now rewrite IH.
Qed.

Section Environment.

Variable path_join : string -> string -> string.
Variable shell : string -> Z.

Local Abbreviation command := (obabel_command path_join).
Local Abbreviation row_command := (PipelineFacts.row_command path_join).

(** X19. On a SMILES text of one line, [clean_smiles] keeps what comes before
    the first dot: the result has no dot, and the text is the result
    followed by nothing or by a dot and more.  Cleaning a second time
    changes nothing, so the command [run_pipeline] runs for a row, whose
    SMILES is cleaned twice, is the command [convert_smiles_to_mol2] would
    run on the SMILES as it is in the table. *)
Theorem clean_smiles_keeps_first_fragment (smiles : string) :
  all_chars (not_char LF) smiles = true ->
  all_chars (not_char ".") (clean_smiles smiles) = true /\
  (exists rest, smiles = clean_smiles smiles +:+ rest /\
                (rest = EmptyString \/ startswith rest "." = true)) /\
  clean_smiles (clean_smiles smiles) = clean_smiles smiles /\
  forall name mol2_dir,
    row_command mol2_dir (name, smiles) = command smiles name mol2_dir "obabel".
Proof.
  intros H. destruct (clean_smiles_one_line smiles H) as (Hd & Hr).
  pose proof (clean_smiles_no_dot _ Hd) as Hi.
  split; [exact Hd|]. split; [exact Hr|]. split; [exact Hi|].
  intros name mol2_dir. unfold PipelineFacts.row_command, obabel_command. simpl.
  now rewrite Hi.
Qed.

(** ** The loop of run_pipeline *)

Lemma prepare_ligands_all_succeed rows mol2_dir :
  Forall (fun r => shell (row_command mol2_dir r) = 0) rows ->
  prepare_ligands path_join shell rows mol2_dir =
    (map (row_command mol2_dir) rows, Return tt).
Proof.
  induction 1 as [|[name smile] rows Hr _ IH]; [reflexivity|].
  simpl. unfold convert_smiles_to_mol2.
  unfold PipelineFacts.row_command in Hr. simpl in Hr. rewrite Hr. simpl.
  rewrite IH. reflexivity.
Qed.

(** X20. When a conversion fails in [run_pipeline], the rows before it having
    been converted, the function raises the error of that conversion: the
    rows after it are not converted and none of the later stages runs,
    whatever they would have done. *)
Theorem first_failure_ends_run_pipeline
        (before : list (string * string)) (row : string * string)
        (after : list (string * string)) (output_dir : string)
        (later_stages : outcome unit) :
  Forall (fun r => shell (row_command (path_join output_dir "mol2_files") r) = 0)
         before ->
  shell (row_command (path_join output_dir "mol2_files") row) <> 0 ->
  run_pipeline path_join shell (before ++ row :: after) output_dir later_stages =
    (map (row_command (path_join output_dir "mol2_files")) before
       ++ [row_command (path_join output_dir "mol2_files") row],
     Raise (CalledProcessError
              (row_command (path_join output_dir "mol2_files") row)
              (shell (row_command (path_join output_dir "mol2_files") row)))).
Proof.
  intros Hb Hrow. unfold run_pipeline.
  now rewrite (first_failure_ends_the_loop path_join shell before row after _ Hb Hrow).
Qed.

(** X21. When every conversion exits with status 0, [run_pipeline] runs one
    command for each row of the table, in order, and goes on to its later
    stages. *)
Theorem all_conversions_reach_later_stages
        (rows : list (string * string)) (output_dir : string)
        (later_stages : outcome unit) :
  Forall (fun r => shell (row_command (path_join output_dir "mol2_files") r) = 0)
         rows ->
  run_pipeline path_join shell rows output_dir later_stages =
    (map (row_command (path_join output_dir "mol2_files")) rows, later_stages).
Proof.
  intros H. unfold run_pipeline.
  now rewrite (prepare_ligands_all_succeed rows _ H).
Qed.

(** ** convert_from_excel *)

Section Sheet.

Variables row cell : Type.
Variable getitem : row -> Z -> option cell.
Variable str_cell : cell -> string.
Variable isna : cell -> bool.
Variable truth : cell -> bool.
Variables smiles_column_index name_column_index : Z.
Variables output_dir obabel_cmd : string.

Local Abbreviation loop rows :=
  (convert_rows path_join shell row cell getitem str_cell isna truth rows
                smiles_column_index name_column_index output_dir obabel_cmd).
Local Abbreviation skip := (skipped_row cell isna truth).

(** Both accesses to the row return. *)
Definition readable (r : row) : bool :=
  match getitem r smiles_column_index, getitem r name_column_index with
  | Some _, Some _ => true
  | _, _ => false
  end.

(** The SMILES text and the name, as a text, of a row that is read and
    not skipped. *)
Definition entry (r : row) : list (string * string) :=
  match getitem r smiles_column_index, getitem r name_column_index with
  | Some smiles_cell, Some name =>
      if skip (strip (str_cell smiles_cell)) name then []
      else [(strip (str_cell smiles_cell), str_cell name)]
  | _, _ => []
  end.

Definition entry_command (e : string * string) : string :=
  command (fst e) (snd e) output_dir obabel_cmd.

Definition entry_file (e : string * string) : string :=
  output_filename path_join (snd e) output_dir.

Definition entry_converted (e : string * string) : bool :=
  shell (entry_command e) =? 0.

Lemma convert_rows_readable rows : forall ran mol2_files,
  forallb readable rows = true ->
  loop rows ran mol2_files =
    (ran ++ map entry_command (flat_map entry rows),
     Some (mol2_files ++
           map entry_file (List.filter entry_converted (flat_map entry rows)))).
Proof.
  induction rows as [|r rows IH]; intros ran mol2_files H.
  - simpl. now rewrite !app_nil_r.
  - simpl in H. apply andb_true_iff in H as [Hr H].
    unfold readable in Hr. simpl. unfold entry at 1 3.
    destruct (getitem r smiles_column_index) as [smiles_cell|]; [|discriminate].
    destruct (getitem r name_column_index) as [name|]; [|discriminate].
    destruct (skip (strip (str_cell smiles_cell)) name); [now apply IH|].
    unfold convert_smiles_to_mol2. simpl.
    unfold entry_converted at 1, entry_command at 1 3. simpl.
    destruct (shell (command (strip (str_cell smiles_cell)) (str_cell name)
                             output_dir obabel_cmd) =? 0);
      rewrite (IH _ _ H); simpl; rewrite <- ?app_assoc; reflexivity.
Qed.

Lemma convert_rows_unreadable before r after : forall ran mol2_files,
  forallb readable before = true -> readable r = false ->
  loop (before ++ r :: after) ran mol2_files =
    (ran ++ map entry_command (flat_map entry before), None).
Proof.
  induction before as [|r0 before IH]; intros ran mol2_files H Hr.
  - simpl. rewrite app_nil_r. unfold readable in Hr.
    destruct (getitem r smiles_column_index); [|reflexivity].
    destruct (getitem r name_column_index); [discriminate | reflexivity].
  - simpl in H. apply andb_true_iff in H as [Hr0 H].
    unfold readable in Hr0. simpl. unfold entry at 1.
    destruct (getitem r0 smiles_column_index) as [smiles_cell|]; [|discriminate].
    destruct (getitem r0 name_column_index) as [name|]; [|discriminate].
    destruct (skip (strip (str_cell smiles_cell)) name); [now apply IH|].
    unfold convert_smiles_to_mol2. simpl. unfold entry_command at 1. simpl.
    destruct (shell (command (strip (str_cell smiles_cell)) (str_cell name)
                             output_dir obabel_cmd) =? 0);
      rewrite (IH _ _ H Hr); simpl; rewrite <- ?app_assoc; reflexivity.
Qed.

(** X22. When both accesses to every row return, [convert_from_excel]
    returns, whatever the conversions do: it runs one command for each
    row that is not skipped, in order, and returns the paths of the rows
    whose command exited with status 0; a failed conversion is passed
    over.  A row is skipped exactly when its name is missing or false, or
    the text of its SMILES cell is empty once stripped; whether the SMILES
    cell is missing plays no part.  When an access to a row raises, the
    function raises: the commands run are those of the rows before it and
    no list is returned. *)
Theorem convert_from_excel_passes_over_failures :
  (forall rows,
      forallb readable rows = true ->
      convert_from_excel path_join shell row cell getitem str_cell isna truth
                         rows smiles_column_index name_column_index
                         output_dir obabel_cmd =
        (map entry_command (flat_map entry rows),
         Some (map entry_file
                   (List.filter entry_converted (flat_map entry rows))))) /\
  (forall r smiles_cell name,
      getitem r smiles_column_index = Some smiles_cell ->
      getitem r name_column_index = Some name ->
      (isna name = true \/ strip (str_cell smiles_cell) = EmptyString
       \/ truth name = false -> entry r = []) /\
      (isna name = false -> strip (str_cell smiles_cell) <> EmptyString ->
       truth name = true ->
       entry r = [(strip (str_cell smiles_cell), str_cell name)])) /\
  (forall before r after,
      forallb readable before = true -> readable r = false ->
      convert_from_excel path_join shell row cell getitem str_cell isna truth
                         (before ++ r :: after)
                         smiles_column_index name_column_index
                         output_dir obabel_cmd =
        (map entry_command (flat_map entry before), None)).
Proof.
  split; [|split].
  - intros rows H. unfold convert_from_excel.
    now rewrite (convert_rows_readable rows [] [] H).
  - intros r smiles_cell name Hs Hn. unfold entry, skipped_row.
    rewrite Hs, Hn. split.
    + intros [-> | [-> | ->]]; [reflexivity | |].
      * now rewrite orb_true_r.
      * now rewrite orb_true_r.
    + intros -> Hne ->. simpl.
      destruct (String.eqb_spec (strip (str_cell smiles_cell)) EmptyString);
        [contradiction | reflexivity].
  - intros before r after H Hr. unfold convert_from_excel.
    now rewrite (convert_rows_unreadable before r after [] [] H Hr).
Qed.

End Sheet.

(** ** The name of the file written *)





End Environment.

(** ** The example table *)

Lemma clean_smiles_keeps_first_fragment_example :
  clean_smiles "CC(=O)[O-].[Na+]" = "CC(=O)[O-]" /\
  clean_smiles (clean_smiles "CC(=O)[O-].[Na+]") = clean_smiles "CC(=O)[O-].[Na+]".
Proof.
  split; [reflexivity|].
  exact (proj1 (proj2 (proj2 (clean_smiles_keeps_first_fragment
                                posix_join "CC(=O)[O-].[Na+]" eq_refl)))).
Defined.

Lemma first_failure_ends_run_pipeline_example :
  snd (run_pipeline posix_join example_shell
                    ([("ethanol", "CCO")] ++ ("broken", "C1CC") :: [("water", "O")])
                    "results" (Return tt))
  = Raise (CalledProcessError
             (obabel_command posix_join "C1CC" "broken" "results/mol2_files" "obabel")
             1).
Proof.
  rewrite (first_failure_ends_run_pipeline posix_join example_shell
             [("ethanol", "CCO")] ("broken", "C1CC") [("water", "O")]
             "results" (Return tt)).
  - reflexivity.
  - repeat constructor.
  - vm_compute. discriminate.
Defined.

Lemma all_conversions_reach_later_stages_example :
  snd (run_pipeline posix_join example_shell
                    [("ethanol", "CCO"); ("water", "O")] "results" (Return tt))
  = Return tt.
Proof.
  rewrite (all_conversions_reach_later_stages posix_join example_shell
             [("ethanol", "CCO"); ("water", "O")] "results" (Return tt)).
  - reflexivity.
  - repeat constructor.
Defined.

(** ** A sheet of two columns *)

(** A cell of the sheet: a text, or nothing, which pandas reads as NaN. *)
Inductive sheet_cell : Type :=
| TextCell (text : string)
| EmptyCell.

Definition sheet_str (c : sheet_cell) : string :=
  match c with
  | TextCell text => text
  | EmptyCell => "nan"
  end.

Definition sheet_isna (c : sheet_cell) : bool :=
  match c with
  | TextCell _ => false
  | EmptyCell => true
  end.

Definition sheet_truth (c : sheet_cell) : bool :=
  match c with
  | TextCell text => negb (String.eqb text EmptyString)
  | EmptyCell => true
  end.

(** A row is the list of its cells, and an integer key that is not
    negative is read as a position. *)
Definition by_position (r : list sheet_cell) (k : Z) : option sheet_cell :=
  nth_error r (Z.to_nat k).

Definition example_sheet : list (list sheet_cell) :=
  [ [TextCell "ethanol"; TextCell "CCO"];
    [TextCell "broken"; TextCell "C1CC"];
    [EmptyCell; TextCell "C"];
    [TextCell "unknown"; EmptyCell];
    [TextCell "water"; TextCell " O "] ].

Lemma convert_from_excel_passes_over_failures_example :
  let convert rows :=
    convert_from_excel posix_join example_shell (list sheet_cell) sheet_cell
                       by_position sheet_str sheet_isna sheet_truth
                       rows 1 0 "results/mol2_files" "obabel" in
  let command smiles name :=
    obabel_command posix_join smiles name "results/mol2_files" "obabel" in
  convert example_sheet =
    ([command "CCO" "ethanol"; command "C1CC" "broken";
      command "nan" "unknown"; command "O" "water"],
     Some ["results/mol2_files/ethanol.mol2"; "results/mol2_files/unknown.mol2";
           "results/mol2_files/water.mol2"]) /\
  convert ([[TextCell "ethanol"; TextCell "CCO"]]
             ++ [TextCell "lonely"] :: [[TextCell "water"; TextCell "O"]]) =
    ([command "CCO" "ethanol"], None).
Proof.
  intros convert command.
  destruct (convert_from_excel_passes_over_failures
              posix_join example_shell (list sheet_cell) sheet_cell
              by_position sheet_str sheet_isna sheet_truth
              1 0 "results/mol2_files" "obabel") as (Hall & _ & Hraise).
  split.
  - exact (Hall example_sheet eq_refl).
  - exact (Hraise [[TextCell "ethanol"; TextCell "CCO"]] [TextCell "lonely"]
                  [[TextCell "water"; TextCell "O"]] eq_refl eq_refl).
Defined.

End SmilesFacts.

(* ===================================================================== *)
(** * The docking box of a normalised file *)
(* ===================================================================== *)

Module NormalizedBox.
Import Text DockBox NormalizeFormat StringFacts NormalizeFormatFacts DockBoxFacts.
Local Open Scope list_scope.

(** ** White space at the end of a line *)

Lemma prefix_trailing_space (p s e : string) :
  all_chars (fun c => negb (is_space c)) p = true ->
  all_chars is_space e = true ->
  String.prefix p (s +:+ e) = String.prefix p s.
Proof.
  intros Hp He. revert s. induction p as [|c p IH]; intros s.
  - now destruct s, e.
  - simpl in Hp. apply andb_true_iff in Hp as [Hc Hp].
    destruct s as [|d s].
    + change (EmptyString +:+ e) with e. destruct e as [|d e]; [reflexivity|].
      simpl in He. apply andb_true_iff in He as [Hd _]. simpl.
      destruct (ascii_dec c d) as [-> |]; [|reflexivity].
      rewrite Hd in Hc. discriminate.
    + rewrite app_cons. simpl. destruct (ascii_dec c d); [now apply IH | reflexivity].
Qed.

Lemma is_atom_line_trailing_space (line e : string) :
  all_chars is_space e = true ->
  is_atom_line (line +:+ e) = is_atom_line line.
Proof.
  intros He. unfold is_atom_line, startswith.
  now rewrite !(prefix_trailing_space _ line e) by (reflexivity || exact He).
Qed.

Lemma split_from_trailing_space (s e : string) : forall tok,
  all_chars is_space e = true ->
  split_from tok (s +:+ e) = split_from tok s.
Proof.
  induction s as [|c s IH]; intros tok He.
  - change (EmptyString +:+ e) with e. revert tok.
    induction e as [|d e IHe]; intros tok; [reflexivity|].
    simpl in He. apply andb_true_iff in He as [Hd He]. simpl. rewrite Hd.
    rewrite !(IHe He). now destruct tok.
  - rewrite app_cons. simpl. rewrite !(IH _ He). reflexivity.
Qed.

Lemma parse_trailing_space (line e : string) :
  all_chars is_space e = true ->
  parse_coordinates (line +:+ e) = parse_coordinates line.
Proof.
  intros He. unfold parse_coordinates, split.
  now rewrite (split_from_trailing_space line e EmptyString He).
Qed.

Lemma scan_line_trailing_space (b : bounds) (line e : string) :
  all_chars is_space e = true ->
  scan_line b (line +:+ e) = scan_line b line.
Proof.
  intros He. unfold scan_line.
  now rewrite is_atom_line_trailing_space, parse_trailing_space.
Qed.

Lemma rstrip_dropped (s : string) :
  exists w, s = rstrip s +:+ w /\ all_chars is_space w = true.
Proof.
  induction s as [|c s (w & Hw & Hs)]; [now exists EmptyString|].
  simpl. destruct (rstrip s) as [|d t] eqn:E.
  - destruct (is_space c) eqn:Hc.
    + exists (String c s). split; [reflexivity|].
      simpl. rewrite Hc. simpl. rewrite Hw. exact Hs.
    + exists w. split; [|exact Hs]. rewrite app_cons. now rewrite <- Hw.
  - exists w. split; [|exact Hs]. rewrite app_cons. now rewrite <- Hw.
Qed.

(** ** MODEL and ENDMDL lines are no atom lines *)

Lemma atom_line_head (line : string) :
  is_atom_line line = true ->
  exists t, line = String "A" t \/ line = String "H" t.
Proof.
  unfold is_atom_line. intros H. apply orb_true_iff in H as [H|H];
    apply startswith_inv in H as [r ->]; eauto.
Qed.

Lemma model_line_not_atom (line : string) :
  startswith (lstrip line) "MODEL" || startswith (lstrip line) "ENDMDL" = true ->
  is_atom_line line = false /\ is_atom_line (rstrip (lstrip line)) = false.
Proof.
  intros Hm. split.
  - destruct (is_atom_line line) eqn:E; [|reflexivity].
    destruct (atom_line_head line E) as [t [-> | ->]]; discriminate Hm.
  - destruct (is_atom_line (rstrip (lstrip line))) eqn:E; [|reflexivity].
    destruct (rstrip_prefix (lstrip line)) as [w Hw].
    destruct (atom_line_head _ E) as [t [Ht | Ht]];
      rewrite Ht in Hw; rewrite Hw in Hm; discriminate Hm.
Qed.

Lemma scan_line_clean_line (b : bounds) (line e e' : string) :
  all_chars is_space e = true -> all_chars is_space e' = true ->
  scan_line b (clean_line line +:+ e') = scan_line b (line +:+ e).
Proof.
  intros He He'. rewrite !scan_line_trailing_space by assumption.
  unfold clean_line.
  destruct (startswith (lstrip line) "MODEL" || startswith (lstrip line) "ENDMDL")
    eqn:Hm.
  - destruct (model_line_not_atom line Hm) as [H1 H2].
    unfold scan_line. now rewrite H1, H2.
  - destruct (rstrip_dropped line) as (w & Hw & Hs).
    rewrite Hw at 2. now rewrite scan_line_trailing_space.
Qed.

(** ** Reading a text of terminated lines *)

Lemma lines_from_line (line ending rest : string) : forall cur,
  all_chars printable line = true ->
  (forall cur', lines_from cur' (ending +:+ rest) =
                (cur' +:+ newline) :: lines_from EmptyString rest) ->
  lines_from cur (line +:+ ending +:+ rest) =
    (cur +:+ line +:+ newline) :: lines_from EmptyString rest.
Proof.
  intros cur Hp He. revert cur. induction line as [|c line IH]; intros cur.
  - exact (He cur).
  - simpl in Hp. apply andb_true_iff in Hp as [Hc Hl].
    rewrite app_cons. simpl.
    assert (Hlf : Ascii.eqb c LF = false /\ Ascii.eqb c CR = false).
    { clear - Hc. destruct c as [[] [] [] [] [] [] [] []];
        vm_compute in Hc; try discriminate Hc; split; reflexivity. }
    destruct Hlf as [-> ->]. rewrite (IH Hl).
    rewrite app_assoc'. rewrite app_cons. reflexivity.
Qed.

Lemma file_lines_terminated (ending : string) (lines : list string) :
  (forall cur rest, lines_from cur (ending +:+ rest) =
                    (cur +:+ newline) :: lines_from EmptyString rest) ->
  List.Forall (fun l => all_chars printable l = true) lines ->
  file_lines (terminated ending lines) = map (fun l => l +:+ newline) lines.
Proof.
  intros He. unfold file_lines.
  induction 1 as [|line lines Hl _ IH]; [reflexivity|].
  simpl. rewrite (lines_from_line line ending _ EmptyString Hl (fun c => He c _)).
  now rewrite IH.
Qed.

Lemma lines_from_newline (cur rest : string) :
  lines_from cur (newline +:+ rest) = (cur +:+ newline) :: lines_from EmptyString rest.
Proof. reflexivity. Qed.

Lemma lines_from_crlf (cur rest : string) :
  lines_from cur (crlf +:+ rest) = (cur +:+ newline) :: lines_from EmptyString rest.
Proof. reflexivity. Qed.

Lemma scan_cleaned (lines : list string) : forall b,
  fold_left scan_line (map (fun l => clean_line l +:+ newline) lines) b =
  fold_left scan_line (map (fun l => l +:+ newline) lines) b.
Proof.
  induction lines as [|l lines IH]; intros b; [reflexivity|].
  simpl. rewrite (scan_line_clean_line b l newline newline eq_refl eq_refl).
  apply IH.
Qed.

(** X24. Normalising a file does not change its docking box: for a Unix text
    of printable lines, [calculate_docking_box] on the file that
    [normalize_pdbqt_format] writes gives the result it gives on the
    original file, bit for bit. *)
Theorem normalizing_keeps_the_docking_box (lines : list string)
        (padding : float) :
  lines <> [] ->
  List.Forall (fun l => all_chars printable l = true) lines ->
  calculate_docking_box
    (file_lines (normalize_text (terminated newline lines))) padding =
  calculate_docking_box (file_lines (terminated newline lines)) padding.
Proof.
  intros Hne Hp.
  rewrite (normalize_terminated newline lines eq_refl splitlines_newline Hne Hp).
  rewrite (file_lines_terminated newline lines lines_from_newline Hp).
  rewrite (file_lines_terminated crlf (map clean_line lines) lines_from_crlf).
  - unfold calculate_docking_box, scan. rewrite map_map.
    now rewrite scan_cleaned.
  - apply List.Forall_map. revert Hp. apply List.Forall_impl.
    intros l Hl. now destruct (clean_line_tidy l Hl).
Qed.

Lemma normalizing_keeps_the_docking_box_example :
  let lines :=
    [ "  MODEL 1";
      "ATOM      1  C   LIG A   1       0.000   0.000   0.000  0.00  0.00    +0.034 C  ";
      "ATOM      2  O   LIG A   1      10.000   6.000   4.000  0.00  0.00    -0.120 OA";
      "ENDMDL" ] in
  calculate_docking_box
    (file_lines (normalize_text (terminated newline lines))) 10 =
  calculate_docking_box (file_lines (terminated newline lines)) 10.
Proof.
  intros lines.
  apply (normalizing_keeps_the_docking_box lines 10); [discriminate|].
  repeat constructor.
Defined.

End NormalizedBox.
